(** * Issue tracker back end: the issue and comment routes

    A shallow embedding of the two route modules of the back end,
    [backend/routes/issueRoutes-final.js] (module [Final]) and
    [backend/routes/issueRoutes.js] (module [Legacy]), together with the
    Mongoose schemas they are written against: [backend/models/Issue-final.js]
    (module [IssueFinal]) and the older Issue schema (module [IssueLegacy]).

    - A MongoDB collection is a finite map from [_id] to documents.
    - A route handler is a computation in a state-and-exception monad over
      the database; every call of a model method is recorded in a call log.
    - Request bodies are JSON objects whose recognised fields, when present,
      are strings; characters are code units in the range U+0000..U+00FF.
    - The two values a handler reads from its environment, the clock and the
      ObjectId the driver generates for an inserted document, are fields of
      the request, as is the authenticated user.
    - Mongoose is modelled as the routes use it: setters ([trim]) run on
      documents and on updates before validation, [runValidators] validates
      the paths an update sets, schema defaults fill the missing paths of
      new and of loaded documents, a failed cast of an id or of an update
      value throws, and an insert under an existing [_id] throws.
    - The database itself answers every query: a lost connection or a
      failed write, after which a handler answers 500 from its [catch]
      block, is outside the model. The statements that a half-done change
      would affect (what a rejected request leaves unchanged, that every
      comment belongs to an issue) are made of the answers below 500. *)

From Stdlib Require Import ZArith Lia Ascii String SpecFloat.
From stdpp Require Import gmap strings list sorting pretty.

Local Open Scope Z_scope.

(** ** JavaScript strings *)

Module Js.

(** White space removed by [String.prototype.trim]: TAB, LF, VT, FF, CR,
    SPACE and NO-BREAK SPACE. *)
Definition isWhiteSpace (c : ascii) : bool :=
  let n := nat_of_ascii c in
  ((9 <=? n) && (n <=? 13) || (n =? 32) || (n =? 160))%nat.

Fixpoint trimStart (s : string) : string :=
  match s with
  | EmptyString => EmptyString
  | String c r => if isWhiteSpace c then trimStart r else s
  end.

Fixpoint trimEnd (s : string) : string :=
  match s with
  | EmptyString => EmptyString
  | String c r =>
      match trimEnd r with
      | EmptyString => if isWhiteSpace c then EmptyString else String c EmptyString
      | r' => String c r'
      end
  end.

Definition trim (s : string) : string := trimEnd (trimStart s).

(** [s.length] *)
Definition length (s : string) : Z := Z.of_nat (String.length s).

(** Truthiness of a value that is a string or [undefined]. *)
Definition truthy (v : option string) : bool :=
  match v with
  | Some (String _ _) => true
  | _ => false
  end.

Fixpoint repeat (c : ascii) (n : nat) : string :=
  match n with
  | O => EmptyString
  | S k => String c (repeat c k)
  end.

End Js.

(** ** ObjectIds *)

(** An ObjectId is twelve bytes; it is kept as the number its 24 hexadecimal
    digits denote. *)
Abbreviation ObjectId := N.

Definition isDigit (c : ascii) : bool :=
  let n := nat_of_ascii c in ((48 <=? n) && (n <=? 57))%nat.
Definition isLowerHexLetter (c : ascii) : bool :=
  let n := nat_of_ascii c in ((97 <=? n) && (n <=? 102))%nat.
Definition isUpperHexLetter (c : ascii) : bool :=
  let n := nat_of_ascii c in ((65 <=? n) && (n <=? 70))%nat.

(** The character class [[0-9a-fA-F]]. *)
Definition isHexDigit (c : ascii) : bool :=
  isDigit c || isLowerHexLetter c || isUpperHexLetter c.

Fixpoint allChars (p : ascii -> bool) (s : string) : bool :=
  match s with
  | EmptyString => true
  | String c r => p c && allChars p r
  end.

(** [issueId.match(/^[0-9a-fA-F]{24}$/)], as a truth value. *)
Definition matchesObjectIdFormat (s : string) : bool :=
  (String.length s =? 24)%nat && allChars isHexDigit s.

Definition hexValue (c : ascii) : N :=
  let n := N_of_ascii c in
  (if isDigit c then n - 48
   else if isLowerHexLetter c then n - 87
   else n - 55)%N.

Fixpoint hexToN (acc : N) (s : string) : N :=
  match s with
  | EmptyString => acc
  | String c r => hexToN (16 * acc + hexValue c)%N r
  end.

(** Mongoose's cast of a string to an ObjectId: a string of 24 hexadecimal
    digits of either case denotes an id, and the cast of any other string
    is taken to fail. (Some driver versions also read a 12-character string
    as twelve raw bytes; no statement below depends on such strings.) *)
Definition castObjectId (s : string) : option ObjectId :=
  if matchesObjectIdFormat s then Some (hexToN 0 s) else None.

(** The identifier shape in the words of the interface contract:
    24 characters, each a digit or a lowercase letter a-f. *)
Definition isLowerHex24 (s : string) : bool :=
  (String.length s =? 24)%nat
  && allChars (fun c => isDigit c || isLowerHexLetter c) s.

(** ** Stored documents *)

(** An issue document. [description] and [assignee] are absent in documents
    written through the older schema, which has no default for them. *)
Record IssueDoc := {
  title : string;
  description : option string;
  status : string;
  priority : string;
  assignee : option string;
  author : ObjectId;
  createdAt : Z;
  updatedAt : Z
}.

(** Modelled from the spec: the Comment schema ([models/Comment.js] is
    referenced by the routes and absent from the sources). A comment has a
    required [content] that is non-empty after trimming, an [author], the
    [issue] it belongs to and a creation time. *)
Record CommentDoc := {
  content : string;
  comment_author : ObjectId;
  comment_issue : ObjectId;
  comment_createdAt : Z
}.

(** Modelled from the spec: the User schema ([models/User.js] is referenced
    by [populate('author', 'name email')] and absent from the sources). Only
    the two populated fields are kept. *)
Record UserDoc := {
  user_name : string;
  user_email : string
}.

(** Calls into the model layer, in the order a handler makes them. *)
Inductive Call :=
| IssueFind (authorFilter : option ObjectId)
| IssueCountDocuments (authorFilter : ObjectId) (statusFilter : option string)
| IssueFindById (id : string)
| IssueFindByObjectId (id : ObjectId)
| IssueCreate
| IssueFindByIdAndUpdate (id : string)
| IssueFindByIdAndDelete (id : string)
| CommentCountDocuments (issue : ObjectId)
| CommentFind (issue : string)
| CommentCreate
| CommentFindByObjectId (id : ObjectId)
| CommentDeleteMany (issue : string).

Record Db := {
  issues : gmap ObjectId IssueDoc;
  comments : gmap ObjectId CommentDoc;
  users : gmap ObjectId UserDoc;
  calls : list Call
}.

Definition setIssues (f : gmap ObjectId IssueDoc -> gmap ObjectId IssueDoc) (db : Db) : Db :=
  {| issues := f (issues db); comments := comments db; users := users db; calls := calls db |}.
Definition setComments (f : gmap ObjectId CommentDoc -> gmap ObjectId CommentDoc) (db : Db) : Db :=
  {| issues := issues db; comments := f (comments db); users := users db; calls := calls db |}.
Definition addCall (c : Call) (db : Db) : Db :=
  {| issues := issues db; comments := comments db; users := users db; calls := calls db ++ [c] |}.

(** ** Request bodies *)

Record IssueBody := {
  b_title : option string;
  b_description : option string;
  b_status : option string;
  b_priority : option string;
  b_assignee : option string;
  b_author : option string
}.

(** What a handler reads besides the path parameter and the body:
    [req.user.id] (set by the authentication middleware), the clock, the
    ObjectId generated for a document it inserts, and whether
    [process.env.NODE_ENV] is ['development']. *)
Record Request := {
  user : ObjectId;
  now : Z;
  newId : ObjectId;
  development : bool
}.

(** ** Errors thrown by the model layer *)

Inductive Error :=
| CastError (path value : string)
| ValidationError (messages : list string)
| DuplicateKeyError.

(** [error.name === 'ValidationError'] *)
Definition isValidationError (e : Error) : bool :=
  match e with ValidationError _ => true | _ => false end.

(** ** The handler monad: database state and exceptions *)

Inductive Result (A : Type) :=
| Ok (a : A)
| Throw (e : Error).
Arguments Ok {A} a.
Arguments Throw {A} e.

Definition M (A : Type) : Type := Db -> Result A * Db.

#[global] Instance M_ret : MRet M := fun A a db => (Ok a, db).
#[global] Instance M_bind : MBind M := fun A B f m db =>
  match m db with
  | (Ok a, db') => f a db'
  | (Throw e, db') => (Throw e, db')
  end.

Definition throw {A} (e : Error) : M A := fun db => (Throw e, db).
Definition getDb : M Db := fun db => (Ok db, db).
Definition modifyDb (f : Db -> Db) : M unit := fun db => (Ok tt, f db).
Definition call (c : Call) : M unit := modifyDb (addCall c).

Fixpoint mapM {A B} (f : A -> M B) (l : list A) : M (list B) :=
  match l with
  | [] => mret []
  | x :: r => y ← f x; ys ← mapM f r; mret (y :: ys)
  end.

(** [try { body } catch (error) { handler }] around a handler body. *)
Definition tryCatch {A} (body : M A) (handler : Error -> A) : Db -> A * Db :=
  fun db =>
    match body db with
    | (Ok a, db') => (a, db')
    | (Throw e, db') => (handler e, db')
    end.

(** ** Documents as the routes see them *)

(** A populated author: [populate('author', 'name email')]. *)
Record UserView := {
  u_id : ObjectId;
  u_name : string;
  u_email : string
}.

Inductive AuthorField :=
| Unpopulated (id : ObjectId)
| Populated (u : option UserView).

(** A Mongoose document returned by a query. *)
Record IssueDocument := {
  _id : ObjectId;
  fields : IssueDoc;
  authorField : AuthorField
}.

(** A serialised issue. [v_commentCount], [v_ageInDays] and [v_isOverdue]
    are [None] when the property is not part of the object. *)
Record IssueView := {
  v_id : ObjectId;
  v_fields : IssueDoc;
  v_author : AuthorField;
  v_commentCount : option nat;
  v_ageInDays : option Z;
  v_isOverdue : option bool
}.

Record CommentView := {
  cv_id : ObjectId;
  cv_fields : CommentDoc;
  cv_author : AuthorField
}.

Inductive JsValue :=
| JsNumber (z : Z)
| JsString (s : string).

Record Stats := {
  total : nat;
  open : nat;
  inProgress : nat;
  resolved : nat;
  closed : nat;
  solved : nat;
  ongoing : nat;
  completionRate : option JsValue
}.

(** ** Responses *)

Inductive Text :=
| Literal (s : string)
| MessageOf (e : Error).

Inductive Data :=
| NoData
| AnIssue (v : IssueView)
| IssueList (l : list IssueView)
| Statistics (s : Stats)
| AComment (c : CommentView)
| CommentList (l : list CommentView).

(** [res.status(code).json({ success, message, errors, error, count, data })];
    a property the handler does not write is [None] (or [NoData]). *)
Record Response := {
  res_status : Z;
  res_success : bool;
  res_message : option Text;
  res_errors : option (list string);
  res_error : option Text;
  res_count : option nat;
  res_data : Data
}.

Definition failure (code : Z) (msg : string) : Response :=
  {| res_status := code; res_success := false; res_message := Some (Literal msg);
     res_errors := None; res_error := None; res_count := None; res_data := NoData |}.

(** ** Issue schemas *)

(** The part of a schema the routes depend on. A validator receives the
    value of its path after the setters and defaults and returns the message
    of the first validator that fails. *)
Record IssueSchema := {
  validateTitle : option string -> option string;
  validateDescription : option string -> option string;
  validateStatus : option string -> option string;
  validatePriority : option string -> option string;
  validateAssignee : option string -> option string;
  defaultDescription : option string;
  defaultAssignee : option string;
  hasVirtuals : bool;
  hasPreSave : bool
}.

Definition statusValues : list string := ["Open"; "In Progress"; "Resolved"; "Closed"].
Definition priorityValues : list string := ["Low"; "Medium"; "High"; "Urgent"].

Definition inValues (values : list string) (v : string) : bool :=
  existsb (String.eqb v) values.

(** [models/Issue-final.js]. The [required] validator of a path runs first;
    the others follow in the order of the schema options. *)
Module IssueFinal.

Definition title (v : option string) : option string :=
  match v with
  | None => Some "Issue title is required"
  | Some t =>
      if Js.length t =? 0 then Some "Issue title is required"
      else if 200 <? Js.length t then Some "Title cannot exceed 200 characters"
      else if Js.length t <? 3 then Some "Title must be at least 3 characters long"
      else None
  end.

Definition description (v : option string) : option string :=
  match v with
  | None => None
  | Some d =>
      if 2000 <? Js.length d then Some "Description cannot exceed 2000 characters"
      else None
  end.

Definition status (v : option string) : option string :=
  match v with
  | None => Some "Path `status` is required."
  | Some s =>
      if Js.length s =? 0 then Some "Path `status` is required."
      else if inValues statusValues s then None
      else Some "Status must be one of: Open, In Progress, Resolved, Closed"
  end.

Definition priority (v : option string) : option string :=
  match v with
  | None => Some "Path `priority` is required."
  | Some s =>
      if Js.length s =? 0 then Some "Path `priority` is required."
      else if inValues priorityValues s then None
      else Some "Priority must be one of: Low, Medium, High, Urgent"
  end.

Definition assignee (v : option string) : option string :=
  match v with
  | None => None
  | Some a =>
      if 100 <? Js.length a then Some "Assignee name cannot exceed 100 characters"
      else None
  end.

Definition schema : IssueSchema :=
  {| validateTitle := title;
     validateDescription := description;
     validateStatus := status;
     validatePriority := priority;
     validateAssignee := assignee;
     defaultDescription := Some EmptyString;
     defaultAssignee := Some EmptyString;
     hasVirtuals := true;
     hasPreSave := true |}.

End IssueFinal.

(** The older Issue schema: [title] is required, [status] and [priority]
    are restricted to their enumerations, nothing else is validated and
    [description] and [assignee] have no default. *)
Module IssueLegacy.

Definition title (v : option string) : option string :=
  match v with
  | None => Some "Path `title` is required."
  | Some t => if Js.length t =? 0 then Some "Path `title` is required." else None
  end.

Definition enum (path : string) (values : list string) (v : option string) : option string :=
  match v with
  | None => None
  | Some s =>
      if inValues values s then None
      else Some ("`" +:+ s +:+ "` is not a valid enum value for path `" +:+ path +:+ "`.")
  end.

Definition schema : IssueSchema :=
  {| validateTitle := title;
     validateDescription := fun _ => None;
     validateStatus := enum "status" statusValues;
     validatePriority := enum "priority" priorityValues;
     validateAssignee := fun _ => None;
     defaultDescription := None;
     defaultAssignee := None;
     hasVirtuals := false;
     hasPreSave := false |}.

End IssueLegacy.

Arguments IssueFinal.title : simpl never.
Arguments IssueFinal.description : simpl never.
Arguments IssueFinal.status : simpl never.
Arguments IssueFinal.priority : simpl never.
Arguments IssueFinal.assignee : simpl never.
Arguments IssueLegacy.title : simpl never.
Arguments IssueLegacy.enum : simpl never.

(** ** The model layer *)

(** [{ ...req.body, author: req.user.id }]: the fields of the body with its
    own [author], if any, replaced. [req.user.id] is the string form of the
    authenticated user's ObjectId, whose cast cannot fail; it is kept as the
    ObjectId. *)
Record IssueData := {
  d_title : option string;
  d_description : option string;
  d_status : option string;
  d_priority : option string;
  d_assignee : option string;
  d_author : ObjectId
}.

Definition withAuthor (body : IssueBody) (a : ObjectId) : IssueData :=
  {| d_title := b_title body;
     d_description := b_description body;
     d_status := b_status body;
     d_priority := b_priority body;
     d_assignee := b_assignee body;
     d_author := a |}.

(** [value ?? default], for a path with a schema default. *)
Definition orDefault (v dflt : option string) : option string :=
  match v with
  | Some _ => v
  | None => dflt
  end.

Definition failures (l : list (option string)) : list string := omap id l.

(** ** JavaScript numbers *)

(** The arithmetic of [(solved / total * 100).toFixed(1)] and of
    [Math.ceil(Math.abs(now - created) / day)]. A positive double
    is a pair of a mantissa and an exponent, of value [mant * 2^expo]; the
    result of a division or multiplication is the exact result rounded to 53
    significant bits, ties to even (IEEE 754 binary64; the quotients and
    products formed here lie far inside the normal range). *)
Module Number.

Record double := { mant : Z; expo : Z }.

Definition zero : double := {| mant := 0; expo := 0 |}.

(** Numerator and denominator of [(p / q) / 2^e]. *)
Definition scale (p q e : Z) : Z * Z :=
  if 0 <=? e then (p, q * 2 ^ e) else (p * 2 ^ (- e), q).

(** [floor (log2 (p / q))] for positive [p] and [q]. *)
Definition floorLog2 (p q : Z) : Z :=
  let k := Z.log2 p - Z.log2 q in
  let '(a, b) := scale p q k in
  if b <=? a then k else k - 1.

(** The integer nearest to [a / b], ties to the even one. *)
Definition roundEven (a b : Z) : Z :=
  let m := a / b in
  let r := a mod b in
  if 2 * r <? b then m
  else if b <? 2 * r then m + 1
  else if Z.even m then m else m + 1.

(** The double nearest to the positive rational [p / q]. *)
Definition nearest (p q : Z) : double :=
  let e := floorLog2 p q - 52 in
  let '(a, b) := scale p q e in
  {| mant := roundEven a b; expo := e |}.

(** [s / t] for integers [0 <= s] and [0 < t] below 2^53. *)
Definition div (s t : Z) : double :=
  if s =? 0 then zero else nearest s t.

(** [x * k] for a positive integer [k] below 2^53. *)
Definition mul (x : double) (k : Z) : double :=
  if mant x =? 0 then zero
  else if 0 <=? expo x then nearest (mant x * 2 ^ expo x * k) 1
  else nearest (mant x * k) (2 ^ (- expo x)).

(** [x.toFixed(1)] chooses the integer [n] for which [n / 10 - x] is closest
    to zero, the larger one if there are two: [n = floor (10 * x + 1/2)]. *)
Definition tenths (x : double) : Z :=
  if 0 <=? expo x then 10 * mant x * 2 ^ expo x
  else (20 * mant x + 2 ^ (- expo x)) / (2 * 2 ^ (- expo x)).

(** The digits of [n / 10] with one decimal. *)
Definition oneDecimal (n : Z) : string :=
  pretty (n / 10) +:+ "." +:+ pretty (n mod 10).

Definition toFixed1 (x : double) : string := oneDecimal (tenths x).

(** The double nearest to the integer [z >= 0]: what a subtraction whose
    exact result is [z] yields. *)
Definition ofInteger (z : Z) : double :=
  if z =? 0 then zero else nearest z 1.

(** [x / k] for a positive integer [k] below 2^53. *)
Definition over (x : double) (k : Z) : double :=
  if mant x =? 0 then zero
  else if 0 <=? expo x then nearest (mant x * 2 ^ expo x) k
  else nearest (mant x) (k * 2 ^ (- expo x)).

(** [Math.ceil(x)] *)
Definition ceil (x : double) : Z :=
  if 0 <=? expo x then mant x * 2 ^ expo x
  else - ((- mant x) / 2 ^ (- expo x)).

End Number.

Definition millisecondsPerDay : Z := 1000 * 60 * 60 * 24.

(** The virtual [ageInDays]: [Math.ceil(Math.abs(now - created) / day)],
    computed as the code computes it, in binary64: the difference of the
    two time values is rounded, and so is its quotient by the length of a
    day. The time values themselves are integers of magnitude at most
    8.64e15 and hence doubles. *)
Definition ageInDays (now : Z) (d : IssueDoc) : Z :=
  let diffTime := Number.ofInteger (Z.abs (now - createdAt d)) in
  Number.ceil (Number.over diffTime millisecondsPerDay).

(** The property names every object literal inherits from
    [Object.prototype]; a lookup of one of them in [overdueThresholds]
    finds a function (or, for [__proto__], the prototype itself). *)
Definition inheritedNames : list string :=
  ["constructor"; "hasOwnProperty"; "isPrototypeOf"; "propertyIsEnumerable";
   "toLocaleString"; "toString"; "valueOf"; "__proto__";
   "__defineGetter__"; "__defineSetter__"; "__lookupGetter__"; "__lookupSetter__"].

(** [overdueThresholds[this.priority] || 14] as the right operand of [>]:
    a number, or [None] for the inherited values, which are truthy and
    convert to NaN. *)
Definition overdueThreshold (p : string) : option Z :=
  if String.eqb p "Urgent" then Some 1
  else if String.eqb p "High" then Some 3
  else if String.eqb p "Medium" then Some 7
  else if String.eqb p "Low" then Some 14
  else if inValues inheritedNames p then None
  else Some 14.

(** [ageInDays > threshold]; a comparison with NaN is false. *)
Definition isOverdue (now : Z) (d : IssueDoc) : bool :=
  match overdueThreshold (priority d) with
  | Some days => days <? ageInDays now d
  | None => false
  end.

Definition newerFirst {A} (stamp : A -> Z) (x y : ObjectId * A) : Prop :=
  stamp y.2 <= stamp x.2.

#[global] Instance newerFirst_dec {A} (stamp : A -> Z) (x y : ObjectId * A) :
  Decision (newerFirst stamp x y) := Z_le_dec _ _.

(** [.sort({ createdAt: -1 })] *)
Definition sortNewestFirst {A} (stamp : A -> Z) (l : list (ObjectId * A)) : list (ObjectId * A) :=
  merge_sort (newerFirst stamp) l.

Definition populateAuthor (db : Db) (a : ObjectId) : AuthorField :=
  Populated ((fun u => {| u_id := a; u_name := user_name u; u_email := user_email u |})
               <$> users db !! a).

Definition authorFieldOf (populate : bool) (db : Db) (a : ObjectId) : AuthorField :=
  if populate then populateAuthor db a else Unpopulated a.

Definition commentView (populate : bool) (db : Db) (e : ObjectId * CommentDoc) : CommentView :=
  {| cv_id := e.1; cv_fields := e.2;
     cv_author := authorFieldOf populate db (comment_author e.2) |}.

Definition matchesAuthor (filter : option ObjectId) (e : ObjectId * IssueDoc) : bool :=
  match filter with
  | None => true
  | Some a => N.eqb (author e.2) a
  end.

Definition matchesStatus (filter : option string) (e : ObjectId * IssueDoc) : bool :=
  match filter with
  | None => true
  | Some s => String.eqb (status e.2) s
  end.

Definition ofIssue (i : ObjectId) (e : ObjectId * CommentDoc) : bool :=
  N.eqb (comment_issue e.2) i.

Section Model.

Variable schema : IssueSchema.

(** Defaults are applied to a loaded document whose path is missing. *)
Definition hydrate (d : IssueDoc) : IssueDoc :=
  {| title := title d;
     description := orDefault (description d) (defaultDescription schema);
     status := status d;
     priority := priority d;
     assignee := orDefault (assignee d) (defaultAssignee schema);
     author := author d;
     createdAt := createdAt d;
     updatedAt := updatedAt d |}.

Definition issueDocument (populate : bool) (db : Db) (e : ObjectId * IssueDoc) : IssueDocument :=
  {| _id := e.1; fields := hydrate e.2;
     authorField := authorFieldOf populate db (author e.2) |}.

(** [issue.toObject()] and [JSON.stringify(issue)]: the stored paths, and the
    virtuals when the schema serialises them. *)
Definition toObject (rq : Request) (d : IssueDocument) : IssueView :=
  {| v_id := _id d; v_fields := fields d; v_author := authorField d;
     v_commentCount := None;
     v_ageInDays := if hasVirtuals schema then Some (ageInDays (now rq) (fields d)) else None;
     v_isOverdue := if hasVirtuals schema then Some (isOverdue (now rq) (fields d)) else None |}.

(** [Issue.find(filter).populate('author', 'name email').sort({ createdAt: -1 })] *)
Definition Issue_find (filter : option ObjectId) : M (list IssueDocument) :=
  _ ← call (IssueFind filter);
  db ← getDb;
  mret (issueDocument true db
          <$> sortNewestFirst createdAt (List.filter (matchesAuthor filter) (map_to_list (issues db)))).

(** [Issue.countDocuments({ author, status })] *)
Definition Issue_countDocuments (a : ObjectId) (st : option string) : M nat :=
  _ ← call (IssueCountDocuments a st);
  db ← getDb;
  mret (List.length (List.filter (fun e => matchesAuthor (Some a) e && matchesStatus st e)
                       (map_to_list (issues db)))).

(** [Issue.findById(id)] on a string, with or without [populate]. *)
Definition Issue_findById (populate : bool) (id : string) : M (option IssueDocument) :=
  _ ← call (IssueFindById id);
  match castObjectId id with
  | None => throw (CastError "_id" id)
  | Some oid =>
      db ← getDb;
      mret ((fun d => issueDocument populate db (oid, d)) <$> issues db !! oid)
  end.

(** [Issue.findById(issue._id)] on an ObjectId. *)
Definition Issue_findByObjectId (populate : bool) (oid : ObjectId) : M (option IssueDocument) :=
  _ ← call (IssueFindByObjectId oid);
  db ← getDb;
  mret ((fun d => issueDocument populate db (oid, d)) <$> issues db !! oid).

(** The [pre('save')] hook of the newer schema. *)
Definition preSave (d : IssueDoc) : IssueDoc :=
  if hasPreSave schema then
    {| title := if Js.truthy (Some (title d)) then Js.trim (title d) else title d;
       description := description d;
       status := status d;
       priority := priority d;
       assignee := if Js.truthy (assignee d) then Js.trim <$> assignee d else assignee d;
       author := author d;
       createdAt := createdAt d;
       updatedAt := updatedAt d |}
  else d.

(** The values of the paths of a new document: setters, then defaults. *)
Definition newTitle (data : IssueData) : option string := Js.trim <$> d_title data.
Definition newDescription (data : IssueData) : option string :=
  orDefault (Js.trim <$> d_description data) (defaultDescription schema).
Definition newStatus (data : IssueData) : string := default "Open" (d_status data).
Definition newPriority (data : IssueData) : string := default "Low" (d_priority data).
Definition newAssignee (data : IssueData) : option string :=
  orDefault (Js.trim <$> d_assignee data) (defaultAssignee schema).

(** Document validation: every path is validated. *)
Definition createErrors (data : IssueData) : list string :=
  failures [validateTitle schema (newTitle data);
            validateDescription schema (newDescription data);
            validateStatus schema (Some (newStatus data));
            validatePriority schema (Some (newPriority data));
            validateAssignee schema (newAssignee data)].

(** [Issue.create(issueData)]: setters and defaults, validation of every
    path, the save hook, timestamps, insertion. Both schemas require the
    title, so a document without one never passes validation. *)
Definition Issue_create (rq : Request) (data : IssueData) : M IssueDocument :=
  _ ← call IssueCreate;
  match createErrors data, newTitle data with
  | [], Some t =>
      let doc := preSave {| title := t; description := newDescription data;
                            status := newStatus data; priority := newPriority data;
                            assignee := newAssignee data; author := d_author data;
                            createdAt := now rq; updatedAt := now rq |} in
      db ← getDb;
      match issues db !! newId rq with
      | Some _ => throw DuplicateKeyError
      | None =>
          _ ← modifyDb (setIssues (insert (newId rq) doc));
          mret {| _id := newId rq; fields := doc; authorField := Unpopulated (author doc) |}
      end
  | errs, _ => throw (ValidationError errs)
  end.

(** A validator of a path runs on an update only when the path is set. *)
Definition onUpdate (validator : option string -> option string) (v : option string) : option string :=
  match v with
  | None => None
  | Some _ => validator v
  end.

(** Update validation: the paths present in the body, after their setters.
    The messages are listed in the order of the schema. The code lists them
    in an order that follows the keys of the request body, which a body
    here does not record; no statement below depends on the order of two
    messages. *)
Definition updateErrors (body : IssueBody) : list string :=
  failures [onUpdate (validateTitle schema) (Js.trim <$> b_title body);
            onUpdate (validateDescription schema) (Js.trim <$> b_description body);
            onUpdate (validateStatus schema) (b_status body);
            onUpdate (validatePriority schema) (b_priority body);
            onUpdate (validateAssignee schema) (Js.trim <$> b_assignee body)].

(** The cast of the [author] of an update to the type of its path. *)
Definition castAuthor (v : option string) : Result (option ObjectId) :=
  match v with
  | None => Ok None
  | Some a =>
      match castObjectId a with
      | Some o => Ok (Some o)
      | None => Throw (CastError "author" a)
      end
  end.

(** The [$set] of an update: the paths present in the body replace the
    stored ones, and the timestamp plugin sets [updatedAt]. *)
Definition applyUpdate (rq : Request) (body : IssueBody) (au : option ObjectId)
    (doc : IssueDoc) : IssueDoc :=
  {| title := default (title doc) (Js.trim <$> b_title body);
     description := orDefault (Js.trim <$> b_description body) (description doc);
     status := default (status doc) (b_status body);
     priority := default (priority doc) (b_priority body);
     assignee := orDefault (Js.trim <$> b_assignee body) (assignee doc);
     author := default (author doc) au;
     createdAt := createdAt doc;
     updatedAt := now rq |}.

(** [Issue.findByIdAndUpdate(id, body, { new: true, runValidators: true })]:
    the id and the update are cast, the update is validated, and the
    document, if there is one, is modified and returned. *)
Definition Issue_findByIdAndUpdate (populate : bool) (rq : Request) (id : string) (body : IssueBody)
    : M (option IssueDocument) :=
  _ ← call (IssueFindByIdAndUpdate id);
  match castObjectId id with
  | None => throw (CastError "_id" id)
  | Some oid =>
      match castAuthor (b_author body) with
      | Throw e => throw e
      | Ok au =>
          match updateErrors body with
          | _ :: _ => throw (ValidationError (updateErrors body))
          | [] =>
              db ← getDb;
              match issues db !! oid with
              | None => mret None
              | Some doc =>
                  let doc' := applyUpdate rq body au doc in
                  _ ← modifyDb (setIssues (insert oid doc'));
                  db' ← getDb;
                  mret (Some (issueDocument populate db' (oid, doc')))
              end
          end
      end
  end.

(** [Issue.findByIdAndDelete(id)] *)
Definition Issue_findByIdAndDelete (id : string) : M (option IssueDocument) :=
  _ ← call (IssueFindByIdAndDelete id);
  match castObjectId id with
  | None => throw (CastError "_id" id)
  | Some oid =>
      db ← getDb;
      _ ← modifyDb (setIssues (delete oid));
      mret ((fun d => issueDocument false db (oid, d)) <$> issues db !! oid)
  end.

End Model.

Arguments createErrors : simpl never.
Arguments updateErrors : simpl never.
Arguments castAuthor : simpl never.
Arguments castObjectId : simpl never.
Arguments matchesObjectIdFormat : simpl never.
Arguments sortNewestFirst : simpl never.
Arguments Js.trim : simpl never.

(** ** The Comment model *)

(** [Comment.countDocuments({ issue: issue._id })] *)
Definition Comment_countDocuments (i : ObjectId) : M nat :=
  _ ← call (CommentCountDocuments i);
  db ← getDb;
  mret (List.length (List.filter (ofIssue i) (map_to_list (comments db)))).

(** [Comment.find({ issue: id }).populate('author', 'name email').sort({ createdAt: -1 })] *)
Definition Comment_find (id : string) : M (list CommentView) :=
  _ ← call (CommentFind id);
  match castObjectId id with
  | None => throw (CastError "issue" id)
  | Some oid =>
      db ← getDb;
      mret (commentView true db
              <$> sortNewestFirst comment_createdAt
                    (List.filter (ofIssue oid) (map_to_list (comments db))))
  end.

(** Modelled from the spec: the validation of [Comment.create], whose schema
    is absent from the sources. The content is required and must be
    non-empty after trimming; the stored content is the trimmed one. *)
Definition Comment_create (rq : Request) (c : option string) (a : ObjectId) (issue : string)
    : M CommentView :=
  _ ← call CommentCreate;
  match castObjectId issue, Js.trim <$> c with
  | Some oid, Some (String x r) =>
      let doc := {| content := String x r; comment_author := a; comment_issue := oid;
                    comment_createdAt := now rq |} in
      db ← getDb;
      match comments db !! newId rq with
      | Some _ => throw DuplicateKeyError
      | None =>
          _ ← modifyDb (setComments (insert (newId rq) doc));
          mret {| cv_id := newId rq; cv_fields := doc; cv_author := Unpopulated a |}
      end
  | None, _ => throw (ValidationError ["Cast to ObjectId failed for path `issue`"])
  | _, _ => throw (ValidationError ["Path `content` is required."])
  end.

(** [Comment.findById(comment._id).populate('author', 'name email')] *)
Definition Comment_findByObjectId (oid : ObjectId) : M (option CommentView) :=
  _ ← call (CommentFindByObjectId oid);
  db ← getDb;
  mret ((fun d => commentView true db (oid, d)) <$> comments db !! oid).

(** [Comment.deleteMany({ issue: id })] *)
Definition Comment_deleteMany (id : string) : M nat :=
  _ ← call (CommentDeleteMany id);
  match castObjectId id with
  | None => throw (CastError "issue" id)
  | Some oid =>
      db ← getDb;
      _ ← modifyDb (setComments (filter (fun e => comment_issue e.2 ≠ oid)));
      mret (List.length (List.filter (ofIssue oid) (map_to_list (comments db))))
  end.

(** *** Comparison with the Standard Library's binary64 *)

(** The operations of [Number] are compared with [SFdiv] and [SFmul] at
    precision 53 on the quotients [s / t] and the products [s / t * 100]. *)
Definition ofInteger (z : Z) : spec_float :=
  match z with
  | Zpos p => S754_finite false p 0
  | _ => S754_zero false
  end.

Definition toSpec (x : Number.double) : spec_float :=
  match Number.mant x with
  | Zpos p => S754_finite false p (Number.expo x)
  | _ => S754_zero false
  end.

Definition sameFloat (x y : spec_float) : bool :=
  match x, y with
  | S754_zero a, S754_zero b => Bool.eqb a b
  | S754_finite a m e, S754_finite b n f => Bool.eqb a b && Pos.eqb m n && Z.eqb e f
  | _, _ => false
  end.

Definition agreesAt (s t : Z) : bool :=
  sameFloat (SFdiv 53 1024 (ofInteger s) (ofInteger t)) (toSpec (Number.div s t))
  && sameFloat (SFmul 53 1024 (SFdiv 53 1024 (ofInteger s) (ofInteger t)) (ofInteger 100))
       (toSpec (Number.mul (Number.div s t) 100)).

(** The pairs [(s, t)] with [0 <= s <= t] and [1 <= t <= n]. *)
Definition pairsUpTo (n : nat) : list (Z * Z) :=
  t ← seq 1 n; s ← seq 0 (S t); [(Z.of_nat s, Z.of_nat t)].

(** ** Responses shared by the two route modules *)

Definition reply (code : Z) (msg : option string) (n : option nat) (d : Data) : Response :=
  {| res_status := code; res_success := true; res_message := Literal <$> msg;
     res_errors := None; res_error := None; res_count := n; res_data := d |}.

(** [data: issue] for a query result that may be [null]. *)
Definition issueOrNull (schema : IssueSchema) (rq : Request) (d : option IssueDocument) : Data :=
  match d with
  | Some issue => AnIssue (toObject schema rq issue)
  | None => NoData
  end.

Definition commentOrNull (c : option CommentView) : Data :=
  match c with
  | Some v => AComment v
  | None => NoData
  end.

(** ** [backend/routes/issueRoutes-final.js] *)

Module Final.

Definition schema : IssueSchema := IssueFinal.schema.

(** The last statement of every [catch] block. *)
Definition serverError (rq : Request) (msg : string) (error : Error) : Response :=
  {| res_status := 500; res_success := false; res_message := Some (Literal msg);
     res_errors := None;
     res_error := if development rq then Some (MessageOf error) else None;
     res_count := None; res_data := NoData |}.

(** The [catch] block of the handlers that write. *)
Definition validationOr (rq : Request) (msg : string) (error : Error) : Response :=
  match error with
  | ValidationError validationErrors =>
      {| res_status := 400; res_success := false;
         res_message := Some (Literal "Validation failed");
         res_errors := Some validationErrors; res_error := None;
         res_count := None; res_data := NoData |}
  | _ => serverError rq msg error
  end.

(** [{ ...issue.toObject(), commentCount, ageInDays: issue.ageInDays,
       isOverdue: issue.isOverdue }] *)
Definition withCommentCount (rq : Request) (issue : IssueDocument) (commentCount : nat) : IssueView :=
  {| v_id := _id issue; v_fields := fields issue; v_author := authorField issue;
     v_commentCount := Some commentCount;
     v_ageInDays := Some (ageInDays (now rq) (fields issue));
     v_isOverdue := Some (isOverdue (now rq) (fields issue)) |}.

Definition countComments (rq : Request) (issue : IssueDocument) : M IssueView :=
  commentCount ← Comment_countDocuments (_id issue);
  mret (withCommentCount rq issue commentCount).

(** [GET /api/issues] *)
Definition listAllIssues (rq : Request) : Db -> Response * Db :=
  tryCatch
    (issues ← Issue_find schema None;
     issuesWithComments ← mapM (countComments rq) issues;
     mret (reply 200 None (Some (List.length issuesWithComments)) (IssueList issuesWithComments)))
    (serverError rq "Failed to fetch issues").

(** [GET /api/issues/my-issues] *)
Definition listMyIssues (rq : Request) : Db -> Response * Db :=
  tryCatch
    (issues ← Issue_find schema (Some (user rq));
     issuesWithComments ← mapM (countComments rq) issues;
     mret (reply 200 None (Some (List.length issuesWithComments)) (IssueList issuesWithComments)))
    (serverError rq "Failed to fetch your issues").

(** [total > 0 ? ((resolved + closed) / total * 100).toFixed(1) : 0] *)
Definition completionRateOf (resolved closed total : nat) : JsValue :=
  if (0 <? total)%nat
  then JsString (Number.toFixed1
                   (Number.mul (Number.div (Z.of_nat (resolved + closed)) (Z.of_nat total)) 100))
  else JsNumber 0.

(** [GET /api/issues/my-stats] *)
Definition myStatistics (rq : Request) : Db -> Response * Db :=
  tryCatch
    (let userId := user rq in
     total ← Issue_countDocuments userId None;
     open ← Issue_countDocuments userId (Some "Open");
     inProgress ← Issue_countDocuments userId (Some "In Progress");
     resolved ← Issue_countDocuments userId (Some "Resolved");
     closed ← Issue_countDocuments userId (Some "Closed");
     let statistics :=
       {| total := total; open := open; inProgress := inProgress;
          resolved := resolved; closed := closed;
          solved := (resolved + closed)%nat;
          ongoing := (open + inProgress)%nat;
          completionRate := Some (completionRateOf resolved closed total) |} in
     mret (reply 200 None None (Statistics statistics)))
    (serverError rq "Failed to fetch statistics").

(** [GET /api/issues/:id] *)
Definition getIssue (rq : Request) (issueId : string) : Db -> Response * Db :=
  tryCatch
    (if negb (matchesObjectIdFormat issueId)
     then mret (failure 400 "Invalid issue ID format")
     else
       issue ← Issue_findById schema true issueId;
       match issue with
       | None => mret (failure 404 "Issue not found")
       | Some issue => mret (reply 200 None None (AnIssue (toObject schema rq issue)))
       end)
    (serverError rq "Failed to fetch issue").

(** [POST /api/issues] *)
Definition createIssue (rq : Request) (body : IssueBody) : Db -> Response * Db :=
  tryCatch
    (let issueData := withAuthor body (user rq) in
     issue ← Issue_create schema rq issueData;
     populatedIssue ← Issue_findByObjectId schema true (_id issue);
     mret (reply 201 (Some "Issue created successfully") None
             (issueOrNull schema rq populatedIssue)))
    (validationOr rq "Failed to create issue").

(** [PUT /api/issues/:id] *)
Definition updateIssue (rq : Request) (issueId : string) (body : IssueBody) : Db -> Response * Db :=
  tryCatch
    (if negb (matchesObjectIdFormat issueId)
     then mret (failure 400 "Invalid issue ID format")
     else
       existingIssue ← Issue_findById schema false issueId;
       match existingIssue with
       | None => mret (failure 404 "Issue not found")
       | Some _ =>
           updatedIssue ← Issue_findByIdAndUpdate schema true rq issueId body;
           mret (reply 200 (Some "Issue updated successfully") None
                   (issueOrNull schema rq updatedIssue))
       end)
    (validationOr rq "Failed to update issue").

(** [DELETE /api/issues/:id] *)
Definition deleteIssue (rq : Request) (issueId : string) : Db -> Response * Db :=
  tryCatch
    (if negb (matchesObjectIdFormat issueId)
     then mret (failure 400 "Invalid issue ID format")
     else
       issue ← Issue_findById schema false issueId;
       match issue with
       | None => mret (failure 404 "Issue not found")
       | Some _ =>
           _ ← Issue_findByIdAndDelete schema issueId;
           _ ← Comment_deleteMany issueId;
           mret (reply 200 (Some "Issue and associated comments deleted successfully")
                   None NoData)
       end)
    (serverError rq "Failed to delete issue").

(** [GET /api/issues/:id/comments] *)
Definition listComments (rq : Request) (issueId : string) : Db -> Response * Db :=
  tryCatch
    (if negb (matchesObjectIdFormat issueId)
     then mret (failure 400 "Invalid issue ID format")
     else
       issue ← Issue_findById schema false issueId;
       match issue with
       | None => mret (failure 404 "Issue not found")
       | Some _ =>
           comments ← Comment_find issueId;
           mret (reply 200 None (Some (List.length comments)) (CommentList comments))
       end)
    (serverError rq "Failed to fetch comments").

(** [POST /api/issues/:id/comments]; [content] is [req.body.content]. *)
Definition addComment (rq : Request) (issueId : string) (content : option string)
    : Db -> Response * Db :=
  tryCatch
    (if negb (matchesObjectIdFormat issueId)
     then mret (failure 400 "Invalid issue ID format")
     else if negb (Js.truthy content) || (Js.length (Js.trim (default EmptyString content)) =? 0)
     then mret (failure 400 "Comment content is required")
     else
       issue ← Issue_findById schema false issueId;
       match issue with
       | None => mret (failure 404 "Issue not found")
       | Some _ =>
           comment ← Comment_create rq (Js.trim <$> content) (user rq) issueId;
           populatedComment ← Comment_findByObjectId (cv_id comment);
           mret (reply 201 (Some "Comment added successfully") None
                   (commentOrNull populatedComment))
       end)
    (validationOr rq "Failed to add comment").

End Final.

(** ** [backend/routes/issueRoutes.js] *)

Module Legacy.

Definition schema : IssueSchema := IssueLegacy.schema.

Definition serverError : Response := failure 500 "Server error".

(** [res.status(400).json({ success: false, message: error.message })] *)
Definition badRequest (error : Error) : Response :=
  {| res_status := 400; res_success := false; res_message := Some (MessageOf error);
     res_errors := None; res_error := None; res_count := None; res_data := NoData |}.

(** [{ ...issue.toObject(), commentCount }] *)
Definition withCommentCount (rq : Request) (issue : IssueDocument) (commentCount : nat) : IssueView :=
  {| v_id := v_id (toObject schema rq issue);
     v_fields := v_fields (toObject schema rq issue);
     v_author := v_author (toObject schema rq issue);
     v_commentCount := Some commentCount;
     v_ageInDays := v_ageInDays (toObject schema rq issue);
     v_isOverdue := v_isOverdue (toObject schema rq issue) |}.

Definition countComments (rq : Request) (issue : IssueDocument) : M IssueView :=
  commentCount ← Comment_countDocuments (_id issue);
  mret (withCommentCount rq issue commentCount).

(** [GET /api/issues] *)
Definition listAllIssues (rq : Request) : Db -> Response * Db :=
  tryCatch
    (issues ← Issue_find schema None;
     issuesWithComments ← mapM (countComments rq) issues;
     mret (reply 200 None None (IssueList issuesWithComments)))
    (fun _ => serverError).

(** [GET /api/issues/my-issues] *)
Definition listMyIssues (rq : Request) : Db -> Response * Db :=
  tryCatch
    (issues ← Issue_find schema (Some (user rq));
     issuesWithComments ← mapM (countComments rq) issues;
     mret (reply 200 None None (IssueList issuesWithComments)))
    (fun _ => serverError).

(** [GET /api/issues/my-stats] *)
Definition myStatistics (rq : Request) : Db -> Response * Db :=
  tryCatch
    (total ← Issue_countDocuments (user rq) None;
     open ← Issue_countDocuments (user rq) (Some "Open");
     inProgress ← Issue_countDocuments (user rq) (Some "In Progress");
     resolved ← Issue_countDocuments (user rq) (Some "Resolved");
     closed ← Issue_countDocuments (user rq) (Some "Closed");
     mret (reply 200 None None
             (Statistics {| total := total; open := open; inProgress := inProgress;
                            resolved := resolved; closed := closed;
                            solved := (resolved + closed)%nat;
                            ongoing := (open + inProgress)%nat;
                            completionRate := None |})))
    (fun _ => serverError).

(** [GET /api/issues/:id] *)
Definition getIssue (rq : Request) (id : string) : Db -> Response * Db :=
  tryCatch
    (issue ← Issue_findById schema true id;
     match issue with
     | None => mret (failure 404 "Issue not found")
     | Some issue => mret (reply 200 None None (AnIssue (toObject schema rq issue)))
     end)
    (fun _ => serverError).

(** [POST /api/issues] *)
Definition createIssue (rq : Request) (body : IssueBody) : Db -> Response * Db :=
  tryCatch
    (let issueData := withAuthor body (user rq) in
     issue ← Issue_create schema rq issueData;
     populatedIssue ← Issue_findByObjectId schema true (_id issue);
     mret (reply 201 None None (issueOrNull schema rq populatedIssue)))
    badRequest.

(** [PUT /api/issues/:id] *)
Definition updateIssue (rq : Request) (id : string) (body : IssueBody) : Db -> Response * Db :=
  tryCatch
    (issue ← Issue_findByIdAndUpdate schema false rq id body;
     match issue with
     | None => mret (failure 404 "Issue not found")
     | Some issue => mret (reply 200 None None (AnIssue (toObject schema rq issue)))
     end)
    badRequest.

(** [DELETE /api/issues/:id] *)
Definition deleteIssue (rq : Request) (id : string) : Db -> Response * Db :=
  tryCatch
    (issue ← Issue_findById schema false id;
     match issue with
     | None => mret (failure 404 "Issue not found")
     | Some _ =>
         _ ← Issue_findByIdAndDelete schema id;
         mret (reply 200 (Some "Issue deleted") None NoData)
     end)
    (fun _ => serverError).

(** [GET /api/issues/:id/comments] *)
Definition listComments (rq : Request) (id : string) : Db -> Response * Db :=
  tryCatch
    (comments ← Comment_find id;
     mret (reply 200 None None (CommentList comments)))
    (fun _ => serverError).

(** [POST /api/issues/:id/comments] *)
Definition addComment (rq : Request) (id : string) (content : option string)
    : Db -> Response * Db :=
  tryCatch
    (issue ← Issue_findById schema false id;
     match issue with
     | None => mret (failure 404 "Issue not found")
     | Some _ =>
         comment ← Comment_create rq content (user rq) id;
         populatedComment ← Comment_findByObjectId (cv_id comment);
         mret (reply 201 None None (commentOrNull populatedComment))
     end)
    badRequest.

End Legacy.

(** ** Vocabulary of the statements *)

(** The two failure responses of the id-taking handlers. *)
Definition invalidId : Response := failure 400 "Invalid issue ID format".
Definition notFound : Response := failure 404 "Issue not found".

(** [!content || content.trim().length === 0] *)
Definition blank (content : option string) : bool :=
  negb (Js.truthy content) || (Js.length (Js.trim (default EmptyString content)) =? 0).

(** The model calls a handler made, given the database before and after. *)
Definition callsMade (before after : Db) (l : list Call) : Prop :=
  calls after = calls before ++ l.

(** The database after a successful [DELETE /api/issues/:id]. *)
Definition afterDelete (issueId : string) (oid : ObjectId) (db : Db) : Db :=
  {| issues := delete oid (issues db);
     comments := filter (fun e => comment_issue e.2 <> oid) (comments db);
     users := users db;
     calls := calls db ++ [IssueFindById issueId; IssueFindByIdAndDelete issueId;
                           CommentDeleteMany issueId] |}.

(** The comment [POST /api/issues/:id/comments] stores. *)
Definition newComment (rq : Request) (oid : ObjectId) (content : option string) : CommentDoc :=
  {| content := Js.trim (default EmptyString content);
     comment_author := user rq;
     comment_issue := oid;
     comment_createdAt := now rq |}.

Definition startsClean (s : string) : Prop :=
  match s with
  | EmptyString => True
  | String c _ => Js.isWhiteSpace c = false
  end.

(** ** Vocabulary of the list endpoints *)

Definition addCalls (l : list Call) (db : Db) : Db :=
  {| issues := issues db; comments := comments db; users := users db;
     calls := calls db ++ l |}.

(** The number of stored comments of an issue. *)
Definition commentCount (db : Db) (i : ObjectId) : nat :=
  List.length (List.filter (ofIssue i) (map_to_list (comments db))).

(** The stored issues a list endpoint selects, before sorting. *)
Definition selected (filter : option ObjectId) (db : Db) : list (ObjectId * IssueDoc) :=
  List.filter (matchesAuthor filter) (map_to_list (issues db)).

(** The [data] of the two issue lists of the final routes. *)
Definition listedIssues (rq : Request) (filter : option ObjectId) (db : Db) : list IssueView :=
  (fun e => Final.withCommentCount rq (issueDocument Final.schema true db e) (commentCount db e.1))
    <$> sortNewestFirst createdAt (selected filter db).

(** The [data] of the comment list. *)
Definition listedComments (oid : ObjectId) (db : Db) : list CommentView :=
  commentView true db
    <$> sortNewestFirst comment_createdAt (List.filter (ofIssue oid) (map_to_list (comments db))).


(** The issues of a list that carry a status. *)
Definition withStatus (s : string) (l : list (ObjectId * IssueDoc)) : list (ObjectId * IssueDoc) :=
  List.filter (matchesStatus (Some s)) l.

(** ** The field constraints, in the words of the data model *)

(** [title]: 3 to 200 characters after trimming. *)
Definition titleOk (t : string) : bool :=
  (3 <=? Js.length (Js.trim t)) && (Js.length (Js.trim t) <=? 200).
(** [description]: at most 2000 characters after trimming. *)
Definition descriptionOk (d : string) : bool := Js.length (Js.trim d) <=? 2000.
(** [status] and [priority]: one of the enumerated values. *)
Definition statusOk (s : string) : bool := inValues statusValues s.
Definition priorityOk (p : string) : bool := inValues priorityValues p.
(** [assignee]: at most 100 characters after trimming. *)
Definition assigneeOk (a : string) : bool := Js.length (Js.trim a) <=? 100.

(** A constraint holds of a field that is absent. *)
Definition ifPresent (ok : string -> bool) (v : option string) : bool :=
  match v with
  | None => true
  | Some x => ok x
  end.

(** Every field present in a patch satisfies its constraint. *)
Definition patchOk (b : IssueBody) : bool :=
  ifPresent titleOk (b_title b) && ifPresent descriptionOk (b_description b)
  && ifPresent statusOk (b_status b) && ifPresent priorityOk (b_priority b)
  && ifPresent assigneeOk (b_assignee b).

(** A draft has a title and every field present in it satisfies its
    constraint. *)
Definition draftOk (b : IssueBody) : bool :=
  bool_decide (is_Some (b_title b)) && patchOk b.

(** The document [POST /api/issues] stores for a draft. *)
Definition createdDoc (rq : Request) (b : IssueBody) : IssueDoc :=
  {| title := Js.trim (default EmptyString (b_title b));
     description := Some (Js.trim (default EmptyString (b_description b)));
     status := default "Open" (b_status b);
     priority := default "Low" (b_priority b);
     assignee := Some (Js.trim (default EmptyString (b_assignee b)));
     author := user rq;
     createdAt := now rq;
     updatedAt := now rq |}.

(** The answer of the handlers that write to a failed validation. *)
Definition validationFailed (errs : list string) : Response :=
  {| res_status := 400; res_success := false;
     res_message := Some (Literal "Validation failed");
     res_errors := Some errs; res_error := None;
     res_count := None; res_data := NoData |}.

(** ** Agreement of the two route modules *)

(** A serialised issue of the older routes agrees with one of the newer
    routes: the same id, author and comment count, and the same stored
    fields up to the defaults of the newer schema. The newer one also
    carries [ageInDays] and [isOverdue]. *)
Definition issueAgrees (l f : IssueView) : Prop :=
  v_id l = v_id f
  /\ v_fields f = hydrate Final.schema (v_fields l)
  /\ v_author l = v_author f
  /\ v_commentCount l = v_commentCount f.

(** The same counts; the newer statistics also carry [completionRate]. *)
Definition statsAgree (l f : Stats) : Prop :=
  total l = total f /\ open l = open f /\ inProgress l = inProgress f
  /\ resolved l = resolved f /\ closed l = closed f
  /\ solved l = solved f /\ ongoing l = ongoing f.

Definition dataAgrees (l f : Data) : Prop :=
  match l, f with
  | NoData, NoData => True
  | AnIssue a, AnIssue b => issueAgrees a b
  | IssueList a, IssueList b => Forall2 issueAgrees a b
  | Statistics a, Statistics b => statsAgree a b
  | AComment a, AComment b => a = b
  | CommentList a, CommentList b => a = b
  | _, _ => False
  end.

(** The same status and outcome and agreeing data; the newer response may
    also carry [count] and a message. *)
Definition responsesAgree (l f : Response) : Prop :=
  res_status l = res_status f
  /\ res_success l = res_success f
  /\ dataAgrees (res_data l) (res_data f).

(** ** The invariant behind the statistics *)

(** Every stored issue has one of the four statuses. *)
Definition statusesEnumerated (db : Db) : Prop :=
  forall i d, issues db !! i = Some d -> In (status d) statusValues.

(** ** Sample data *)

Module Sample.

Definition alice : ObjectId := 1%N.
Definition bob : ObjectId := 2%N.

Definition bugX : string := "507f1f77bcf86cd799439011".
Definition bugY : string := "507f1f77bcf86cd799439012".
Definition unused : string := "507f1f77bcf86cd7994390aa".
Definition upperCase : string := "507F1F77BCF86CD799439011".

Definition oid (s : string) : ObjectId := hexToN 0 s.

Definition issueX : IssueDoc :=
  {| title := "Bug X"; description := Some EmptyString; status := "Open";
     priority := "Low"; assignee := Some EmptyString; author := alice;
     createdAt := 1000; updatedAt := 1000 |}.

Definition issueY : IssueDoc :=
  {| title := "Bug Y"; description := Some "crash"; status := "Closed";
     priority := "High"; assignee := Some "bob"; author := alice;
     createdAt := 2000; updatedAt := 2500 |}.

Definition commentOnX : CommentDoc :=
  {| content := "seen"; comment_author := bob; comment_issue := oid bugX;
     comment_createdAt := 1500 |}.

Definition db : Db :=
  {| issues := <[oid bugX := issueX]> (<[oid bugY := issueY]> ∅);
     comments := <[77%N := commentOnX]> ∅;
     users := <[alice := {| user_name := "Alice"; user_email := "alice@example.com" |}]> ∅;
     calls := [] |}.

Definition request : Request :=
  {| user := alice; now := 90000000; newId := oid unused; development := false |}.

Definition emptyBody : IssueBody :=
  {| b_title := None; b_description := None; b_status := None;
     b_priority := None; b_assignee := None; b_author := None |}.

(** A draft whose title carries surrounding blanks and whose author names
    another user. *)
Definition paddedDraft : IssueBody :=
  {| b_title := Some " Bug X "; b_description := None; b_status := None;
     b_priority := Some "Urgent"; b_assignee := None;
     b_author := Some "000000000000000000000002" |}.

(** A description of 2001 characters, the last one a blank. *)
Definition longDescription : string := Js.repeat "a" 2000 +:+ " ".

Definition longDraft : IssueBody :=
  {| b_title := Some "Bug"; b_description := Some longDescription; b_status := None;
     b_priority := None; b_assignee := None; b_author := None |}.

(** A patch that only names another author. *)
Definition authorPatch : IssueBody :=
  {| b_title := None; b_description := None; b_status := None;
     b_priority := None; b_assignee := None;
     b_author := Some "000000000000000000000002" |}.

Definition shortTitlePatch : IssueBody :=
  {| b_title := Some " ab "; b_description := None; b_status := None;
     b_priority := None; b_assignee := None; b_author := None |}.

Definition statusPatch : IssueBody :=
  {| b_title := None; b_description := None; b_status := Some "Resolved";
     b_priority := None; b_assignee := None; b_author := None |}.

(** A store whose collections enumerate the older document first: "Bug Y"
    was created before "Bug X", and "Bug X" has a second, earlier comment. *)
Definition olderIssueY : IssueDoc :=
  {| title := "Bug Y"; description := Some "crash"; status := "Closed";
     priority := "High"; assignee := Some "bob"; author := alice;
     createdAt := 500; updatedAt := 2500 |}.

Definition earlierOnX : CommentDoc :=
  {| content := "new"; comment_author := alice; comment_issue := oid bugX;
     comment_createdAt := 1200 |}.

Definition thread : Db :=
  {| issues := <[oid bugX := issueX]> (<[oid bugY := olderIssueY]> ∅);
     comments := <[77%N := commentOnX]> (<[78%N := earlierOnX]> ∅);
     users := users db;
     calls := [] |}.

End Sample.

(** * The rest of the code *)

(** ** Statics of [models/Issue-final.js] *)

(** [findByStatus(status)] and [findByPriority(priority)]:
    [this.find({ status }).populate('author', 'name email')], a query with no
    sort; the order of its result is the collection's. *)
Definition findByStatus (db : Db) (st : string) : list IssueDocument :=
  issueDocument Final.schema true db
    <$> List.filter (fun e => String.eqb (status e.2) st) (map_to_list (issues db)).

Definition findByPriority (db : Db) (p : string) : list IssueDocument :=
  issueDocument Final.schema true db
    <$> List.filter (fun e => String.eqb (priority e.2) p) (map_to_list (issues db)).

(** The document of the [$group] stage of [getStatistics]. *)
Record StatisticsGroup := {
  g_total : nat;
  g_open : nat;
  g_inProgress : nat;
  g_resolved : nat;
  g_closed : nat;
  g_urgent : nat;
  g_high : nat;
  g_medium : nat;
  g_low : nat
}.

(** [{ $sum: { $cond: [{ $eq: ["$field", value] }, 1, 0] } }] *)
Definition sumCond (field : IssueDoc -> string) (value : string)
    (l : list (ObjectId * IssueDoc)) : nat :=
  foldr (fun e acc => ((if String.eqb (field e.2) value then 1 else 0) + acc)%nat) 0%nat l.

(** [getStatistics()]: one group with [_id: null] over the whole
    collection; a [$group] over no document yields no group. *)
Definition getStatistics (db : Db) : list StatisticsGroup :=
  match map_to_list (issues db) with
  | [] => []
  | l =>
      [{| g_total := foldr (fun _ acc => (1 + acc)%nat) 0%nat l;
          g_open := sumCond status "Open" l;
          g_inProgress := sumCond status "In Progress" l;
          g_resolved := sumCond status "Resolved" l;
          g_closed := sumCond status "Closed" l;
          g_urgent := sumCond priority "Urgent" l;
          g_high := sumCond priority "High" l;
          g_medium := sumCond priority "Medium" l;
          g_low := sumCond priority "Low" l |}]
  end.

(** ** The route table *)

(** Both route modules declare the same routes in the same order; Express
    tries them in that order. A path is the list of its segments below the
    mount point [/api/issues], each segment already decoded (Express
    decodes the segment a parameter is bound to); literal segments are
    compared without regard to the case of ASCII letters (the router is not
    case sensitive). *)
Module Router.

Inductive Method := GET | POST | PUT | DELETE | PATCH.

Inductive Segment :=
| Literally (s : string)
| Param.

Inductive Handler :=
| ListAll | ListMine | MyStats | GetOne | Create | Update | Remove
| ListComments | AddComment.

Definition routes : list (Method * list Segment * Handler) :=
  [ (GET, [], ListAll);
    (GET, [Literally "my-issues"], ListMine);
    (GET, [Literally "my-stats"], MyStats);
    (GET, [Param], GetOne);
    (POST, [], Create);
    (PUT, [Param], Update);
    (DELETE, [Param], Remove);
    (GET, [Param; Literally "comments"], ListComments);
    (POST, [Param; Literally "comments"], AddComment) ].

Definition sameMethod (a b : Method) : bool :=
  match a, b with
  | GET, GET | POST, POST | PUT, PUT | DELETE, DELETE | PATCH, PATCH => true
  | _, _ => false
  end.

Definition lowerAscii (c : ascii) : ascii :=
  let n := nat_of_ascii c in
  if ((65 <=? n) && (n <=? 90))%nat then ascii_of_nat (n + 32) else c.

Fixpoint lowerCase (s : string) : string :=
  match s with
  | EmptyString => EmptyString
  | String c r => String (lowerAscii c) (lowerCase r)
  end.

Definition sameLiteral (a b : string) : bool := String.eqb (lowerCase a) (lowerCase b).

(** The parameters a path binds when it matches a pattern. *)
Fixpoint matchPath (pattern : list Segment) (path : list string) : option (list string) :=
  match pattern, path with
  | [], [] => Some []
  | Literally l :: pattern', s :: path' =>
      if sameLiteral l s then matchPath pattern' path' else None
  | Param :: pattern', s :: path' => cons s <$> matchPath pattern' path'
  | _, _ => None
  end.

(** The first route that matches, with its parameters. *)
Fixpoint dispatchIn (table : list (Method * list Segment * Handler))
    (m : Method) (path : list string) : option (Handler * list string) :=
  match table with
  | [] => None
  | (m', pattern, h) :: rest =>
      match (if sameMethod m m' then matchPath pattern path else None) with
      | Some params => Some (h, params)
      | None => dispatchIn rest m path
      end
  end.

Definition dispatch : Method -> list string -> option (Handler * list string) :=
  dispatchIn routes.

(** The handler of [issueRoutes-final.js] a request reaches; [None] when no
    route of the module matches and the request falls through to the rest of
    the application. *)
Definition handle (rq : Request) (m : Method) (path : list string)
    (body : IssueBody) (text : option string) : option (Db -> Response * Db) :=
  match dispatch m path with
  | Some (ListAll, _) => Some (Final.listAllIssues rq)
  | Some (ListMine, _) => Some (Final.listMyIssues rq)
  | Some (MyStats, _) => Some (Final.myStatistics rq)
  | Some (GetOne, [id]) => Some (Final.getIssue rq id)
  | Some (Create, _) => Some (Final.createIssue rq body)
  | Some (Update, [id]) => Some (Final.updateIssue rq id body)
  | Some (Remove, [id]) => Some (Final.deleteIssue rq id)
  | Some (ListComments, [id]) => Some (Final.listComments rq id)
  | Some (AddComment, [id]) => Some (Final.addComment rq id text)
  | _ => None
  end.

End Router.

(** ** Vocabulary of the further statements *)

(** The three collections, without the call log. *)
Definition sameData (a b : Db) : Prop :=
  issues a = issues b /\ comments a = comments b /\ users a = users b.

(** Every comment belongs to a stored issue. *)
Definition noOrphans (db : Db) : Prop :=
  forall cid c, comments db !! cid = Some c -> is_Some (issues db !! comment_issue c).

(** A stored issue within the bounds of the newer schema. *)
Definition withinBounds (d : IssueDoc) : Prop :=
  3 <= Js.length (title d) <= 200
  /\ Js.trim (title d) = title d
  /\ (forall x, description d = Some x -> Js.length x <= 2000)
  /\ In (status d) statusValues
  /\ In (priority d) priorityValues
  /\ (forall x, assignee d = Some x -> Js.length x <= 100).

Definition allWithinBounds (db : Db) : Prop :=
  forall i d, issues db !! i = Some d -> withinBounds d.

(** The shape of an answer: a success carries status 200 or 201 and no
    error detail; a failure carries status 400, 404 or 500, and an error
    detail only with status 500 in development mode. *)
Definition wellShaped (rq : Request) (r : Response) : Prop :=
  (res_success r = true
   /\ (res_status r = 200 \/ res_status r = 201)
   /\ res_error r = None /\ res_errors r = None)
  \/ (res_success r = false
      /\ (res_status r = 400 \/ res_status r = 404 \/ res_status r = 500)
      /\ res_data r = NoData
      /\ (res_error r <> None -> res_status r = 500 /\ development rq = true)).

(** * Properties *)

Ltac run :=
  unfold tryCatch, mbind, M_bind, mret, M_ret, call, modifyDb, getDb, throw; simpl.

Lemma castObjectId_matches (id : string) :
  matchesObjectIdFormat id = true -> castObjectId id = Some (hexToN 0 id).
Proof. intros H. unfold castObjectId. now rewrite H. Qed.

Lemma castObjectId_Some (id : string) (oid : ObjectId) :
  castObjectId id = Some oid -> matchesObjectIdFormat id = true.
Proof. unfold castObjectId. destruct (matchesObjectIdFormat id); [reflexivity | discriminate]. Qed.

Lemma castObjectId_None (id : string) :
  matchesObjectIdFormat id = false -> castObjectId id = None.
Proof. intros H. unfold castObjectId. now rewrite H. Qed.

Section FormatCheck.

Variables (rq : Request) (db : Db) (issueId : string).
Hypothesis malformed : matchesObjectIdFormat issueId = false.

Lemma getIssue_malformed :
  Final.getIssue rq issueId db = (failure 400 "Invalid issue ID format", db).
Proof. unfold Final.getIssue. rewrite malformed. reflexivity. Qed.

Lemma updateIssue_malformed (body : IssueBody) :
  Final.updateIssue rq issueId body db = (failure 400 "Invalid issue ID format", db).
Proof. unfold Final.updateIssue. rewrite malformed. reflexivity. Qed.

Lemma deleteIssue_malformed :
  Final.deleteIssue rq issueId db = (failure 400 "Invalid issue ID format", db).
Proof. unfold Final.deleteIssue. rewrite malformed. reflexivity. Qed.

Lemma listComments_malformed :
  Final.listComments rq issueId db = (failure 400 "Invalid issue ID format", db).
Proof. unfold Final.listComments. rewrite malformed. reflexivity. Qed.

Lemma addComment_malformed (content : option string) :
  Final.addComment rq issueId content db = (failure 400 "Invalid issue ID format", db).
Proof. unfold Final.addComment. rewrite malformed. reflexivity. Qed.

End FormatCheck.

Section Absent.

Variables (rq : Request) (db : Db) (issueId : string) (oid : ObjectId).
Hypothesis wellFormed : castObjectId issueId = Some oid.
Hypothesis absent : issues db !! oid = None.

Lemma findById_absent (populate : bool) :
  Issue_findById Final.schema populate issueId db
  = (Ok None, addCall (IssueFindById issueId) db).
Proof.
  unfold Issue_findById. run. rewrite wellFormed. run. now rewrite absent.
Qed.

Lemma getIssue_absent :
  Final.getIssue rq issueId db
  = (failure 404 "Issue not found", addCall (IssueFindById issueId) db).
Proof.
  unfold Final.getIssue. rewrite (castObjectId_Some _ _ wellFormed). simpl.
  unfold tryCatch, mbind, M_bind. now rewrite findById_absent.
Qed.

Lemma updateIssue_absent (body : IssueBody) :
  Final.updateIssue rq issueId body db
  = (failure 404 "Issue not found", addCall (IssueFindById issueId) db).
Proof.
  unfold Final.updateIssue. rewrite (castObjectId_Some _ _ wellFormed). simpl.
  unfold tryCatch, mbind, M_bind. now rewrite findById_absent.
Qed.

Lemma deleteIssue_absent :
  Final.deleteIssue rq issueId db
  = (failure 404 "Issue not found", addCall (IssueFindById issueId) db).
Proof.
  unfold Final.deleteIssue. rewrite (castObjectId_Some _ _ wellFormed). simpl.
  unfold tryCatch, mbind, M_bind. now rewrite findById_absent.
Qed.

Lemma listComments_absent :
  Final.listComments rq issueId db
  = (failure 404 "Issue not found", addCall (IssueFindById issueId) db).
Proof.
  unfold Final.listComments. rewrite (castObjectId_Some _ _ wellFormed). simpl.
  unfold tryCatch, mbind, M_bind. now rewrite findById_absent.
Qed.

End Absent.


(** Case analysis on the innermost scrutinee of the goal. *)
Ltac split_case :=
  match goal with
  | |- context [match ?x with _ => _ end] =>
      lazymatch x with
      | context [match _ with _ => _ end] => fail
      | _ => destruct x eqn:?; simpl in *
      end
  end.
Ltac split_cases := repeat split_case.

Ltac differ :=
  unfold invalidId, notFound, failure, reply, Final.validationOr, Final.serverError; simpl;
  repeat match goal with
    | |- context [match ?e with _ => _ end] => destruct e; simpl
    end;
  discriminate.

Ltac unfold_model :=
  unfold Issue_findById, Issue_findByObjectId, Issue_findByIdAndUpdate, Issue_findByIdAndDelete,
    Issue_create, Issue_find, Issue_countDocuments,
    Comment_find, Comment_create, Comment_findByObjectId, Comment_deleteMany,
    Comment_countDocuments.

Section WellFormed.

Variables (rq : Request) (db : Db) (issueId : string).
Hypothesis wellFormed : matchesObjectIdFormat issueId = true.

Lemma getIssue_looks_up :
  (Final.getIssue rq issueId db).1 <> invalidId
  /\ callsMade db (Final.getIssue rq issueId db).2 [IssueFindById issueId].
Proof.
  unfold Final.getIssue, callsMade. rewrite wellFormed. simpl.
  unfold Issue_findById. rewrite (castObjectId_matches _ wellFormed). run.
  destruct (issues db !! hexToN 0 issueId); simpl; (split; [differ | reflexivity]).
Qed.

Lemma updateIssue_looks_up (body : IssueBody) :
  (Final.updateIssue rq issueId body db).1 <> invalidId
  /\ exists rest, callsMade db (Final.updateIssue rq issueId body db).2 (IssueFindById issueId :: rest).
Proof.
  unfold Final.updateIssue, callsMade. rewrite wellFormed. simpl.
  unfold_model. rewrite (castObjectId_matches _ wellFormed). run.
  split_cases; (split; [differ | eexists; rewrite <- ?app_assoc; reflexivity]).
Qed.

Lemma deleteIssue_looks_up :
  (Final.deleteIssue rq issueId db).1 <> invalidId
  /\ exists rest, callsMade db (Final.deleteIssue rq issueId db).2 (IssueFindById issueId :: rest).
Proof.
  unfold Final.deleteIssue, callsMade. rewrite wellFormed. simpl.
  unfold_model. rewrite (castObjectId_matches _ wellFormed). run.
  split_cases; (split; [differ | eexists; rewrite <- ?app_assoc; reflexivity]).
Qed.

Lemma listComments_looks_up :
  (Final.listComments rq issueId db).1 <> invalidId
  /\ exists rest, callsMade db (Final.listComments rq issueId db).2 (IssueFindById issueId :: rest).
Proof.
  unfold Final.listComments, callsMade. rewrite wellFormed. simpl.
  unfold_model. rewrite (castObjectId_matches _ wellFormed). run.
  split_cases; (split; [differ | eexists; rewrite <- ?app_assoc; reflexivity]).
Qed.

Lemma addComment_looks_up (content : option string) :
  (Final.addComment rq issueId content db).1 <> invalidId
  /\ (blank content = false ->
      exists rest, callsMade db (Final.addComment rq issueId content db).2 (IssueFindById issueId :: rest)).
Proof.
  unfold Final.addComment, callsMade. rewrite wellFormed. simpl.
  fold (blank content). destruct (blank content) eqn:Hb.
  - split; [differ | discriminate].
  - unfold_model. rewrite (castObjectId_matches _ wellFormed). run.
    split_cases; (split; [differ | intros _; eexists; rewrite <- ?app_assoc; reflexivity]).
Qed.

End WellFormed.

Lemma allChars_impl (p q : ascii -> bool) (s : string) :
  (forall c, p c = true -> q c = true) -> allChars p s = true -> allChars q s = true.
Proof.
  intros Hpq. induction s as [|c r IH]; simpl; [reflexivity|].
  intros [Hc Hr]%andb_prop. rewrite (Hpq _ Hc), (IH Hr). reflexivity.
Qed.

Lemma lowerHex24_matches (s : string) :
  isLowerHex24 s = true -> matchesObjectIdFormat s = true.
Proof.
  unfold isLowerHex24, matchesObjectIdFormat.
  intros [Hl Hc]%andb_prop. rewrite Hl. simpl.
  apply (allChars_impl (fun c => isDigit c || isLowerHexLetter c)); [|exact Hc].
  intros c Hlow. unfold isHexDigit. now rewrite Hlow.
Qed.

(** C6. For getIssue, updateIssue and deleteIssue, an id that does not have
    the ObjectId format (such as "abc") is answered with the 400 response
    "Invalid issue ID format", and an id of 24 hexadecimal digits that
    matches no stored issue is answered with the 404 response "Issue not
    found"; the two responses differ in status and message. *)
Theorem malformed_and_absent_ids_are_told_apart
    (rq : Request) (db : Db) (issueId : string) (body : IssueBody) :
  (matchesObjectIdFormat issueId = false ->
     (Final.getIssue rq issueId db).1 = invalidId
     /\ (Final.updateIssue rq issueId body db).1 = invalidId
     /\ (Final.deleteIssue rq issueId db).1 = invalidId)
  /\ (forall oid, castObjectId issueId = Some oid -> issues db !! oid = None ->
     (Final.getIssue rq issueId db).1 = notFound
     /\ (Final.updateIssue rq issueId body db).1 = notFound
     /\ (Final.deleteIssue rq issueId db).1 = notFound)
  /\ res_status invalidId = 400 /\ res_status notFound = 404
  /\ res_message invalidId <> res_message notFound.
Proof.
  split; [|split].
  - intros Hbad.
    rewrite getIssue_malformed, updateIssue_malformed, deleteIssue_malformed by exact Hbad.
    auto.
  - intros oid Hcast Habsent.
    rewrite (getIssue_absent rq db issueId oid Hcast Habsent).
    rewrite (updateIssue_absent rq db issueId oid Hcast Habsent).
    rewrite (deleteIssue_absent rq db issueId oid Hcast Habsent).
    auto.
  - repeat split. discriminate.
Qed.

Lemma malformed_and_absent_ids_witness :
  (Final.getIssue Sample.request "abc" Sample.db).1 = invalidId
  /\ (Final.deleteIssue Sample.request Sample.unused Sample.db).1 = notFound.
Proof.
  split.
  - apply (proj1 (malformed_and_absent_ids_are_told_apart
                    Sample.request Sample.db "abc" Sample.emptyBody)).
    reflexivity.
  - apply (proj1 (proj2 (malformed_and_absent_ids_are_told_apart
                    Sample.request Sample.db Sample.unused Sample.emptyBody))
             (Sample.oid Sample.unused)).
    + reflexivity.
    + vm_compute. reflexivity.
Defined.

(** C4, as stated, fails: an id written with uppercase hexadecimal digits is
    not a lowercase hexadecimal string, yet it passes the format check and
    is handed to [Issue.findById]. *)
Lemma uppercase_id_is_looked_up :
  isLowerHex24 Sample.upperCase = false
  /\ res_status (Final.getIssue Sample.request Sample.upperCase Sample.db).1 = 200
  /\ calls (Final.getIssue Sample.request Sample.upperCase Sample.db).2
     = [IssueFindById Sample.upperCase].
Proof. vm_compute. repeat split. Qed.

(** C4, amended. For getIssue, updateIssue, deleteIssue, listComments and
    addComment: an id that is not a string of exactly 24 hexadecimal digits
    (the letters in either case) is answered with the 400 format error, no
    model call is made and the database is unchanged; an id of that shape is
    never answered with the format error and is the argument of the first
    model call, [Issue.findById] (for addComment when the content is not
    blank; blank content is rejected before the lookup). Every 24-character
    lowercase hexadecimal string has that shape. *)
Theorem id_format_gate
    (rq : Request) (db : Db) (issueId : string) (body : IssueBody) (content : option string) :
  (matchesObjectIdFormat issueId = false ->
     Final.getIssue rq issueId db = (invalidId, db)
     /\ Final.updateIssue rq issueId body db = (invalidId, db)
     /\ Final.deleteIssue rq issueId db = (invalidId, db)
     /\ Final.listComments rq issueId db = (invalidId, db)
     /\ Final.addComment rq issueId content db = (invalidId, db))
  /\ (matchesObjectIdFormat issueId = true ->
     ((Final.getIssue rq issueId db).1 <> invalidId
      /\ callsMade db (Final.getIssue rq issueId db).2 [IssueFindById issueId])
     /\ ((Final.updateIssue rq issueId body db).1 <> invalidId
      /\ exists rest, callsMade db (Final.updateIssue rq issueId body db).2
                        (IssueFindById issueId :: rest))
     /\ ((Final.deleteIssue rq issueId db).1 <> invalidId
      /\ exists rest, callsMade db (Final.deleteIssue rq issueId db).2
                        (IssueFindById issueId :: rest))
     /\ ((Final.listComments rq issueId db).1 <> invalidId
      /\ exists rest, callsMade db (Final.listComments rq issueId db).2
                        (IssueFindById issueId :: rest))
     /\ ((Final.addComment rq issueId content db).1 <> invalidId
      /\ (blank content = false ->
          exists rest, callsMade db (Final.addComment rq issueId content db).2
                         (IssueFindById issueId :: rest))))
  /\ (isLowerHex24 issueId = true -> matchesObjectIdFormat issueId = true).
Proof.
  split; [|split].
  - intros Hbad. repeat split.
    + now apply getIssue_malformed.
    + now apply updateIssue_malformed.
    + now apply deleteIssue_malformed.
    + now apply listComments_malformed.
    + now apply addComment_malformed.
  - intros Hok. split; [|split; [|split; [|split]]].
    + now apply getIssue_looks_up.
    + now apply updateIssue_looks_up.
    + now apply deleteIssue_looks_up.
    + now apply listComments_looks_up.
    + now apply addComment_looks_up.
  - apply lowerHex24_matches.
Qed.

Lemma id_format_gate_witness :
  Final.listComments Sample.request "abc" Sample.db = (invalidId, Sample.db)
  /\ (Final.getIssue Sample.request Sample.upperCase Sample.db).1 <> invalidId
  /\ matchesObjectIdFormat Sample.bugX = true.
Proof.
  split; [|split].
  - apply (proj1 (id_format_gate Sample.request Sample.db "abc" Sample.emptyBody None)).
    reflexivity.
  - apply (proj1 (proj2 (id_format_gate Sample.request Sample.db Sample.upperCase
                           Sample.emptyBody None))).
    reflexivity.
  - apply (proj2 (proj2 (id_format_gate Sample.request Sample.db Sample.bugX
                           Sample.emptyBody None))).
    reflexivity.
Defined.

(** ** Deleting an issue *)

Lemma deleteIssue_present (rq : Request) (db : Db) (issueId : string) (oid : ObjectId) (d : IssueDoc) :
  castObjectId issueId = Some oid ->
  issues db !! oid = Some d ->
  Final.deleteIssue rq issueId db
  = (reply 200 (Some "Issue and associated comments deleted successfully") None NoData,
     afterDelete issueId oid db).
Proof.
  intros Hcast Hd. unfold Final.deleteIssue.
  rewrite (castObjectId_Some _ _ Hcast). simpl.
  unfold_model. run. rewrite Hcast. run. rewrite Hd. simpl.
  unfold afterDelete, addCall, setComments, setIssues. simpl.
  rewrite <- !app_assoc. reflexivity.
Qed.

Lemma deleteIssue_success (rq : Request) (db : Db) (issueId : string) :
  res_status (Final.deleteIssue rq issueId db).1 = 200 ->
  exists oid, castObjectId issueId = Some oid
              /\ (Final.deleteIssue rq issueId db).2 = afterDelete issueId oid db.
Proof.
  destruct (matchesObjectIdFormat issueId) eqn:Hfmt.
  - pose proof (castObjectId_matches _ Hfmt) as Hcast.
    destruct (issues db !! hexToN 0 issueId) as [d|] eqn:Hd.
    + rewrite (deleteIssue_present rq db issueId _ d Hcast Hd). eauto.
    + rewrite (deleteIssue_absent rq db issueId _ Hcast Hd). discriminate.
  - rewrite (deleteIssue_malformed rq db issueId Hfmt). discriminate.
Qed.

(** C3, as stated, fails on the older routes: deleteIssue of "Bug X"
    answers 200, the comment on that issue stays in the store, and
    listComments of the deleted id answers 200 with that comment. *)
Lemma legacy_delete_keeps_comments :
  res_status (Legacy.deleteIssue Sample.request Sample.bugX Sample.db).1 = 200
  /\ issues (Legacy.deleteIssue Sample.request Sample.bugX Sample.db).2
       !! Sample.oid Sample.bugX = None
  /\ comments (Legacy.deleteIssue Sample.request Sample.bugX Sample.db).2 !! 77%N
     = Some Sample.commentOnX
  /\ castObjectId Sample.bugX = Some (comment_issue Sample.commentOnX)
  /\ (Legacy.listComments Sample.request Sample.bugX
        (Legacy.deleteIssue Sample.request Sample.bugX Sample.db).2).1
     = reply 200 None None
         (CommentList [commentView true Sample.db (77%N, Sample.commentOnX)]).
Proof. vm_compute. repeat split. Qed.

(** C3, amended. After deleteIssue of the newer routes succeeds on an id,
    the issue is gone, no stored comment refers to it, every other comment
    is still stored, and listComments on the same id is answered with
    "Issue not found" (404). *)
Theorem delete_issue_cascades_to_comments
    (rq rq' : Request) (db : Db) (issueId : string) :
  res_status (Final.deleteIssue rq issueId db).1 = 200 ->
  exists oid, castObjectId issueId = Some oid
    /\ issues (Final.deleteIssue rq issueId db).2 !! oid = None
    /\ (forall cid c, comments (Final.deleteIssue rq issueId db).2 !! cid = Some c ->
                      comment_issue c <> oid)
    /\ (forall cid c, comments db !! cid = Some c -> comment_issue c <> oid ->
                      comments (Final.deleteIssue rq issueId db).2 !! cid = Some c)
    /\ (Final.listComments rq' issueId (Final.deleteIssue rq issueId db).2).1 = notFound.
Proof.
  intros Hok. destruct (deleteIssue_success rq db issueId Hok) as (oid & Hcast & ->).
  exists oid. split; [exact Hcast|]. split; [|split; [|split]].
  - apply lookup_delete_eq.
  - intros cid c Hc. apply map_lookup_filter_Some in Hc. exact (proj2 Hc).
  - intros cid c Hc Hne. apply map_lookup_filter_Some. split; assumption.
  - rewrite (listComments_absent rq' _ issueId oid Hcast); [reflexivity|].
    apply lookup_delete_eq.
Qed.

Lemma delete_issue_cascades_witness :
  exists oid, castObjectId Sample.bugX = Some oid
    /\ issues (Final.deleteIssue Sample.request Sample.bugX Sample.db).2 !! oid = None
    /\ (forall cid c,
          comments (Final.deleteIssue Sample.request Sample.bugX Sample.db).2 !! cid = Some c ->
          comment_issue c <> oid)
    /\ (forall cid c, comments Sample.db !! cid = Some c -> comment_issue c <> oid ->
          comments (Final.deleteIssue Sample.request Sample.bugX Sample.db).2 !! cid = Some c)
    /\ (Final.listComments Sample.request Sample.bugX
          (Final.deleteIssue Sample.request Sample.bugX Sample.db).2).1 = notFound.
Proof.
  apply (delete_issue_cascades_to_comments Sample.request Sample.request Sample.db Sample.bugX).
  vm_compute. reflexivity.
Defined.

(** ** Trimming *)

Lemma trimStart_clean (s : string) : startsClean (Js.trimStart s).
Proof.
  induction s as [|c r IH]; simpl; [exact I|].
  destruct (Js.isWhiteSpace c) eqn:Hc; [exact IH | exact Hc].
Qed.

Lemma trimStart_of_clean (s : string) : startsClean s -> Js.trimStart s = s.
Proof. destruct s as [|c r]; simpl; [reflexivity|]. now intros ->. Qed.

Lemma trimEnd_clean (s : string) : startsClean s -> startsClean (Js.trimEnd s).
Proof.
  destruct s as [|c r]; simpl; [exact id|]. intros Hc.
  destruct (Js.trimEnd r); [rewrite Hc|]; exact Hc.
Qed.

Lemma trimEnd_idempotent (s : string) : Js.trimEnd (Js.trimEnd s) = Js.trimEnd s.
Proof.
  induction s as [|c r IH]; simpl; [reflexivity|].
  destruct (Js.trimEnd r) as [|c' r'] eqn:Hr.
  - destruct (Js.isWhiteSpace c) eqn:Hc; simpl; [reflexivity|]. now rewrite Hc.
  - change (Js.trimEnd (String c (String c' r'))) with
      (match Js.trimEnd (String c' r') with
       | EmptyString => if Js.isWhiteSpace c then EmptyString else String c EmptyString
       | x => String c x
       end).
    now rewrite IH.
Qed.

Lemma trim_idempotent (s : string) : Js.trim (Js.trim s) = Js.trim s.
Proof.
  unfold Js.trim.
  rewrite (trimStart_of_clean (Js.trimEnd (Js.trimStart s))).
  - apply trimEnd_idempotent.
  - apply trimEnd_clean, trimStart_clean.
Qed.

Lemma trim_empty : Js.trim EmptyString = EmptyString.
Proof. reflexivity. Qed.

Lemma length_zero (s : string) : (Js.length s =? 0) = true <-> s = EmptyString.
Proof.
  unfold Js.length. destruct s; simpl; split; intros H; try reflexivity; try discriminate.
Qed.

(** [blank] in the words of the interface: the trimmed content is empty. *)
Lemma blank_iff (content : option string) :
  blank content = true <-> Js.trim (default EmptyString content) = EmptyString.
Proof.
  unfold blank. destruct content as [[|c r]|]; simpl; try (split; reflexivity).
  apply length_zero.
Qed.

(** ** Adding a comment *)

Section AddComment.

Variables (rq : Request) (db : Db) (issueId : string) (oid : ObjectId) (text : option string).
Hypothesis wellFormed : castObjectId issueId = Some oid.

Lemma addComment_blank :
  blank text = true ->
  Final.addComment rq issueId text db = (failure 400 "Comment content is required", db).
Proof.
  intros Hb. unfold Final.addComment. rewrite (castObjectId_Some _ _ wellFormed). simpl.
  fold (blank text). now rewrite Hb.
Qed.

Lemma addComment_absent :
  blank text = false -> issues db !! oid = None ->
  Final.addComment rq issueId text db = (notFound, addCall (IssueFindById issueId) db).
Proof.
  intros Hb Habs. unfold Final.addComment. rewrite (castObjectId_Some _ _ wellFormed). simpl.
  fold (blank text). rewrite Hb.
  unfold tryCatch, mbind, M_bind. now rewrite (findById_absent db issueId oid wellFormed Habs).
Qed.

Lemma addComment_present (d : IssueDoc) :
  blank text = false -> issues db !! oid = Some d -> comments db !! newId rq = None ->
  Final.addComment rq issueId text db
  = (reply 201 (Some "Comment added successfully") None
       (AComment (commentView true db (newId rq, newComment rq oid text))),
     {| issues := issues db;
        comments := <[newId rq := newComment rq oid text]> (comments db);
        users := users db;
        calls := calls db ++ [IssueFindById issueId; CommentCreate;
                              CommentFindByObjectId (newId rq)] |}).
Proof.
  intros Hb Hd Hfresh. unfold Final.addComment. rewrite (castObjectId_Some _ _ wellFormed). simpl.
  fold (blank text). rewrite Hb.
  assert (Hne : exists c r, Js.trim (default EmptyString text) = String c r).
  { destruct (Js.trim (default EmptyString text)) as [|c r] eqn:Ht; [|eauto].
    apply blank_iff in Ht. congruence. }
  destruct Hne as (c & r & Ht).
  destruct text as [s|]; [|discriminate]. simpl in Ht.
  unfold_model. run. rewrite wellFormed. run. rewrite Hd. simpl.
  rewrite trim_idempotent, Ht. simpl. rewrite Hfresh. simpl.
  rewrite lookup_insert_eq. simpl.
  unfold newComment, commentView, addCall, setComments. simpl. rewrite Ht.
  rewrite <- !app_assoc. reflexivity.
Qed.

End AddComment.




(** ** The list endpoints *)

Lemma addCalls_nil (db : Db) : addCalls [] db = db.
Proof. destruct db. unfold addCalls. simpl. now rewrite app_nil_r. Qed.

Lemma addCalls_addCall (c : Call) (l : list Call) (db : Db) :
  addCalls l (addCall c db) = addCalls (c :: l) db.
Proof. unfold addCalls, addCall. simpl. now rewrite <- app_assoc. Qed.

Lemma mapM_countComments (rq : Request) (l : list IssueDocument) (db : Db) :
  mapM (Final.countComments rq) l db
  = (Ok ((fun d => Final.withCommentCount rq d (commentCount db (_id d))) <$> l),
     addCalls ((fun d => CommentCountDocuments (_id d)) <$> l) db).
Proof.
  revert db. induction l as [|d l IH]; intros db; simpl.
  - now rewrite addCalls_nil.
  - unfold Final.countComments at 1, Comment_countDocuments. run.
    rewrite IH. simpl. rewrite addCalls_addCall. reflexivity.
Qed.

Lemma listIssues_eq (rq : Request) (filter : option ObjectId) (msg : string) (db : Db) :
  tryCatch
    (issues ← Issue_find Final.schema filter;
     issuesWithComments ← mapM (Final.countComments rq) issues;
     mret (reply 200 None (Some (List.length issuesWithComments)) (IssueList issuesWithComments)))
    (Final.serverError rq msg) db
  = (reply 200 None (Some (List.length (listedIssues rq filter db)))
       (IssueList (listedIssues rq filter db)),
     addCalls (IssueFind filter
                 :: ((fun e => CommentCountDocuments e.1)
                       <$> sortNewestFirst createdAt (selected filter db))) db).
Proof.
  unfold Issue_find. run. rewrite mapM_countComments. simpl.
  rewrite addCalls_addCall. unfold listedIssues, selected.
  rewrite <- !list_fmap_compose. reflexivity.
Qed.

Lemma listAllIssues_eq (rq : Request) (db : Db) :
  (Final.listAllIssues rq db).1
  = reply 200 None (Some (List.length (listedIssues rq None db)))
      (IssueList (listedIssues rq None db))
  /\ issues (Final.listAllIssues rq db).2 = issues db
  /\ comments (Final.listAllIssues rq db).2 = comments db.
Proof. unfold Final.listAllIssues. rewrite listIssues_eq. repeat split. Qed.

Lemma listMyIssues_eq (rq : Request) (db : Db) :
  (Final.listMyIssues rq db).1
  = reply 200 None (Some (List.length (listedIssues rq (Some (user rq)) db)))
      (IssueList (listedIssues rq (Some (user rq)) db))
  /\ issues (Final.listMyIssues rq db).2 = issues db
  /\ comments (Final.listMyIssues rq db).2 = comments db.
Proof. unfold Final.listMyIssues. rewrite listIssues_eq. repeat split. Qed.

Lemma listComments_present (rq : Request) (db : Db) (issueId : string) (oid : ObjectId) (d : IssueDoc) :
  castObjectId issueId = Some oid ->
  issues db !! oid = Some d ->
  Final.listComments rq issueId db
  = (reply 200 None (Some (List.length (listedComments oid db)))
       (CommentList (listedComments oid db)),
     addCalls [IssueFindById issueId; CommentFind issueId] db).
Proof.
  intros Hcast Hd. unfold Final.listComments.
  rewrite (castObjectId_Some _ _ Hcast). simpl.
  unfold_model. run. rewrite Hcast. run. rewrite Hd. simpl.
  unfold addCalls, addCall, listedComments. simpl. rewrite <- app_assoc. reflexivity.
Qed.

#[local] Instance newerFirst_total {A} (stamp : A -> Z) : Total (newerFirst stamp).
Proof. intros x y. unfold newerFirst. lia. Qed.

#[local] Instance newerFirst_trans {A} (stamp : A -> Z) : Transitive (newerFirst stamp).
Proof. intros x y z. unfold newerFirst. lia. Qed.


Lemma sortNewestFirst_perm {A} (stamp : A -> Z) (l : list (ObjectId * A)) :
  sortNewestFirst stamp l ≡ₚ l.
Proof. apply merge_sort_Permutation. Qed.



Lemma elem_of_selected (filter : option ObjectId) (db : Db) (i : ObjectId) (d : IssueDoc) :
  (i, d) ∈ selected filter db
  <-> issues db !! i = Some d /\ match filter with Some a => author d = a | None => True end.
Proof.
  unfold selected. rewrite list_elem_of_In, filter_In, <- list_elem_of_In, elem_of_map_to_list.
  unfold matchesAuthor. simpl. destruct filter as [a|]; [rewrite N.eqb_eq|]; intuition.
Qed.



Lemma elem_of_listedIssues (rq : Request) (filter : option ObjectId) (db : Db) (v : IssueView) :
  v ∈ listedIssues rq filter db
  <-> exists d, issues db !! v_id v = Some d
                /\ match filter with Some a => author d = a | None => True end
                /\ v = Final.withCommentCount rq
                         (issueDocument Final.schema true db (v_id v, d))
                         (commentCount db (v_id v)).
Proof.
  unfold listedIssues. rewrite list_elem_of_fmap. split.
  - intros ([i d] & -> & Hin). rewrite sortNewestFirst_perm in Hin.
    apply elem_of_selected in Hin as [Hd Ha]. exists d. simpl. auto.
  - intros (d & Hd & Ha & Hv). exists (v_id v, d). split; [exact Hv|].
    rewrite sortNewestFirst_perm. apply elem_of_selected. auto.
Qed.






(** The same store lists "Bug X" before the older "Bug Y", which the
    collection enumerates first. *)
Example listAllIssues_reorders :
  (map_to_list (issues Sample.thread)).*2 = [Sample.olderIssueY; Sample.issueX]
  /\ exists x y, res_data (Final.listAllIssues Sample.request Sample.thread).1
                 = IssueList [x; y]
                 /\ v_fields x = Sample.issueX /\ v_fields y = Sample.olderIssueY.
Proof. split; [vm_compute; reflexivity|]. eexists _, _. vm_compute. repeat split. Qed.

Example listAllIssues_sample :
  exists x y, res_data (Final.listAllIssues Sample.request Sample.db).1 = IssueList [y; x]
              /\ v_fields x = Sample.issueX /\ v_commentCount x = Some 1%nat
              /\ v_fields y = Sample.issueY /\ v_commentCount y = Some 0%nat.
Proof. eexists _, _. vm_compute. repeat split. Qed.

(** ** Rounding of [completionRate] *)

Section Rounding.

Import Number.

Lemma roundEven_near (a b : Z) :
  0 < b -> - b <= 2 * (roundEven a b * b - a) <= b.
Proof.
  intros Hb. unfold roundEven.
  pose proof (Z.div_mod a b ltac:(lia)) as Hdm.
  pose proof (Z.mod_pos_bound a b Hb) as Hr.
  destruct (2 * (a mod b) <? b) eqn:H1; [apply Z.ltb_lt in H1; nia|].
  apply Z.ltb_ge in H1.
  destruct (b <? 2 * (a mod b)) eqn:H2; [apply Z.ltb_lt in H2; nia|].
  apply Z.ltb_ge in H2.
  destruct (Z.even (a / b)); nia.
Qed.

Lemma scale_pos (p q e : Z) :
  0 < p -> 0 < q -> 0 < (scale p q e).1 /\ 0 < (scale p q e).2.
Proof.
  intros Hp Hq. unfold scale. destruct (0 <=? e) eqn:He; simpl.
  - apply Z.leb_le in He. pose proof (Z.pow_pos_nonneg 2 e). nia.
  - apply Z.leb_gt in He. pose proof (Z.pow_pos_nonneg 2 (- e)). nia.
Qed.

(** Lowering the exponent by [d] multiplies the scaled quotient by [2^d]. *)
Lemma scale_shift (p q e d : Z) :
  0 <= d ->
  (scale p q (e - d)).1 * (scale p q e).2 = 2 ^ d * (scale p q e).1 * (scale p q (e - d)).2.
Proof.
  intros Hd. unfold scale.
  destruct (0 <=? e) eqn:He; destruct (0 <=? e - d) eqn:Hed; simpl;
    rewrite ?Z.leb_le, ?Z.leb_gt in *.
  - replace e with ((e - d) + d) at 1 by lia. rewrite Z.pow_add_r by lia. ring.
  - replace d with ((- (e - d)) + e) at 2 by lia. rewrite Z.pow_add_r by lia. ring.
  - lia.
  - replace (- (e - d)) with (d + - e) by lia. rewrite Z.pow_add_r by lia. ring.
Qed.

Lemma floorLog2_lower (p q : Z) :
  0 < p -> 0 < q ->
  (scale p q (floorLog2 p q)).2 <= (scale p q (floorLog2 p q)).1.
Proof.
  intros Hp Hq. unfold floorLog2.
  pose proof (Z.log2_spec p Hp) as [Hp1 Hp2].
  pose proof (Z.log2_spec q Hq) as [Hq1 Hq2].
  pose proof (Z.log2_nonneg p) as Hlp. pose proof (Z.log2_nonneg q) as Hlq.
  set (k := Z.log2 p - Z.log2 q) in *.
  destruct (scale p q k) as [a b] eqn:Hs.
  destruct (b <=? a) eqn:Hba.
  - rewrite Hs. simpl. now apply Z.leb_le.
  - apply Z.leb_gt in Hba.
    rewrite Z.pow_succ_r in Hp2, Hq2 by lia.
    unfold scale in *. destruct (0 <=? k) eqn:Hk; rewrite ?Z.leb_le, ?Z.leb_gt in Hk.
    + injection Hs as <- <-.
      destruct (0 <=? k - 1) eqn:Hk1; rewrite ?Z.leb_le, ?Z.leb_gt in Hk1; simpl.
      * assert (Hpow : 2 ^ Z.log2 p = 2 * 2 ^ Z.log2 q * 2 ^ (k - 1)).
        { replace (Z.log2 p) with (1 + Z.log2 q + (k - 1)) at 1 by lia.
          rewrite !Z.pow_add_r by lia. reflexivity. }
        pose proof (Z.pow_pos_nonneg 2 (k - 1) ltac:(lia) ltac:(lia)). nia.
      * assert (k = 0) as Hk0 by lia. unfold k in Hk0.
        replace (- (k - 1)) with 1 by lia. change (2 ^ 1) with 2.
        replace (Z.log2 p) with (Z.log2 q) in * by lia. lia.
    + injection Hs as <- <-.
      assert ((0 <=? k - 1) = false) as -> by (apply Z.leb_gt; lia). simpl.
      replace (- (k - 1)) with (1 + - k) by lia. rewrite Z.pow_add_r by lia.
      change (2 ^ 1) with 2.
      assert (Hpow : 2 ^ Z.log2 q = 2 ^ Z.log2 p * 2 ^ (- k)).
      { replace (Z.log2 q) with (Z.log2 p + - k) at 1 by lia.
        rewrite Z.pow_add_r by lia. reflexivity. }
      pose proof (Z.pow_pos_nonneg 2 (- k) ltac:(lia) ltac:(lia)). nia.
Qed.

(** The double nearest to [p / q]: with [a / b] the quotient scaled by the
    exponent, the mantissa is within one half of [a / b], and [a / b] is at
    least [2^52]. *)
Lemma nearest_spec (p q : Z) :
  0 < p -> 0 < q ->
  let x := nearest p q in
  let a := (scale p q (expo x)).1 in
  let b := (scale p q (expo x)).2 in
  0 < b /\ 2 ^ 52 * b <= a /\ - b <= 2 * (mant x * b - a) <= b.
Proof.
  intros Hp Hq. unfold nearest.
  destruct (scale p q (floorLog2 p q - 52)) as [a b] eqn:Hs. simpl. rewrite Hs. simpl.
  pose proof (scale_pos p q (floorLog2 p q - 52) Hp Hq) as [Ha Hb].
  pose proof (scale_pos p q (floorLog2 p q) Hp Hq) as [Ha0 Hb0].
  pose proof (scale_shift p q (floorLog2 p q) 52 ltac:(lia)) as Hsh.
  pose proof (floorLog2_lower p q Hp Hq) as Hlow.
  rewrite Hs in *. simpl in *.
  split; [exact Hb|]. split; [|now apply roundEven_near].
  set (a0 := (scale p q (floorLog2 p q)).1) in *.
  set (b0 := (scale p q (floorLog2 p q)).2) in *.
  set (c := 2 ^ 52) in *. assert (0 < c) by (unfold c; lia).
  assert (c * b * b0 <= a * b0); [|nia].
  rewrite Hsh. nia.
Qed.

(** The arithmetic core: from the two rounding steps and the choice of the
    digit, the result is within one twentieth of [100 * s / t]. [A] and [B]
    are the powers of two of the two exponents. *)
Lemma tenths_bound (s t A B m1 m2 n : Z) :
  1 <= s <= t -> t <= 2 ^ 40 -> 0 < A -> 0 < B ->
  2 ^ 52 * t <= s * A ->
  - t <= 2 * (m1 * t - s * A) <= t ->
  2 ^ 52 * A <= 100 * m1 * B ->
  - A <= 2 * (m2 * A - 100 * m1 * B) <= A ->
  2 * B * n <= 20 * m2 + B < 2 * B * (n + 1) ->
  - t <= 2 * n * t - 2000 * s <= t.
Proof.
  intros Hst Ht HA HB Ha Hb Hc Hd He.
  change (2 ^ 52) with 4503599627370496 in *. change (2 ^ 40) with 1099511627776 in *.
  assert (HsA : s * A <= t * A) by (apply Z.mul_le_mono_nonneg_r; lia).
  assert (HA52 : 4503599627370496 <= A).
  { apply (Z.mul_le_mono_pos_l _ _ t); lia. }
  assert (Hm1 : m1 <= A).
  { assert (2 * m1 * t <= (2 * A + 1) * t) by lia.
    assert (2 * m1 <= 2 * A + 1) by (apply (Z.mul_le_mono_pos_r _ _ t); lia). lia. }
  assert (HB45 : 45035996273704 < B).
  { assert (0 < m1).
    { destruct (Z_lt_le_dec 0 m1) as [|Hle]; [assumption|].
      assert (100 * m1 * B <= 0) by (apply Z.mul_nonpos_nonneg; lia). lia. }
    assert (100 * m1 * B <= 100 * A * B).
    { apply Z.mul_le_mono_nonneg_r; lia. }
    assert (4503599627370496 * A <= (100 * B) * A) by lia.
    assert (4503599627370496 <= 100 * B) by (apply (Z.mul_le_mono_pos_r _ _ A); lia).
    lia. }
  assert (Hsmall : 1000 * t * B + 10 * A * t < A * B).
  { assert (4 * (1000 * t) * B <= A * B).
    { apply Z.mul_le_mono_nonneg_r; lia. }
    assert (A * (2 * (10 * t)) <= A * B).
    { apply Z.mul_le_mono_nonneg_l; lia. }
    assert (0 < A * B) by (apply Z.mul_pos_pos; lia).
    lia. }
  assert (HAt : 0 < A * t) by (apply Z.mul_pos_pos; lia).
  assert (H1 : ((2 * n - 1) * B) * (A * t) <= (20 * m2) * (A * t)).
  { apply Z.mul_le_mono_nonneg_r; lia. }
  assert (H4 : (20 * m2) * (A * t) < ((2 * n + 1) * B) * (A * t)).
  { apply Z.mul_lt_mono_pos_r; lia. }
  assert (H2 : (2 * m2 * A) * (10 * t) <= (200 * m1 * B + A) * (10 * t)).
  { apply Z.mul_le_mono_nonneg_r; lia. }
  assert (H5 : (200 * m1 * B) * (10 * t) <= (2 * m2 * A + A) * (10 * t)).
  { apply Z.mul_le_mono_nonneg_r; lia. }
  assert (H3 : (2 * m1 * t) * (1000 * B) <= (2 * s * A + t) * (1000 * B)).
  { apply Z.mul_le_mono_nonneg_r; lia. }
  assert (H6 : (2 * s * A) * (1000 * B) <= (2 * m1 * t + t) * (1000 * B)).
  { apply Z.mul_le_mono_nonneg_r; lia. }
  assert (HAB : 0 < A * B) by (apply Z.mul_pos_pos; lia).
  split.
  - destruct (Z_le_gt_dec (2000 * s - (2 * n + 1) * t) 0) as [|Hgt]; [lia|].
    assert (1 * (A * B) <= (2000 * s - (2 * n + 1) * t) * (A * B)).
    { apply Z.mul_le_mono_nonneg_r; lia. }
    lia.
  - destruct (Z_le_gt_dec ((2 * n - 1) * t - 2000 * s) 0) as [|Hgt]; [lia|].
    assert (1 * (A * B) <= ((2 * n - 1) * t - 2000 * s) * (A * B)).
    { apply Z.mul_le_mono_nonneg_r; lia. }
    lia.
Qed.

Lemma scale_negative (p q e : Z) : e < 0 -> scale p q e = (p * 2 ^ (- e), q).
Proof. intros He. unfold scale. now rewrite (proj2 (Z.leb_gt 0 e) He). Qed.

Lemma scale_nonnegative (p q e : Z) : 0 <= e -> scale p q e = (p, q * 2 ^ e).
Proof. intros He. unfold scale. now rewrite (proj2 (Z.leb_le 0 e) He). Qed.

(** [(s / t * 100).toFixed(1)] is [n / 10] for an integer [n] with
    [|n / 10 - 100 * s / t| <= 1 / 20]. *)
Lemma completion_tenths (s t : Z) :
  1 <= s <= t -> t <= 2 ^ 40 ->
  - t <= 2 * tenths (mul (div s t) 100) * t - 2000 * s <= t.
Proof.
  intros Hst Ht. unfold div.
  assert ((s =? 0) = false) as -> by (apply Z.eqb_neq; lia).
  pose proof (nearest_spec s t ltac:(lia) ltac:(lia)) as H1. simpl in H1.
  set (x1 := nearest s t) in *.
  assert (He1 : expo x1 < 0).
  { destruct (Z_lt_le_dec (expo x1) 0) as [|Hge]; [assumption|exfalso].
    rewrite (scale_nonnegative _ _ _ Hge) in H1. simpl in H1.
    pose proof (Z.pow_pos_nonneg 2 (expo x1) ltac:(lia) Hge) as Hpow.
    assert (t * 1 <= t * 2 ^ expo x1) by (apply Z.mul_le_mono_nonneg_l; lia).
    change (2 ^ 52) with 4503599627370496 in H1. lia. }
  rewrite (scale_negative _ _ _ He1) in H1. simpl in H1.
  set (A := 2 ^ (- expo x1)) in *.
  assert (HA : 0 < A) by (apply Z.pow_pos_nonneg; lia).
  destruct H1 as (_ & Hlow1 & Hnear1).
  assert (HsA : s * A <= t * A) by (apply Z.mul_le_mono_nonneg_r; lia).
  assert (Hm1pos : 0 < mant x1).
  { destruct (Z_lt_le_dec 0 (mant x1)) as [|Hle]; [assumption|exfalso].
    assert (mant x1 * t <= 0) by (apply Z.mul_nonpos_nonneg; lia).
    change (2 ^ 52) with 4503599627370496 in Hlow1. lia. }
  assert (Hm1A : mant x1 <= A).
  { assert (2 * mant x1 * t <= (2 * A + 1) * t) by lia.
    assert (2 * mant x1 <= 2 * A + 1) by (apply (Z.mul_le_mono_pos_r _ _ t); lia). lia. }
  unfold mul.
  assert ((mant x1 =? 0) = false) as -> by (apply Z.eqb_neq; lia).
  assert ((0 <=? expo x1) = false) as -> by (apply Z.leb_gt; lia).
  fold A.
  pose proof (nearest_spec (mant x1 * 100) A ltac:(lia) HA) as H2. simpl in H2.
  set (x2 := nearest (mant x1 * 100) A) in *.
  assert (He2 : expo x2 < 0).
  { destruct (Z_lt_le_dec (expo x2) 0) as [|Hge]; [assumption|exfalso].
    rewrite (scale_nonnegative _ _ _ Hge) in H2. simpl in H2.
    pose proof (Z.pow_pos_nonneg 2 (expo x2) ltac:(lia) Hge) as Hpow.
    assert (A * 1 <= A * 2 ^ expo x2) by (apply Z.mul_le_mono_nonneg_l; lia).
    change (2 ^ 52) with 4503599627370496 in H2. lia. }
  rewrite (scale_negative _ _ _ He2) in H2. simpl in H2.
  unfold tenths.
  assert ((0 <=? expo x2) = false) as -> by (apply Z.leb_gt; lia).
  set (B := 2 ^ (- expo x2)) in *.
  assert (HB : 0 < B) by (apply Z.pow_pos_nonneg; lia).
  destruct H2 as (_ & Hlow2 & Hnear2).
  set (n := (20 * mant x2 + B) / (2 * B)).
  pose proof (Z.div_mod (20 * mant x2 + B) (2 * B) ltac:(lia)) as Hdm.
  pose proof (Z.mod_pos_bound (20 * mant x2 + B) (2 * B) ltac:(lia)) as Hmod.
  fold n in Hdm.
  apply (tenths_bound s t A B (mant x1) (mant x2) n); try assumption; try lia.
Qed.

Lemma completion_tenths_zero (t : Z) : tenths (mul (div 0 t) 100) = 0.
Proof. reflexivity. Qed.

End Rounding.

(** ** Statistics *)

Lemma filter_andb {A} (p q : A -> bool) (l : list A) :
  List.filter (fun x => p x && q x) l = List.filter q (List.filter p l).
Proof.
  induction l as [|x l IH]; simpl; [reflexivity|].
  destruct (p x); simpl; [destruct (q x)|]; now rewrite IH.
Qed.

Lemma countDocuments_eq (a : ObjectId) (st : option string) (db : Db) :
  Issue_countDocuments a st db
  = (Ok (List.length (List.filter (matchesStatus st) (selected (Some a) db))),
     addCall (IssueCountDocuments a st) db).
Proof.
  unfold Issue_countDocuments. run. unfold selected. now rewrite filter_andb.
Qed.

Lemma filter_true {A} (l : list A) : List.filter (fun _ => true) l = l.
Proof. induction l as [|x l IH]; simpl; [reflexivity|]. now rewrite IH. Qed.

(** The four statuses partition a list whose statuses are enumerated. *)
Lemma status_partition (l : list (ObjectId * IssueDoc)) :
  Forall (fun e => In (status e.2) statusValues) l ->
  (List.length (withStatus "Open" l) + List.length (withStatus "In Progress" l)
   + List.length (withStatus "Resolved" l) + List.length (withStatus "Closed" l)
   = List.length l)%nat.
Proof.
  unfold withStatus, matchesStatus.
  induction 1 as [|e l He Hl IH]; simpl; [reflexivity|].
  destruct He as [<-|[<-|[<-|[<-|[]]]]]; simpl; lia.
Qed.

Lemma myStatistics_eq (rq : Request) (db : Db) :
  let mine := selected (Some (user rq)) db in
  let total := List.length mine in
  let open := List.length (withStatus "Open" mine) in
  let inProgress := List.length (withStatus "In Progress" mine) in
  let resolved := List.length (withStatus "Resolved" mine) in
  let closed := List.length (withStatus "Closed" mine) in
  (Final.myStatistics rq db).1
  = reply 200 None None
      (Statistics {| total := total; open := open; inProgress := inProgress;
                     resolved := resolved; closed := closed;
                     solved := (resolved + closed)%nat;
                     ongoing := (open + inProgress)%nat;
                     completionRate := Some (Final.completionRateOf resolved closed total) |}).
Proof.
  unfold Final.myStatistics, tryCatch, mbind, M_bind.
  rewrite !countDocuments_eq. simpl. rewrite filter_true. reflexivity.
Qed.

Lemma completionRateOf_spec (resolved closed total : nat) :
  (resolved + closed <= total)%nat -> Z.of_nat total <= 2 ^ 40 ->
  (total = 0%nat -> Final.completionRateOf resolved closed total = JsNumber 0)
  /\ ((0 < total)%nat ->
      exists n, Final.completionRateOf resolved closed total = JsString (Number.oneDecimal n)
                /\ - Z.of_nat total
                   <= 2 * n * Z.of_nat total - 2000 * Z.of_nat (resolved + closed)
                   <= Z.of_nat total).
Proof.
  intros Hle Hbound. unfold Final.completionRateOf. split.
  - intros ->. reflexivity.
  - intros Hpos. assert ((0 <? total)%nat = true) as -> by now apply Nat.ltb_lt.
    eexists. split; [reflexivity|].
    destruct (Nat.eq_dec (resolved + closed)%nat 0%nat) as [Hz|Hnz].
    + rewrite Hz. change (Z.of_nat 0) with 0. rewrite completion_tenths_zero. lia.
    + apply completion_tenths; lia.
Qed.

Lemma legacy_myStatistics_eq (rq : Request) (db : Db) :
  let mine := selected (Some (user rq)) db in
  (Legacy.myStatistics rq db).1
  = reply 200 None None
      (Statistics {| total := List.length mine;
                     open := List.length (withStatus "Open" mine);
                     inProgress := List.length (withStatus "In Progress" mine);
                     resolved := List.length (withStatus "Resolved" mine);
                     closed := List.length (withStatus "Closed" mine);
                     solved := (List.length (withStatus "Resolved" mine)
                                + List.length (withStatus "Closed" mine))%nat;
                     ongoing := (List.length (withStatus "Open" mine)
                                 + List.length (withStatus "In Progress" mine))%nat;
                     completionRate := None |}).
Proof.
  unfold Legacy.myStatistics, tryCatch, mbind, M_bind.
  rewrite !countDocuments_eq. simpl. rewrite filter_true. reflexivity.
Qed.

(** Two different statuses select disjoint parts of a list. *)
Lemma two_statuses_le (a b : string) (l : list (ObjectId * IssueDoc)) :
  a <> b ->
  (List.length (withStatus a l) + List.length (withStatus b l) <= List.length l)%nat.
Proof.
  intros Hne. unfold withStatus, matchesStatus.
  induction l as [|e l IH]; simpl; [lia|].
  destruct (String.eqb_spec (status e.2) a) as [Ea|_];
    destruct (String.eqb_spec (status e.2) b) as [Eb|_]; simpl; try lia.
  congruence.
Qed.

(** C5, as stated, fails on the older routes: their statistics carry the
    counts and no [completionRate]. *)
Lemma legacy_statistics_carry_no_completion_rate :
  exists st,
    (Legacy.myStatistics Sample.request Sample.db).1 = reply 200 None None (Statistics st)
    /\ total st = 2%nat /\ solved st = 1%nat
    /\ completionRate st = None.
Proof. eexists. vm_compute. repeat split. Qed.

(** C5, amended. For the acting user, myStatistics of either route module
    answers with counts over exactly the stored issues that user authored:
    [total] is their number, each status count is the number of those with
    that status, [solved = resolved + closed] and [ongoing = open +
    inProgress]; [open + inProgress + resolved + closed = total] when the
    statuses of the user's issues are among the four enumerated ones (as the
    schema makes every write of the routes keep them). The older route
    returns no [completionRate]. The newer route returns as [completionRate]
    the number 0 when [total] is 0 and otherwise, for up to 2^40 issues of
    the user, the string of the digits of [n / 10], a point and the digit
    [n mod 10], for the number [n] of tenths between 0 and 1000 with
    [|n / 10 - solved / total * 100| <= 1 / 20]. *)
Theorem my_statistics_counts (rq : Request) (db : Db) :
  exists st older,
    (Final.myStatistics rq db).1 = reply 200 None None (Statistics st)
    /\ (Legacy.myStatistics rq db).1 = reply 200 None None (Statistics older)
    /\ total st = List.length (selected (Some (user rq)) db)
    /\ open st = List.length (withStatus "Open" (selected (Some (user rq)) db))
    /\ inProgress st = List.length (withStatus "In Progress" (selected (Some (user rq)) db))
    /\ resolved st = List.length (withStatus "Resolved" (selected (Some (user rq)) db))
    /\ closed st = List.length (withStatus "Closed" (selected (Some (user rq)) db))
    /\ solved st = (resolved st + closed st)%nat
    /\ ongoing st = (open st + inProgress st)%nat
    /\ (total older = total st /\ open older = open st /\ inProgress older = inProgress st
        /\ resolved older = resolved st /\ closed older = closed st
        /\ solved older = solved st /\ ongoing older = ongoing st)
    /\ completionRate older = None
    /\ ((forall i d, issues db !! i = Some d -> author d = user rq ->
           In (status d) statusValues) ->
        (open st + inProgress st + resolved st + closed st = total st)%nat)
    /\ (total st = 0%nat -> completionRate st = Some (JsNumber 0))
    /\ ((0 < total st)%nat -> Z.of_nat (total st) <= 2 ^ 40 ->
        exists n, completionRate st
                  = Some (JsString (pretty (n / 10) +:+ "." +:+ pretty (n mod 10)))
                  /\ 0 <= n <= 1000
                  /\ - Z.of_nat (total st)
                     <= 2 * n * Z.of_nat (total st) - 2000 * Z.of_nat (solved st)
                     <= Z.of_nat (total st)).
Proof.
  eexists _, _. split; [apply myStatistics_eq|]. split; [apply legacy_myStatistics_eq|].
  simpl. set (mine := selected (Some (user rq)) db).
  do 7 (split; [reflexivity|]). split; [repeat split|]. split; [reflexivity|].
  pose proof (two_statuses_le "Resolved" "Closed" mine ltac:(discriminate)) as Hle.
  split; [|split].
  - intros Hvalid. apply status_partition. apply Forall_forall. intros [i d] Hin.
    apply elem_of_selected in Hin as [Hd Ha]. exact (Hvalid i d Hd Ha).
  - intros Hz.
    destruct (completionRateOf_spec (List.length (withStatus "Resolved" mine))
                (List.length (withStatus "Closed" mine)) (List.length mine)
                Hle ltac:(rewrite Hz; vm_compute; discriminate)) as [Hzero _].
    now rewrite (Hzero Hz).
  - intros Hp Hbound.
    destruct (completionRateOf_spec (List.length (withStatus "Resolved" mine))
                (List.length (withStatus "Closed" mine)) (List.length mine)
                Hle Hbound) as [_ Hpos].
    destruct (Hpos Hp) as (n & -> & Hn). exists n. split; [reflexivity|].
    split; [|exact Hn].
    set (t := Z.of_nat (List.length mine)) in *.
    set (s := Z.of_nat (List.length (withStatus "Resolved" mine)
                        + List.length (withStatus "Closed" mine))) in *.
    assert (0 <= s <= t) by lia. assert (1 <= t) by lia. nia.
Qed.

Lemma my_statistics_counts_witness :
  exists st,
    (Final.myStatistics Sample.request Sample.db).1 = reply 200 None None (Statistics st)
    /\ total st = 2%nat /\ open st = 1%nat /\ closed st = 1%nat
    /\ (open st + inProgress st + resolved st + closed st = total st)%nat
    /\ completionRate st = Some (JsString "50.0").
Proof.
  destruct (my_statistics_counts Sample.request Sample.db)
    as (st & older & Heq & _ & Ht & Ho & _ & Hr & Hc & Hs & _ & _ & _ & Hsum & _ & Hrate).
  assert (Htotal : total st = 2%nat) by (rewrite Ht; vm_compute; reflexivity).
  assert (Hsolved : solved st = 1%nat) by (rewrite Hs, Hr, Hc; vm_compute; reflexivity).
  exists st. split; [exact Heq|]. split; [exact Htotal|].
  split; [rewrite Ho; vm_compute; reflexivity|].
  split; [rewrite Hc; vm_compute; reflexivity|]. split.
  - apply Hsum. intros i d Hd _.
    destruct (decide (i = Sample.oid Sample.bugX)) as [->|Hx];
      [|destruct (decide (i = Sample.oid Sample.bugY)) as [->|Hy]].
    + vm_compute in Hd. injection Hd as <-. simpl. auto.
    + vm_compute in Hd. injection Hd as <-. simpl. auto.
    + unfold Sample.db in Hd. simpl in Hd.
      rewrite !lookup_insert_ne, lookup_empty in Hd by congruence. discriminate.
  - destruct (Hrate ltac:(rewrite Htotal; lia) ltac:(rewrite Htotal; vm_compute; discriminate))
      as (n & -> & _ & Hn).
    rewrite Htotal, Hsolved in Hn.
    assert (n = 500) as -> by lia. reflexivity.
Defined.

(** ** Validation *)

Lemma final_title_ok (t : string) :
  IssueFinal.title (Some t) = None
  <-> (3 <=? Js.length t) && (Js.length t <=? 200) = true.
Proof.
  unfold IssueFinal.title.
  destruct (Js.length t =? 0) eqn:H0; destruct (200 <? Js.length t) eqn:H1;
    destruct (Js.length t <? 3) eqn:H2;
    rewrite ?Z.eqb_eq, ?Z.eqb_neq, ?Z.ltb_lt, ?Z.ltb_ge in *;
    rewrite andb_true_iff, !Z.leb_le; split; (discriminate || lia || reflexivity).
Qed.

Lemma final_description_ok (d : string) :
  IssueFinal.description (Some d) = None <-> (Js.length d <=? 2000) = true.
Proof.
  unfold IssueFinal.description. destruct (2000 <? Js.length d) eqn:H;
    rewrite ?Z.ltb_lt, ?Z.ltb_ge, Z.leb_le in *; split; (discriminate || lia || reflexivity).
Qed.

Lemma final_assignee_ok (a : string) :
  IssueFinal.assignee (Some a) = None <-> (Js.length a <=? 100) = true.
Proof.
  unfold IssueFinal.assignee. destruct (100 <? Js.length a) eqn:H;
    rewrite ?Z.ltb_lt, ?Z.ltb_ge, Z.leb_le in *; split; (discriminate || lia || reflexivity).
Qed.

Lemma inValues_nonempty (values : list string) (s : string) :
  inValues values s = true -> In s values.
Proof.
  unfold inValues. intros (x & Hx & Heq)%existsb_exists.
  apply String.eqb_eq in Heq. now subst.
Qed.

Lemma final_status_ok (s : string) :
  IssueFinal.status (Some s) = None <-> statusOk s = true.
Proof.
  unfold IssueFinal.status, statusOk.
  destruct (Js.length s =? 0) eqn:H0.
  - apply length_zero in H0 as ->. split; discriminate.
  - destruct (inValues statusValues s); split; (discriminate || reflexivity).
Qed.

Lemma final_priority_ok (s : string) :
  IssueFinal.priority (Some s) = None <-> priorityOk s = true.
Proof.
  unfold IssueFinal.priority, priorityOk.
  destruct (Js.length s =? 0) eqn:H0.
  - apply length_zero in H0 as ->. split; discriminate.
  - destruct (inValues priorityValues s); split; (discriminate || reflexivity).
Qed.

Lemma failures_nil (l : list (option string)) :
  failures l = [] <-> Forall (fun o => o = None) l.
Proof.
  unfold failures. induction l as [|[x|] l IH]; simpl.
  - split; [constructor | reflexivity].
  - split; [discriminate | intros H; inversion H; discriminate].
  - rewrite IH. split; [now constructor | now inversion 1].
Qed.

Lemma onUpdate_ok (validator : option string -> option string) (ok : string -> bool)
    (v : option string) :
  (forall x, validator (Some (Js.trim x)) = None <-> ok x = true) ->
  onUpdate validator (Js.trim <$> v) = None <-> ifPresent ok v = true.
Proof. intros H. destruct v as [x|]; simpl; [apply H | split; reflexivity]. Qed.

Lemma onUpdate_ok_raw (validator : option string -> option string) (ok : string -> bool)
    (v : option string) :
  (forall x, validator (Some x) = None <-> ok x = true) ->
  onUpdate validator v = None <-> ifPresent ok v = true.
Proof. intros H. destruct v as [x|]; simpl; [apply H | split; reflexivity]. Qed.

(** Update validation passes exactly for the patches whose present fields
    satisfy their constraints. *)
Lemma updateErrors_nil (body : IssueBody) :
  updateErrors Final.schema body = [] <-> patchOk body = true.
Proof.
  unfold updateErrors, patchOk. rewrite failures_nil, !andb_true_iff. simpl.
  rewrite !Forall_cons, Forall_nil.
  rewrite (onUpdate_ok IssueFinal.title titleOk) by (intros x; apply final_title_ok).
  rewrite (onUpdate_ok IssueFinal.description descriptionOk)
    by (intros x; apply final_description_ok).
  rewrite (onUpdate_ok_raw IssueFinal.status statusOk) by apply final_status_ok.
  rewrite (onUpdate_ok_raw IssueFinal.priority priorityOk) by apply final_priority_ok.
  rewrite (onUpdate_ok IssueFinal.assignee assigneeOk) by (intros x; apply final_assignee_ok).
  tauto.
Qed.

(** Document validation passes exactly for the drafts that have a title and
    whose present fields satisfy their constraints. *)
Lemma createErrors_nil (body : IssueBody) (a : ObjectId) :
  createErrors Final.schema (withAuthor body a) = [] <-> draftOk body = true.
Proof.
  unfold createErrors, draftOk, patchOk, newTitle, newDescription, newStatus, newPriority,
    newAssignee.
  rewrite failures_nil, !andb_true_iff, bool_decide_eq_true. simpl.
  rewrite !Forall_cons, Forall_nil.
  destruct body as [t d s p g au]; simpl.
  assert (Ht : IssueFinal.title (Js.trim <$> t) = None <-> is_Some t /\ ifPresent titleOk t = true).
  { destruct t as [x|]; simpl.
    - rewrite final_title_ok. unfold titleOk. split; [eauto | tauto].
    - split; [discriminate | intros [[? [=]] _]]. }
  assert (Hd : IssueFinal.description (orDefault (Js.trim <$> d) (Some EmptyString)) = None
               <-> ifPresent descriptionOk d = true).
  { destruct d as [x|]; simpl; [apply final_description_ok | split; reflexivity]. }
  assert (Hs : IssueFinal.status (Some (default "Open" s)) = None <-> ifPresent statusOk s = true).
  { destruct s as [x|]; simpl; [apply final_status_ok | split; reflexivity]. }
  assert (Hp : IssueFinal.priority (Some (default "Low" p)) = None
               <-> ifPresent priorityOk p = true).
  { destruct p as [x|]; simpl; [apply final_priority_ok | split; reflexivity]. }
  assert (Hg : IssueFinal.assignee (orDefault (Js.trim <$> g) (Some EmptyString)) = None
               <-> ifPresent assigneeOk g = true).
  { destruct g as [x|]; simpl; [apply final_assignee_ok | split; reflexivity]. }
  rewrite Ht, Hd, Hs, Hp, Hg. tauto.
Qed.

(** ** Creating and updating an issue *)

Lemma draftOk_title (body : IssueBody) :
  draftOk body = true -> exists t, b_title body = Some t /\ titleOk t = true.
Proof.
  unfold draftOk, patchOk. rewrite !andb_true_iff, bool_decide_eq_true.
  intros [[t Ht] [[[[Hok _] _] _] _]]. rewrite Ht in Hok. eauto.
Qed.

Lemma preSave_created (rq : Request) (body : IssueBody) (t : string) :
  b_title body = Some t ->
  preSave Final.schema
    {| title := Js.trim t;
       description := newDescription Final.schema (withAuthor body (user rq));
       status := newStatus (withAuthor body (user rq));
       priority := newPriority (withAuthor body (user rq));
       assignee := newAssignee Final.schema (withAuthor body (user rq));
       author := user rq; createdAt := now rq; updatedAt := now rq |}
  = createdDoc rq body.
Proof.
  intros Ht. unfold preSave, createdDoc, newDescription, newStatus, newPriority, newAssignee.
  simpl. rewrite Ht. simpl. f_equal.
  - destruct (Js.trim t) eqn:E; [reflexivity|]. rewrite <- E. apply trim_idempotent.
  - now destruct (b_description body).
  - destruct (b_assignee body) as [g|]; simpl; [|reflexivity].
    destruct (Js.trim g) eqn:E; [reflexivity|]. simpl. rewrite <- E.
    now rewrite trim_idempotent.
Qed.

Lemma hydrate_created (rq : Request) (body : IssueBody) :
  hydrate Final.schema (createdDoc rq body) = createdDoc rq body.
Proof. reflexivity. Qed.

(** The database after a successful [POST /api/issues]. *)
Lemma createIssue_valid (rq : Request) (db : Db) (body : IssueBody) :
  draftOk body = true ->
  issues db !! newId rq = None ->
  Final.createIssue rq body db
  = (reply 201 (Some "Issue created successfully") None
       (AnIssue (toObject Final.schema rq
                   {| _id := newId rq; fields := createdDoc rq body;
                      authorField := populateAuthor db (user rq) |})),
     {| issues := <[newId rq := createdDoc rq body]> (issues db);
        comments := comments db; users := users db;
        calls := calls db ++ [IssueCreate; IssueFindByObjectId (newId rq)] |}).
Proof.
  intros Hok Hfresh. destruct (draftOk_title body Hok) as (t & Ht & _).
  unfold Final.createIssue, Issue_create, Issue_findByObjectId. run.
  rewrite (proj2 (createErrors_nil body (user rq)) Hok).
  unfold newTitle. simpl. rewrite Ht. simpl.
  rewrite (preSave_created rq body t Ht). rewrite Hfresh. simpl.
  rewrite lookup_insert_eq. simpl.
  unfold addCall, setIssues. simpl. rewrite <- app_assoc. reflexivity.
Qed.

Lemma createIssue_invalid (rq : Request) (db : Db) (body : IssueBody) :
  draftOk body = false ->
  Final.createIssue rq body db
  = (validationFailed (createErrors Final.schema (withAuthor body (user rq))),
     addCall IssueCreate db)
  /\ createErrors Final.schema (withAuthor body (user rq)) <> [].
Proof.
  intros Hbad.
  assert (Hne : createErrors Final.schema (withAuthor body (user rq)) <> []).
  { intros H%createErrors_nil. congruence. }
  split; [|exact Hne].
  unfold Final.createIssue, Issue_create. run.
  destruct (createErrors Final.schema (withAuthor body (user rq))) as [|e errs];
    [congruence | reflexivity].
Qed.

Section UpdateIssue.

Variables (rq : Request) (db : Db) (issueId : string) (oid : ObjectId) (doc : IssueDoc).
Variables (body : IssueBody) (au : option ObjectId).
Hypothesis wellFormed : castObjectId issueId = Some oid.
Hypothesis present : issues db !! oid = Some doc.
Hypothesis authorCast : castAuthor (b_author body) = Ok au.

Lemma updateIssue_valid :
  patchOk body = true ->
  Final.updateIssue rq issueId body db
  = (reply 200 (Some "Issue updated successfully") None
       (AnIssue (toObject Final.schema rq
                   (issueDocument Final.schema true db (oid, applyUpdate rq body au doc)))),
     {| issues := <[oid := applyUpdate rq body au doc]> (issues db);
        comments := comments db; users := users db;
        calls := calls db ++ [IssueFindById issueId; IssueFindByIdAndUpdate issueId] |}).
Proof.
  intros Hok. unfold Final.updateIssue. rewrite (castObjectId_Some _ _ wellFormed). simpl.
  unfold Issue_findById, Issue_findByIdAndUpdate. run. rewrite wellFormed. run.
  rewrite present. simpl. rewrite authorCast.
  rewrite (proj2 (updateErrors_nil body) Hok). simpl. rewrite present. simpl.
  unfold addCall, setIssues. simpl. rewrite <- app_assoc. reflexivity.
Qed.

Lemma updateIssue_invalid :
  patchOk body = false ->
  Final.updateIssue rq issueId body db
  = (validationFailed (updateErrors Final.schema body),
     addCalls [IssueFindById issueId; IssueFindByIdAndUpdate issueId] db)
  /\ updateErrors Final.schema body <> [].
Proof.
  intros Hbad.
  assert (Hne : updateErrors Final.schema body <> []).
  { intros H%updateErrors_nil. congruence. }
  split; [|exact Hne].
  unfold Final.updateIssue. rewrite (castObjectId_Some _ _ wellFormed). simpl.
  unfold Issue_findById, Issue_findByIdAndUpdate. run. rewrite wellFormed. run.
  rewrite present. simpl. rewrite authorCast.
  destruct (updateErrors Final.schema body) as [|e errs] eqn:E; [congruence|]. simpl.
  unfold addCalls, addCall. simpl. rewrite <- app_assoc. reflexivity.
Qed.

End UpdateIssue.

Lemma getIssue_present (rq : Request) (db : Db) (issueId : string) (oid : ObjectId) (d : IssueDoc) :
  castObjectId issueId = Some oid ->
  issues db !! oid = Some d ->
  Final.getIssue rq issueId db
  = (reply 200 None None
       (AnIssue (toObject Final.schema rq (issueDocument Final.schema true db (oid, d)))),
     addCall (IssueFindById issueId) db).
Proof.
  intros Hcast Hd. unfold Final.getIssue. rewrite (castObjectId_Some _ _ Hcast). simpl.
  unfold Issue_findById. run. rewrite Hcast. run. rewrite Hd. reflexivity.
Qed.

(** C7, as stated, fails: a description of 2001 characters that ends in a
    blank exceeds 2000 characters, and the draft is accepted, because the
    length is validated after the [trim] setter. *)
Lemma padded_long_description_is_accepted :
  Js.length Sample.longDescription = 2001
  /\ res_status (Final.createIssue Sample.request Sample.longDraft Sample.db).1 = 201.
Proof. vm_compute. split; reflexivity. Qed.

(** A patch with a field that violates its constraint is not applied,
    whatever else it names. *)
Lemma updateIssue_not_applied (rq : Request) (db : Db) (issueId : string) (oid : ObjectId)
    (doc : IssueDoc) (body : IssueBody) :
  castObjectId issueId = Some oid ->
  issues db !! oid = Some doc ->
  patchOk body = false ->
  res_status (Final.updateIssue rq issueId body db).1 <> 200
  /\ issues (Final.updateIssue rq issueId body db).2 = issues db.
Proof.
  intros Hcast Hdoc Hbad.
  destruct (castAuthor (b_author body)) as [au|e] eqn:Hau.
  - destruct (updateIssue_invalid rq db issueId oid doc body au Hcast Hdoc Hau Hbad) as [-> _].
    split; [discriminate | reflexivity].
  - unfold Final.updateIssue. rewrite (castObjectId_Some _ _ Hcast). simpl.
    unfold Issue_findById, Issue_findByIdAndUpdate. run. rewrite Hcast. run.
    rewrite Hdoc. simpl. rewrite Hau. simpl.
    split; [|reflexivity]. destruct e; discriminate.
Qed.

(** C7, amended. createIssue answers with the 400 validation failure, and
    stores nothing, for every draft that has no title or whose title after
    trimming is shorter than 3 or longer than 200 characters, whose
    description after trimming exceeds 2000 characters, whose assignee after
    trimming exceeds 100 characters, or whose status or priority is outside
    its enumeration ([draftOk] is false); every other draft is stored, with
    description '', status Open and priority Low for the omitted fields.
    updateIssue on a stored issue never applies a patch in which a present
    field violates its constraint ([patchOk] is false). For a patch that
    names no author, or an author of the form of an ObjectId, it answers
    with the validation failure exactly when a present field violates its
    constraint, and otherwise answers 200 and stores, of the title,
    description, status, priority and assignee, the trimmed values of those
    present in the patch and the old values of the others, keeps
    [createdAt] and sets [updatedAt]. What becomes of the author is no part
    of the statement. *)
Theorem field_constraints (rq : Request) (db : Db) (body : IssueBody) :
  (draftOk body = false ->
     exists errs, errs <> []
       /\ (Final.createIssue rq body db).1 = validationFailed errs
       /\ issues (Final.createIssue rq body db).2 = issues db)
  /\ (draftOk body = true -> issues db !! newId rq = None ->
     res_status (Final.createIssue rq body db).1 = 201
     /\ issues (Final.createIssue rq body db).2
        = <[newId rq := createdDoc rq body]> (issues db))
  /\ (b_description body = None -> description (createdDoc rq body) = Some EmptyString)
  /\ (b_status body = None -> status (createdDoc rq body) = "Open")
  /\ (b_priority body = None -> priority (createdDoc rq body) = "Low")
  /\ (forall issueId oid doc,
        castObjectId issueId = Some oid ->
        issues db !! oid = Some doc ->
        (patchOk body = false ->
           res_status (Final.updateIssue rq issueId body db).1 <> 200
           /\ issues (Final.updateIssue rq issueId body db).2 = issues db)
        /\ (forall au, castAuthor (b_author body) = Ok au ->
            (patchOk body = false ->
               exists errs, errs <> []
                 /\ (Final.updateIssue rq issueId body db).1 = validationFailed errs)
            /\ (patchOk body = true ->
               res_status (Final.updateIssue rq issueId body db).1 = 200
               /\ exists doc',
                    issues (Final.updateIssue rq issueId body db).2
                    = <[oid := doc']> (issues db)
                    /\ title doc' = default (title doc) (Js.trim <$> b_title body)
                    /\ description doc'
                       = orDefault (Js.trim <$> b_description body) (description doc)
                    /\ status doc' = default (status doc) (b_status body)
                    /\ priority doc' = default (priority doc) (b_priority body)
                    /\ assignee doc'
                       = orDefault (Js.trim <$> b_assignee body) (assignee doc)
                    /\ createdAt doc' = createdAt doc
                    /\ updatedAt doc' = now rq))).
Proof.
  split; [|split; [|split; [|split; [|split]]]].
  - intros Hbad. destruct (createIssue_invalid rq db body Hbad) as [-> Hne]. eauto.
  - intros Hok Hfresh. rewrite (createIssue_valid rq db body Hok Hfresh). auto.
  - unfold createdDoc. simpl. now intros ->.
  - unfold createdDoc. simpl. now intros ->.
  - unfold createdDoc. simpl. now intros ->.
  - intros issueId oid doc Hcast Hdoc. split.
    + apply (updateIssue_not_applied rq db issueId oid doc body Hcast Hdoc).
    + intros au Hau. split.
      * intros Hbad.
        destruct (updateIssue_invalid rq db issueId oid doc body au Hcast Hdoc Hau Hbad)
          as [-> Hne].
        eauto.
      * intros Hok.
        rewrite (updateIssue_valid rq db issueId oid doc body au Hcast Hdoc Hau Hok).
        split; [reflexivity|]. exists (applyUpdate rq body au doc). repeat split.
Qed.

Lemma field_constraints_witness :
  (exists errs, errs <> []
     /\ (Final.createIssue Sample.request Sample.shortTitlePatch Sample.db).1
        = validationFailed errs
     /\ issues (Final.createIssue Sample.request Sample.shortTitlePatch Sample.db).2
        = issues Sample.db)
  /\ res_status (Final.createIssue Sample.request Sample.paddedDraft Sample.db).1 = 201
  /\ res_status (Final.updateIssue Sample.request Sample.bugX Sample.statusPatch Sample.db).1
     = 200
  /\ (exists errs, errs <> []
     /\ (Final.updateIssue Sample.request Sample.bugX Sample.shortTitlePatch Sample.db).1
        = validationFailed errs)
  /\ issues (Final.updateIssue Sample.request Sample.bugX Sample.shortTitlePatch Sample.db).2
     = issues Sample.db.
Proof.
  pose proof (proj2 (proj2 (proj2 (proj2 (proj2
                (field_constraints Sample.request Sample.db Sample.statusPatch)))))
                Sample.bugX (Sample.oid Sample.bugX) Sample.issueX eq_refl
                ltac:(vm_compute; reflexivity)) as Hstatus.
  pose proof (proj2 (proj2 (proj2 (proj2 (proj2
                (field_constraints Sample.request Sample.db Sample.shortTitlePatch)))))
                Sample.bugX (Sample.oid Sample.bugX) Sample.issueX eq_refl
                ltac:(vm_compute; reflexivity)) as Htitle.
  split; [|split; [|split; [|split]]].
  - apply (proj1 (field_constraints Sample.request Sample.db Sample.shortTitlePatch)).
    reflexivity.
  - apply (proj1 (proj2 (field_constraints Sample.request Sample.db Sample.paddedDraft))).
    + reflexivity.
    + vm_compute. reflexivity.
  - apply (proj2 (proj2 Hstatus None eq_refl)). reflexivity.
  - apply (proj1 (proj2 Htitle None eq_refl)). reflexivity.
  - apply (proj1 Htitle). reflexivity.
Defined.

(** C2, as stated, fails: the title of a valid draft that carries
    surrounding blanks is not returned as it was sent. *)
Lemma padded_title_is_returned_trimmed :
  draftOk Sample.paddedDraft = true
  /\ b_title Sample.paddedDraft = Some " Bug X "
  /\ exists v,
       res_data (Final.getIssue Sample.request Sample.unused
                   (Final.createIssue Sample.request Sample.paddedDraft Sample.db).2).1
       = AnIssue v
       /\ title (v_fields v) = "Bug X".
Proof. split; [reflexivity|]. split; [reflexivity|]. eexists. vm_compute. split; reflexivity. Qed.

(** C2, amended. For every valid draft and acting user, createIssue stores
    the issue under the generated id with the acting user as its author,
    whatever author the request fields name, and a following getIssue of that
    id returns the record whose title, description and assignee are the
    draft's with the surrounding white space trimmed (empty when omitted),
    whose status and priority are the draft's (Open and Low when omitted)
    and whose author is the acting user. *)
Theorem create_then_get (rq rq' : Request) (db : Db) (body : IssueBody) (idText : string) :
  draftOk body = true ->
  issues db !! newId rq = None ->
  castObjectId idText = Some (newId rq) ->
  res_status (Final.createIssue rq body db).1 = 201
  /\ (exists stored, issues (Final.createIssue rq body db).2 !! newId rq = Some stored
                     /\ author stored = user rq)
  /\ exists v,
       (Final.getIssue rq' idText (Final.createIssue rq body db).2).1
       = reply 200 None None (AnIssue v)
       /\ v_id v = newId rq
       /\ title (v_fields v) = Js.trim (default EmptyString (b_title body))
       /\ description (v_fields v) = Some (Js.trim (default EmptyString (b_description body)))
       /\ status (v_fields v) = default "Open" (b_status body)
       /\ priority (v_fields v) = default "Low" (b_priority body)
       /\ assignee (v_fields v) = Some (Js.trim (default EmptyString (b_assignee body)))
       /\ author (v_fields v) = user rq
       /\ v_author v = populateAuthor db (user rq).
Proof.
  intros Hok Hfresh Hcast.
  rewrite (createIssue_valid rq db body Hok Hfresh). simpl.
  split; [reflexivity|]. split.
  - exists (createdDoc rq body). split; [apply lookup_insert_eq | reflexivity].
  - eexists. split.
    + rewrite (getIssue_present rq' _ idText (newId rq) (createdDoc rq body) Hcast);
        [reflexivity | apply lookup_insert_eq].
    + repeat split.
Qed.

Lemma create_then_get_witness :
  res_status (Final.createIssue Sample.request Sample.paddedDraft Sample.db).1 = 201
  /\ (exists stored,
        issues (Final.createIssue Sample.request Sample.paddedDraft Sample.db).2
          !! Sample.oid Sample.unused = Some stored
        /\ author stored = Sample.alice)
  /\ exists v,
       (Final.getIssue Sample.request Sample.unused
          (Final.createIssue Sample.request Sample.paddedDraft Sample.db).2).1
       = reply 200 None None (AnIssue v)
       /\ v_id v = Sample.oid Sample.unused
       /\ title (v_fields v) = Js.trim (default EmptyString (b_title Sample.paddedDraft))
       /\ description (v_fields v)
          = Some (Js.trim (default EmptyString (b_description Sample.paddedDraft)))
       /\ status (v_fields v) = default "Open" (b_status Sample.paddedDraft)
       /\ priority (v_fields v) = default "Low" (b_priority Sample.paddedDraft)
       /\ assignee (v_fields v)
          = Some (Js.trim (default EmptyString (b_assignee Sample.paddedDraft)))
       /\ author (v_fields v) = Sample.alice
       /\ v_author v = populateAuthor Sample.db Sample.alice.
Proof.
  apply (create_then_get Sample.request Sample.request Sample.db Sample.paddedDraft
           Sample.unused).
  - reflexivity.
  - vm_compute. reflexivity.
  - reflexivity.
Defined.

(** ** The author of an updated issue *)

(** What an update does to the stored author: a patch that names an author
    replaces it, a patch that names none keeps it. *)
Lemma update_author (rq : Request) (db : Db) (issueId : string) (oid : ObjectId)
    (doc : IssueDoc) (body : IssueBody) (au : option ObjectId) :
  castObjectId issueId = Some oid ->
  issues db !! oid = Some doc ->
  castAuthor (b_author body) = Ok au ->
  patchOk body = true ->
  author <$> issues (Final.updateIssue rq issueId body db).2 !! oid
  = Some (default (author doc) au).
Proof.
  intros Hcast Hdoc Hau Hok.
  rewrite (updateIssue_valid rq db issueId oid doc body au Hcast Hdoc Hau Hok). simpl.
  now rewrite lookup_insert_eq.
Qed.

(** C1. The code at the failing input: the issue "Bug X" is authored by
    Alice; a PUT whose body is [{ author: <Bob's id> }] is answered with 200
    and leaves the issue authored by Bob. *)
Theorem update_patch_overwrites_author :
  author <$> issues Sample.db !! Sample.oid Sample.bugX = Some Sample.alice
  /\ castObjectId "000000000000000000000002" = Some Sample.bob
  /\ res_status (Final.updateIssue Sample.request Sample.bugX Sample.authorPatch Sample.db).1
     = 200
  /\ author <$> issues (Final.updateIssue Sample.request Sample.bugX Sample.authorPatch
                          Sample.db).2 !! Sample.oid Sample.bugX
     = Some Sample.bob.
Proof. vm_compute. repeat split. Qed.

(** The older route does the same. *)
Example legacy_update_overwrites_author :
  author <$> issues (Legacy.updateIssue Sample.request Sample.bugX Sample.authorPatch
                       Sample.db).2 !! Sample.oid Sample.bugX
  = Some Sample.bob.
Proof. vm_compute. reflexivity. Qed.

(** The create handler does replace an author named by the request. *)
Example create_ignores_supplied_author :
  author <$> issues (Final.createIssue Sample.request Sample.paddedDraft Sample.db).2
               !! Sample.oid Sample.unused
  = Some Sample.alice.
Proof. vm_compute. reflexivity. Qed.

(** ** The older and the newer routes *)

Lemma hydrate_legacy (d : IssueDoc) : hydrate Legacy.schema d = d.
Proof. destruct d as [t [x|] s p [y|] a c u]; reflexivity. Qed.

Lemma hydrate_final_idempotent (d : IssueDoc) :
  hydrate Final.schema (hydrate Final.schema d) = hydrate Final.schema d.
Proof. destruct d as [t [x|] s p [y|] a c u]; reflexivity. Qed.

Lemma mapM_countComments_legacy (rq : Request) (l : list IssueDocument) (db : Db) :
  mapM (Legacy.countComments rq) l db
  = (Ok ((fun d => Legacy.withCommentCount rq d (commentCount db (_id d))) <$> l),
     addCalls ((fun d => CommentCountDocuments (_id d)) <$> l) db).
Proof.
  revert db. induction l as [|d l IH]; intros db; simpl.
  - now rewrite addCalls_nil.
  - unfold Legacy.countComments at 1, Comment_countDocuments. run.
    rewrite IH. simpl. rewrite addCalls_addCall. reflexivity.
Qed.

Lemma legacy_listIssues_eq (rq : Request) (filter : option ObjectId) (db : Db) :
  tryCatch
    (issues ← Issue_find Legacy.schema filter;
     issuesWithComments ← mapM (Legacy.countComments rq) issues;
     mret (reply 200 None None (IssueList issuesWithComments)))
    (fun _ => Legacy.serverError) db
  = (reply 200 None None
       (IssueList ((fun e => Legacy.withCommentCount rq (issueDocument Legacy.schema true db e)
                               (commentCount db e.1))
                     <$> sortNewestFirst createdAt (selected filter db))),
     addCalls (IssueFind filter
                 :: ((fun e => CommentCountDocuments e.1)
                       <$> sortNewestFirst createdAt (selected filter db))) db).
Proof.
  unfold Issue_find. run. rewrite mapM_countComments_legacy. simpl.
  rewrite addCalls_addCall. unfold selected.
  rewrite <- !list_fmap_compose. reflexivity.
Qed.

Lemma listed_agree (rq : Request) (db : Db) (l : list (ObjectId * IssueDoc)) :
  Forall2 issueAgrees
    ((fun e => Legacy.withCommentCount rq (issueDocument Legacy.schema true db e)
                 (commentCount db e.1)) <$> l)
    ((fun e => Final.withCommentCount rq (issueDocument Final.schema true db e)
                 (commentCount db e.1)) <$> l).
Proof.
  induction l as [|e l IH]; simpl; constructor; [|exact IH].
  unfold issueAgrees. simpl. now rewrite hydrate_legacy.
Qed.

Lemma lists_agree (rq : Request) (filter : option ObjectId) (msg : string) (db : Db) :
  let legacy :=
    tryCatch
      (issues ← Issue_find Legacy.schema filter;
       issuesWithComments ← mapM (Legacy.countComments rq) issues;
       mret (reply 200 None None (IssueList issuesWithComments)))
      (fun _ => Legacy.serverError) db in
  let final :=
    tryCatch
      (issues ← Issue_find Final.schema filter;
       issuesWithComments ← mapM (Final.countComments rq) issues;
       mret (reply 200 None (Some (List.length issuesWithComments))
               (IssueList issuesWithComments)))
      (Final.serverError rq msg) db in
  responsesAgree legacy.1 final.1 /\ legacy.2 = final.2.
Proof.
  simpl. rewrite legacy_listIssues_eq, listIssues_eq. simpl.
  split; [|reflexivity]. repeat split. apply listed_agree.
Qed.

Lemma statistics_agree (rq : Request) (db : Db) :
  responsesAgree (Legacy.myStatistics rq db).1 (Final.myStatistics rq db).1
  /\ (Legacy.myStatistics rq db).2 = (Final.myStatistics rq db).2.
Proof.
  unfold Legacy.myStatistics, Final.myStatistics, tryCatch, mbind, M_bind.
  rewrite !countDocuments_eq. simpl. repeat split.
Qed.

Lemma getIssue_agree (rq : Request) (db : Db) (id : string) :
  matchesObjectIdFormat id = true ->
  responsesAgree (Legacy.getIssue rq id db).1 (Final.getIssue rq id db).1
  /\ (Legacy.getIssue rq id db).2 = (Final.getIssue rq id db).2.
Proof.
  intros Hfmt. unfold Legacy.getIssue, Final.getIssue. rewrite Hfmt. simpl.
  unfold Issue_findById. rewrite (castObjectId_matches _ Hfmt). run.
  destruct (issues db !! hexToN 0 id) as [d|]; simpl; [|repeat split].
  split; [|reflexivity]. repeat split. simpl. now rewrite hydrate_legacy.
Qed.

(** C10, as stated, fails: on the malformed id "abc" the older get route
    passes the id to the model, whose cast throws, and answers 500, where
    the newer one answers 400 without a model call; and the older delete
    route leaves the comments of the deleted issue in the store. *)
Lemma legacy_and_final_differ :
  res_status (Legacy.getIssue Sample.request "abc" Sample.db).1 = 500
  /\ res_status (Final.getIssue Sample.request "abc" Sample.db).1 = 400
  /\ calls (Legacy.getIssue Sample.request "abc" Sample.db).2 = [IssueFindById "abc"]
  /\ calls (Final.getIssue Sample.request "abc" Sample.db).2 = []
  /\ comments (Legacy.deleteIssue Sample.request Sample.bugX Sample.db).2
     <> comments (Final.deleteIssue Sample.request Sample.bugX Sample.db).2.
Proof.
  repeat split; try (vm_compute; reflexivity).
  intros H. apply (f_equal (fun m => m !! 77%N)) in H. vm_compute in H. discriminate.
Qed.

(** C10, amended. On the four read endpoints of issues (list all, list the
    acting user's, statistics, and get by an id of 24 hexadecimal digits)
    the older and the newer routes answer with the same status, make the
    same model calls, leave the same database, and their bodies agree: the
    same issues in the same order, with the same id, author and comment
    count and the same stored fields up to the defaults of the newer schema,
    and the same counts. *)
Theorem read_endpoints_agree (rq : Request) (db : Db) (id : string) :
  (responsesAgree (Legacy.listAllIssues rq db).1 (Final.listAllIssues rq db).1
   /\ (Legacy.listAllIssues rq db).2 = (Final.listAllIssues rq db).2)
  /\ (responsesAgree (Legacy.listMyIssues rq db).1 (Final.listMyIssues rq db).1
   /\ (Legacy.listMyIssues rq db).2 = (Final.listMyIssues rq db).2)
  /\ (responsesAgree (Legacy.myStatistics rq db).1 (Final.myStatistics rq db).1
   /\ (Legacy.myStatistics rq db).2 = (Final.myStatistics rq db).2)
  /\ (matchesObjectIdFormat id = true ->
      responsesAgree (Legacy.getIssue rq id db).1 (Final.getIssue rq id db).1
      /\ (Legacy.getIssue rq id db).2 = (Final.getIssue rq id db).2).
Proof.
  split; [|split; [|split]].
  - apply (lists_agree rq None "Failed to fetch issues" db).
  - apply (lists_agree rq (Some (user rq)) "Failed to fetch your issues" db).
  - apply statistics_agree.
  - apply getIssue_agree.
Qed.

Lemma read_endpoints_agree_witness :
  responsesAgree (Legacy.getIssue Sample.request Sample.bugX Sample.db).1
    (Final.getIssue Sample.request Sample.bugX Sample.db).1
  /\ (Legacy.getIssue Sample.request Sample.bugX Sample.db).2
     = (Final.getIssue Sample.request Sample.bugX Sample.db).2.
Proof.
  apply (proj2 (proj2 (proj2 (read_endpoints_agree Sample.request Sample.db Sample.bugX)))).
  reflexivity.
Defined.

(** ** The statuses of stored issues stay enumerated *)

Lemma createIssue_issues (rq : Request) (db : Db) (body : IssueBody) :
  issues (Final.createIssue rq body db).2 = issues db
  \/ (draftOk body = true
      /\ issues (Final.createIssue rq body db).2
         = <[newId rq := createdDoc rq body]> (issues db)).
Proof.
  destruct (draftOk body) eqn:Hok.
  - destruct (issues db !! newId rq) as [d|] eqn:Hfresh.
    + left. destruct (draftOk_title body Hok) as (t & Ht & _).
      unfold Final.createIssue, Issue_create. run.
      rewrite (proj2 (createErrors_nil body (user rq)) Hok).
      unfold newTitle. simpl. rewrite Ht. simpl. rewrite Hfresh. reflexivity.
    + right. split; [reflexivity|]. now rewrite (createIssue_valid rq db body Hok Hfresh).
  - left. now rewrite (proj1 (createIssue_invalid rq db body Hok)).
Qed.

Lemma updateIssue_issues (rq : Request) (db : Db) (issueId : string) (body : IssueBody) :
  issues (Final.updateIssue rq issueId body db).2 = issues db
  \/ (patchOk body = true
      /\ exists oid doc au,
           issues db !! oid = Some doc
           /\ issues (Final.updateIssue rq issueId body db).2
              = <[oid := applyUpdate rq body au doc]> (issues db)).
Proof.
  destruct (matchesObjectIdFormat issueId) eqn:Hfmt;
    [|left; now rewrite (updateIssue_malformed rq db issueId Hfmt)].
  pose proof (castObjectId_matches _ Hfmt) as Hcast.
  destruct (issues db !! hexToN 0 issueId) as [doc|] eqn:Hdoc;
    [|left; now rewrite (updateIssue_absent rq db issueId _ Hcast Hdoc)].
  destruct (castAuthor (b_author body)) as [au|e] eqn:Hau.
  - destruct (patchOk body) eqn:Hok.
    + right. split; [reflexivity|]. exists (hexToN 0 issueId), doc, au.
      split; [exact Hdoc|].
      now rewrite (updateIssue_valid rq db issueId _ doc body au Hcast Hdoc Hau Hok).
    + left.
      now rewrite (proj1 (updateIssue_invalid rq db issueId _ doc body au Hcast Hdoc Hau Hok)).
  - left. unfold Final.updateIssue. rewrite Hfmt. simpl.
    unfold Issue_findById, Issue_findByIdAndUpdate. run. rewrite Hcast. run.
    rewrite Hdoc. simpl. rewrite Hau. reflexivity.
Qed.

Lemma deleteIssue_issues (rq : Request) (db : Db) (issueId : string) :
  issues (Final.deleteIssue rq issueId db).2 = issues db
  \/ exists oid, issues (Final.deleteIssue rq issueId db).2 = delete oid (issues db).
Proof.
  destruct (matchesObjectIdFormat issueId) eqn:Hfmt;
    [|left; now rewrite (deleteIssue_malformed rq db issueId Hfmt)].
  pose proof (castObjectId_matches _ Hfmt) as Hcast.
  destruct (issues db !! hexToN 0 issueId) as [doc|] eqn:Hdoc.
  - right. exists (hexToN 0 issueId).
    now rewrite (deleteIssue_present rq db issueId _ doc Hcast Hdoc).
  - left. now rewrite (deleteIssue_absent rq db issueId _ Hcast Hdoc).
Qed.

Lemma patchOk_status (body : IssueBody) (s : string) :
  patchOk body = true -> b_status body = Some s -> In s statusValues.
Proof.
  unfold patchOk. rewrite !andb_true_iff. intros [[[[_ _] Hs] _] _] Heq.
  rewrite Heq in Hs. now apply inValues_nonempty.
Qed.

(** The writes of the newer routes keep the statuses enumerated. *)
Lemma writes_keep_statuses_enumerated (rq : Request) (db : Db) (issueId : string)
    (body : IssueBody) :
  statusesEnumerated db ->
  statusesEnumerated (Final.createIssue rq body db).2
  /\ statusesEnumerated (Final.updateIssue rq issueId body db).2
  /\ statusesEnumerated (Final.deleteIssue rq issueId db).2.
Proof.
  intros Hinv. split; [|split]; intros i d.
  - destruct (createIssue_issues rq db body) as [->|[Hok ->]]; [apply Hinv|].
    destruct (decide (newId rq = i)) as [<-|Hne].
    + rewrite lookup_insert_eq. intros [= <-]. simpl.
      destruct (b_status body) as [s|] eqn:Hs; simpl.
      * unfold draftOk in Hok. apply andb_true_iff in Hok as [_ Hok].
        exact (patchOk_status body s Hok Hs).
      * left. reflexivity.
    + rewrite lookup_insert_ne by exact Hne. apply Hinv.
  - destruct (updateIssue_issues rq db issueId body)
      as [->|(Hok & oid & doc & au & Hdoc & ->)]; [apply Hinv|].
    destruct (decide (oid = i)) as [<-|Hne].
    + rewrite lookup_insert_eq. intros [= <-]. simpl.
      destruct (b_status body) as [s|] eqn:Hs; simpl.
      * exact (patchOk_status body s Hok Hs).
      * exact (Hinv oid doc Hdoc).
    + rewrite lookup_insert_ne by exact Hne. apply Hinv.
  - destruct (deleteIssue_issues rq db issueId) as [->|[oid ->]]; [apply Hinv|].
    intros Hd. apply lookup_delete_Some in Hd as [_ Hd]. exact (Hinv i d Hd).
Qed.

(** ** The number model on samples *)

Example number_model_agrees_with_binary64 :
  forallb (fun p => agreesAt p.1 p.2) (pairsUpTo 40) = true
  /\ agreesAt 123456789 987654321 = true
  /\ agreesAt 1099511627775 1099511627776 = true.
Proof. vm_compute. repeat split. Qed.

Example toFixed1_samples :
  Number.toFixed1 (Number.mul (Number.div 2 3) 100) = "66.7"
  /\ Number.toFixed1 (Number.mul (Number.div 1 16) 100) = "6.3"
  /\ Number.toFixed1 (Number.mul (Number.div 3 2000) 100) = "0.1"
  /\ Number.toFixed1 (Number.mul (Number.div 5 5) 100) = "100.0"
  /\ Number.toFixed1 (Number.mul (Number.div 0 7) 100) = "0.0".
Proof. vm_compute. repeat split. Qed.

(** The two ids of the interface description: "abc" is malformed, and the
    well-formed id of no stored issue is not found. *)
Example malformed_and_unused_id :
  (Final.getIssue Sample.request "abc" Sample.db).1 = invalidId
  /\ (Final.getIssue Sample.request Sample.unused Sample.db).1 = notFound.
Proof. vm_compute. split; reflexivity. Qed.

(** * Further properties *)

(** ** The virtuals [ageInDays] and [isOverdue] *)

(** The ceiling of [m / P] from its two bounds. *)
Lemma ceiling_unique (m P k : Z) :
  0 < P -> (k - 1) * P < m <= k * P -> - ((- m) / P) = k.
Proof.
  intros HP [Hlo Hhi].
  pose proof (Z.div_mod (- m) P ltac:(lia)) as Hdm.
  pose proof (Z.mod_pos_bound (- m) P HP) as Hmod.
  set (r := (- m) / P) in *.
  assert (- k <= r) by nia. assert (r < - k + 1) by nia. lia.
Qed.

(** A quotient of integers, the numerator below 2^53, rounded to a double
    and then up to an integer, is the exact quotient rounded up. [c] is a
    common factor of the two arguments. *)
Lemma ceil_nearest_exact (a b c : Z) :
  0 < a < 2 ^ 53 -> 0 < b -> 0 < c ->
  Number.ceil (Number.nearest (a * c) (b * c)) = - ((- a) / b).
Proof.
  intros Ha Hb Hc.
  pose proof (nearest_spec (a * c) (b * c) ltac:(nia) ltac:(nia)) as H. simpl in H.
  set (x := Number.nearest (a * c) (b * c)) in *.
  set (k := - ((- a) / b)).
  assert (Hk : (k - 1) * b < a <= k * b).
  { pose proof (Z.div_mod (- a) b ltac:(lia)) as Hdm.
    pose proof (Z.mod_pos_bound (- a) b Hb) as Hmod. unfold k. nia. }
  change (2 ^ 53) with 9007199254740992 in Ha.
  change (2 ^ 52) with 4503599627370496 in H.
  unfold Number.ceil.
  destruct (Z_lt_le_dec (Number.expo x) 0) as [He|He].
  - rewrite (scale_negative _ _ _ He) in H. simpl in H.
    assert ((0 <=? Number.expo x) = false) as -> by (apply Z.leb_gt; lia).
    set (P := 2 ^ (- Number.expo x)) in *.
    assert (HP : 0 < P) by (apply Z.pow_pos_nonneg; lia).
    destruct H as (_ & Hlow & Hnear).
    set (m := Number.mant x) in *.
    assert (Hlow' : 4503599627370496 * b <= a * P).
    { apply (Z.mul_le_mono_pos_r _ _ c Hc). lia. }
    assert (Hnear' : - b <= 2 * (m * b - a * P) <= b).
    { split; apply (Z.mul_le_mono_pos_r _ _ c Hc); lia. }
    assert (HbP : b < 2 * P).
    { assert (a * P < 9007199254740992 * P) by (apply Z.mul_lt_mono_pos_r; lia). lia. }
    apply ceiling_unique; [exact HP|].
    assert (HaP1 : a * P <= k * b * P) by (apply Z.mul_le_mono_nonneg_r; lia).
    assert (HaP2 : ((k - 1) * b + 1) * P <= a * P) by (apply Z.mul_le_mono_nonneg_r; lia).
    split.
    + apply (Z.mul_lt_mono_pos_r (2 * b)); lia.
    + assert (2 * m * b <= (2 * (k * P) + 1) * b) by lia.
      assert (2 * m <= 2 * (k * P) + 1) by (apply (Z.mul_le_mono_pos_r _ _ b); lia).
      lia.
  - rewrite (scale_nonnegative _ _ _ He) in H. simpl in H.
    assert ((0 <=? Number.expo x) = true) as -> by (apply Z.leb_le; lia).
    set (Q := 2 ^ Number.expo x) in *.
    assert (HQ : 0 < Q) by (apply Z.pow_pos_nonneg; lia).
    destruct H as (_ & Hlow & Hnear).
    set (m := Number.mant x) in *.
    assert (Hlow' : 4503599627370496 * (b * Q) <= a).
    { apply (Z.mul_le_mono_pos_r _ _ c Hc). lia. }
    assert (HbQ : b * Q = 1).
    { assert (0 < b * Q) by (apply Z.mul_pos_pos; lia). lia. }
    assert (Hb1 : b = 1) by nia. assert (HQ1 : Q = 1) by nia.
    assert (Hnear' : - 1 <= 2 * (m - a) <= 1).
    { rewrite Hb1, HQ1 in Hnear. split; apply (Z.mul_le_mono_pos_r _ _ c Hc); lia. }
    rewrite HQ1. subst k. rewrite Hb1 in *. rewrite Z.div_1_r. lia.
Qed.

Lemma ceil_over_exact (a b : Z) :
  0 <= a < 2 ^ 53 -> 0 < b ->
  Number.ceil (Number.over (Number.ofInteger a) b) = - ((- a) / b).
Proof.
  intros Ha Hb. unfold Number.ofInteger.
  destruct (a =? 0) eqn:Ha0.
  { apply Z.eqb_eq in Ha0. subst a. reflexivity. }
  apply Z.eqb_neq in Ha0.
  pose proof (nearest_spec a 1 ltac:(lia) ltac:(lia)) as H. simpl in H.
  set (x := Number.nearest a 1) in *.
  change (2 ^ 52) with 4503599627370496 in H.
  unfold Number.over.
  destruct (Z_lt_le_dec (Number.expo x) 0) as [He|He].
  - rewrite (scale_negative _ _ _ He) in H. simpl in H.
    assert ((0 <=? Number.expo x) = false) as -> by (apply Z.leb_gt; lia).
    set (P := 2 ^ (- Number.expo x)) in *.
    assert (HP : 0 < P) by (apply Z.pow_pos_nonneg; lia).
    assert (Hm : Number.mant x = a * P) by lia.
    assert ((Number.mant x =? 0) = false) as -> by (apply Z.eqb_neq; nia).
    rewrite Hm. apply ceil_nearest_exact; lia.
  - rewrite (scale_nonnegative _ _ _ He) in H. simpl in H.
    assert ((0 <=? Number.expo x) = true) as -> by (apply Z.leb_le; lia).
    set (Q := 2 ^ Number.expo x) in *.
    assert (HQ : 0 < Q) by (apply Z.pow_pos_nonneg; lia).
    change (2 ^ 53) with 9007199254740992 in Ha.
    assert (HQ1 : Q = 1) by lia.
    assert (Hm : Number.mant x = a) by lia.
    assert ((Number.mant x =? 0) = false) as -> by (apply Z.eqb_neq; lia).
    rewrite Hm, HQ1. replace b with (b * 1) at 1 by lia.
    apply ceil_nearest_exact; lia.
Qed.

Lemma ageInDays_exact (now : Z) (d : IssueDoc) :
  Z.abs (now - createdAt d) < 2 ^ 53 ->
  ageInDays now d = - ((- Z.abs (now - createdAt d)) / millisecondsPerDay).
Proof.
  intros Hlt. unfold ageInDays. cbv zeta. apply ceil_over_exact; [lia | reflexivity].
Qed.

Lemma ageInDays_ceiling (now : Z) (d : IssueDoc) :
  Z.abs (now - createdAt d) < 2 ^ 53 ->
  (ageInDays now d - 1) * millisecondsPerDay < Z.abs (now - createdAt d)
  <= ageInDays now d * millisecondsPerDay.
Proof.
  intros Hlt. rewrite (ageInDays_exact now d Hlt).
  set (x := Z.abs (now - createdAt d)).
  change millisecondsPerDay with 86400000.
  pose proof (Z.div_mod (- x) 86400000 ltac:(lia)) as Hdm.
  pose proof (Z.mod_pos_bound (- x) 86400000 ltac:(lia)) as Hmod.
  lia.
Qed.

(** Beyond 2^53 milliseconds the roundings show: between the earliest and
    nearly the latest time value lie 199999999 days and one millisecond,
    and the age is 199999999. *)
Example ageInDays_of_the_widest_span :
  let created := {| title := "Bug"; description := None; status := "Open";
                    priority := "Low"; assignee := None; author := 1%N;
                    createdAt := -8640000000000000; updatedAt := 0 |} in
  8639999913600001 - createdAt created = 199999999 * millisecondsPerDay + 1
  /\ ageInDays 8639999913600001 created = 199999999.
Proof. vm_compute. split; reflexivity. Qed.

(** X1. For a creation time and a clock less than 2^53 milliseconds apart,
    [ageInDays], which the code computes in binary64, is exactly the number
    of started days between the two, whichever is the later: it is the
    least [k] with [|now - createdAt| <= k] days, it is never negative and
    it is 0 only at the instant of creation. At any distance, a clock behind
    the creation time counts like one ahead of it by the same amount. *)
Theorem ageInDays_counts_started_days (now : Z) (d : IssueDoc) :
  (Z.abs (now - createdAt d) < 2 ^ 53 ->
   ((ageInDays now d - 1) * millisecondsPerDay < Z.abs (now - createdAt d)
    <= ageInDays now d * millisecondsPerDay)
   /\ 0 <= ageInDays now d
   /\ (ageInDays now d = 0 <-> now = createdAt d))
  /\ (forall x, ageInDays (createdAt d - x) d = ageInDays (createdAt d + x) d).
Proof.
  split.
  - intros Hlt. pose proof (ageInDays_ceiling now d Hlt) as H.
    change millisecondsPerDay with 86400000 in *.
    split; [exact H|]. split; [lia|]. split; [lia|].
    intros ->. unfold ageInDays. rewrite Z.sub_diag. reflexivity.
  - intros x. unfold ageInDays. cbv zeta. do 3 f_equal. lia.
Qed.

Lemma ageInDays_witness :
  (ageInDays 90000000 Sample.issueX - 1) * millisecondsPerDay
  < Z.abs (90000000 - createdAt Sample.issueX)
  <= ageInDays 90000000 Sample.issueX * millisecondsPerDay.
Proof.
  apply (proj1 (ageInDays_counts_started_days 90000000 Sample.issueX)).
  reflexivity.
Defined.

Lemma inValues_In (values : list string) (s : string) :
  inValues values s = true <-> In s values.
Proof.
  unfold inValues. rewrite existsb_exists. split.
  - intros (x & Hx & Heq). apply String.eqb_eq in Heq. now subst.
  - intros Hin. exists s. split; [exact Hin | apply String.eqb_refl].
Qed.

Lemma overdueThreshold_values (p : string) :
  (p = "Urgent" /\ overdueThreshold p = Some 1)
  \/ (p = "High" /\ overdueThreshold p = Some 3)
  \/ (p = "Medium" /\ overdueThreshold p = Some 7)
  \/ (In p inheritedNames /\ overdueThreshold p = None)
  \/ (p <> "Urgent" /\ p <> "High" /\ p <> "Medium" /\ ~ In p inheritedNames
      /\ overdueThreshold p = Some 14).
Proof.
  unfold overdueThreshold.
  destruct (String.eqb_spec p "Urgent") as [->|H1]; [left; auto|].
  destruct (String.eqb_spec p "High") as [->|H2]; [right; left; auto|].
  destruct (String.eqb_spec p "Medium") as [->|H3]; [right; right; left; auto|].
  destruct (String.eqb_spec p "Low") as [->|H4].
  { do 4 right. repeat split; try discriminate.
    intros Hin. apply inValues_In in Hin. discriminate. }
  destruct (inValues inheritedNames p) eqn:Hin.
  - right; right; right; left. split; [now apply inValues_In | reflexivity].
  - do 4 right. repeat split; try assumption.
    intros H. apply inValues_In in H. congruence.
Qed.

(** X2. For a creation time and a clock less than 2^53 milliseconds apart,
    an issue is overdue exactly when more than its threshold of whole days
    lies between the two: 1 day for Urgent, 3 for High, 7 for Medium and 14
    for Low and for any other priority that is not the name of a property
    every object inherits. So no issue is overdue within the first 24
    hours, and an issue of such a priority is overdue once more than 14 days
    have passed. For a priority that is an inherited property name
    (constructor, toString, ...) the threshold read from the table is not a
    number and the issue is never overdue. *)
Theorem isOverdue_after_threshold (now : Z) (d : IssueDoc) :
  (In (priority d) inheritedNames -> isOverdue now d = false)
  /\ (priority d = "Urgent" -> overdueThreshold (priority d) = Some 1)
  /\ (priority d = "High" -> overdueThreshold (priority d) = Some 3)
  /\ (priority d = "Medium" -> overdueThreshold (priority d) = Some 7)
  /\ (priority d <> "Urgent" -> priority d <> "High" -> priority d <> "Medium" ->
      ~ In (priority d) inheritedNames -> overdueThreshold (priority d) = Some 14)
  /\ (Z.abs (now - createdAt d) < 2 ^ 53 ->
      (forall days, overdueThreshold (priority d) = Some days ->
         (isOverdue now d = true
          <-> days * millisecondsPerDay < Z.abs (now - createdAt d)))
      /\ (Z.abs (now - createdAt d) <= millisecondsPerDay -> isOverdue now d = false)
      /\ (~ In (priority d) inheritedNames ->
          14 * millisecondsPerDay < Z.abs (now - createdAt d) -> isOverdue now d = true)).
Proof.
  pose proof (overdueThreshold_values (priority d)) as Hv.
  split; [|split; [|split; [|split; [|split]]]].
  - intros Hin. unfold isOverdue.
    destruct Hv as [[E _]|[[E _]|[[E _]|[[_ ->]|(_ & _ & _ & Hn & _)]]]];
      try reflexivity; try contradiction;
      rewrite E in Hin; apply inValues_In in Hin; discriminate.
  - intros ->. reflexivity.
  - intros ->. reflexivity.
  - intros ->. reflexivity.
  - intros N1 N2 N3 Hn.
    destruct Hv as [[? _]|[[? _]|[[? _]|[[? _]|(_ & _ & _ & _ & ?)]]]];
      try contradiction; assumption.
  - intros Hlt. pose proof (ageInDays_ceiling now d Hlt) as H.
    assert (Hiff : forall days, overdueThreshold (priority d) = Some days ->
                     (isOverdue now d = true
                      <-> days * millisecondsPerDay < Z.abs (now - createdAt d))).
    { intros days Hd. unfold isOverdue. rewrite Hd, Z.ltb_lt.
      change millisecondsPerDay with 86400000 in *. split; intros Hgt; nia. }
    change millisecondsPerDay with 86400000 in *.
    split; [exact Hiff|]. split.
    + intros Hle. apply not_true_is_false. intros E.
      destruct (overdueThreshold (priority d)) as [days|] eqn:Hd.
      * apply (Hiff days eq_refl) in E.
        destruct Hv as [[_ Ht]|[[_ Ht]|[[_ Ht]|[[_ Ht]|(_ & _ & _ & _ & Ht)]]]];
          try discriminate; injection Ht as Ht; lia.
      * unfold isOverdue in E. rewrite Hd in E. discriminate.
    + intros Hn Hgt.
      destruct Hv as [[_ Ht]|[[_ Ht]|[[_ Ht]|[[? _]|(_ & _ & _ & _ & Ht)]]]];
        try contradiction; apply (Hiff _ Ht); lia.
Qed.

Lemma isOverdue_witness :
  isOverdue 5000 Sample.issueX = false
  /\ isOverdue (15 * 86400000 + 1000) Sample.issueX = true.
Proof.
  split.
  - apply (proj1 (proj2 (proj2 (proj2 (proj2 (proj2 (proj2
             (isOverdue_after_threshold 5000 Sample.issueX)))))
             ltac:(reflexivity)))).
    vm_compute. discriminate.
  - apply (proj2 (proj2 (proj2 (proj2 (proj2 (proj2 (proj2
             (isOverdue_after_threshold (15 * 86400000 + 1000) Sample.issueX)))))
             ltac:(reflexivity)))).
    + intros Hin. apply inValues_In in Hin. discriminate.
    + vm_compute. reflexivity.
Defined.

(** ** The statics of the newer schema *)

Ltac distinct_strings :=
  repeat (apply NoDup_cons; split;
          [intros Hin; repeat (apply elem_of_cons in Hin as [Hin|Hin]; [discriminate|]);
           inversion Hin|]);
  apply NoDup_nil_2.

Lemma sumCond_length (field : IssueDoc -> string) (value : string)
    (l : list (ObjectId * IssueDoc)) :
  sumCond field value l
  = List.length (List.filter (fun e => String.eqb (field e.2) value) l).
Proof.
  induction l as [|e l IH]; simpl; [reflexivity|].
  rewrite IH. destruct (String.eqb (field e.2) value); reflexivity.
Qed.

Lemma foldr_count {A} (l : list A) : foldr (fun _ acc => (1 + acc)%nat) 0%nat l = List.length l.
Proof. induction l as [|x l IH]; [reflexivity|]. cbn [foldr]. now rewrite IH. Qed.

Lemma filter_length_le {A} (p : A -> bool) (l : list A) :
  (List.length (List.filter p l) <= List.length l)%nat.
Proof. induction l as [|x l IH]; simpl; [lia|]. destruct (p x); simpl; lia. Qed.

(** Four values partition a list whose field takes one of them; in general
    the four classes are disjoint. *)
Lemma four_way_count (field : IssueDoc -> string) (a b c d : string)
    (l : list (ObjectId * IssueDoc)) :
  NoDup [a; b; c; d] ->
  (sumCond field a l + sumCond field b l + sumCond field c l + sumCond field d l
   <= List.length l)%nat
  /\ (Forall (fun e => In (field e.2) [a; b; c; d]) l ->
      (sumCond field a l + sumCond field b l + sumCond field c l + sumCond field d l
       = List.length l)%nat).
Proof.
  intros Hnd.
  assert (Hone : forall x,
             ((if String.eqb x a then 1 else 0) + (if String.eqb x b then 1 else 0)
              + (if String.eqb x c then 1 else 0) + (if String.eqb x d then 1 else 0) <= 1)%nat
             /\ (In x [a; b; c; d] ->
                 ((if String.eqb x a then 1 else 0) + (if String.eqb x b then 1 else 0)
                  + (if String.eqb x c then 1 else 0) + (if String.eqb x d then 1 else 0)
                  = 1)%nat)).
  { intros x.
    assert (Hne : a <> b /\ a <> c /\ a <> d /\ b <> c /\ b <> d /\ c <> d).
    { apply NoDup_cons in Hnd as [Ha Hnd]. apply NoDup_cons in Hnd as [Hb Hnd].
      apply NoDup_cons in Hnd as [Hc _]. set_solver. }
    simpl.
    destruct (String.eqb_spec x a) as [Ea|Ea]; destruct (String.eqb_spec x b) as [Eb|Eb];
      destruct (String.eqb_spec x c) as [Ec|Ec]; destruct (String.eqb_spec x d) as [Ed|Ed];
      (split; [|intros Hin]); try lia; exfalso; subst; intuition congruence. }
  split.
  - induction l as [|e l IH]; simpl; [lia|]. pose proof (proj1 (Hone (field e.2))). lia.
  - induction 1 as [|e l He Hl IH]; simpl; [reflexivity|].
    pose proof (proj2 (Hone (field e.2)) He). lia.
Qed.

(** X3. [getStatistics] yields no group for an empty collection and
    otherwise one group. Its [total] is the number of stored issues; each of
    the other counts is the length of the list [findByStatus] or
    [findByPriority] returns for that value; the four status counts never
    add up to more than [total], and to exactly [total] when every stored
    status is enumerated, and likewise the four priority counts. *)
Theorem getStatistics_counts (db : Db) :
  (issues db = ∅ -> getStatistics db = [])
  /\ (issues db <> ∅ ->
      exists g, getStatistics db = [g]
        /\ g_total g = size (issues db)
        /\ g_open g = List.length (findByStatus db "Open")
        /\ g_inProgress g = List.length (findByStatus db "In Progress")
        /\ g_resolved g = List.length (findByStatus db "Resolved")
        /\ g_closed g = List.length (findByStatus db "Closed")
        /\ g_urgent g = List.length (findByPriority db "Urgent")
        /\ g_high g = List.length (findByPriority db "High")
        /\ g_medium g = List.length (findByPriority db "Medium")
        /\ g_low g = List.length (findByPriority db "Low")
        /\ (g_open g + g_inProgress g + g_resolved g + g_closed g <= g_total g)%nat
        /\ (g_urgent g + g_high g + g_medium g + g_low g <= g_total g)%nat
        /\ ((forall i d, issues db !! i = Some d -> In (status d) statusValues) ->
            (g_open g + g_inProgress g + g_resolved g + g_closed g = g_total g)%nat)
        /\ ((forall i d, issues db !! i = Some d -> In (priority d) priorityValues) ->
            (g_urgent g + g_high g + g_medium g + g_low g = g_total g)%nat)).
Proof.
  unfold getStatistics, findByStatus, findByPriority. split.
  - intros ->. now rewrite map_to_list_empty.
  - intros Hne. rewrite <- length_map_to_list.
    assert (Hall : forall P : IssueDoc -> Prop,
               (forall i d, issues db !! i = Some d -> P d) ->
               Forall (fun e => P e.2) (map_to_list (issues db))).
    { intros P HP. apply Forall_forall. intros [i d] Hin.
      apply elem_of_map_to_list in Hin. exact (HP i d Hin). }
    destruct (map_to_list (issues db)) as [|e l] eqn:El.
    + apply map_to_list_empty_iff in El. contradiction.
    + eexists. split; [reflexivity|]. cbv [g_total g_open g_inProgress g_resolved g_closed
                                           g_urgent g_high g_medium g_low].
      rewrite !length_fmap, foldr_count, <- !sumCond_length.
      destruct (four_way_count status "Open" "In Progress" "Resolved" "Closed" (e :: l))
        as [Hs1 Hs2].
      { distinct_strings. }
      destruct (four_way_count priority "Urgent" "High" "Medium" "Low" (e :: l))
        as [Hp1 Hp2].
      { distinct_strings. }
      repeat (split; [reflexivity|]).
      split; [exact Hs1|]. split; [exact Hp1|]. split.
      * intros Hinv. apply Hs2. apply (Hall (fun d => In (status d) _) Hinv).
      * intros Hinv. rewrite <- Hp2; [lia|].
        apply (Forall_impl _ _ _ (Hall (fun d => In (priority d) priorityValues) Hinv)).
        intros x. unfold priorityValues. simpl. tauto.
Qed.

Lemma getStatistics_counts_witness :
  exists g, getStatistics Sample.db = [g] /\ g_total g = 2%nat
            /\ (g_open g + g_inProgress g + g_resolved g + g_closed g = g_total g)%nat.
Proof.
  destruct (proj2 (getStatistics_counts Sample.db)) as (g & Hg & Ht & Hrest).
  - intros H. apply (f_equal (fun m => m !! Sample.oid Sample.bugX)) in H.
    vm_compute in H. discriminate.
  - exists g. split; [exact Hg|]. vm_compute in Hg. injection Hg as <-.
    vm_compute. split; reflexivity.
Defined.

(** X4. [findByStatus] returns, with the author populated, exactly the
    stored issues that carry the status, each of them once, and
    [findByPriority] those that carry the priority. *)
Theorem findBy_returns_the_matching_issues (db : Db) (value : string) :
  (NoDup (_id <$> findByStatus db value)
   /\ forall doc, doc ∈ findByStatus db value
        <-> exists d, issues db !! _id doc = Some d /\ status d = value
                      /\ doc = issueDocument Final.schema true db (_id doc, d))
  /\ (NoDup (_id <$> findByPriority db value)
   /\ forall doc, doc ∈ findByPriority db value
        <-> exists d, issues db !! _id doc = Some d /\ priority d = value
                      /\ doc = issueDocument Final.schema true db (_id doc, d)).
Proof.
  assert (Hgen : forall field : IssueDoc -> string,
    let l := List.filter (fun e => String.eqb (field e.2) value) (map_to_list (issues db)) in
    NoDup (_id <$> (issueDocument Final.schema true db <$> l))
    /\ forall doc, doc ∈ (issueDocument Final.schema true db <$> l)
         <-> exists d, issues db !! _id doc = Some d /\ field d = value
                       /\ doc = issueDocument Final.schema true db (_id doc, d)).
  { intros field l. split.
    - rewrite <- list_fmap_compose.
      assert (Hnd : NoDup (map_to_list (issues db)).*1) by apply NoDup_fst_map_to_list.
      subst l. induction (map_to_list (issues db)) as [|e r IH]; simpl; [constructor|].
      apply NoDup_cons in Hnd as [Hnotin Hnd].
      destruct (String.eqb (field e.2) value); simpl; [|exact (IH Hnd)].
      apply NoDup_cons. split; [|exact (IH Hnd)].
      intros Hin. apply Hnotin. apply list_elem_of_fmap in Hin as (x & Hx & Hin).
      apply list_elem_of_fmap. exists x. split; [exact Hx|].
      apply list_elem_of_In, filter_In in Hin. apply list_elem_of_In, Hin.
    - intros doc. rewrite list_elem_of_fmap. subst l. split.
      + intros ([i d] & -> & Hin). apply list_elem_of_In, filter_In in Hin as [Hin Heq].
        apply list_elem_of_In, elem_of_map_to_list in Hin. apply String.eqb_eq in Heq.
        exists d. simpl. auto.
      + intros (d & Hd & Heq & Hdoc). exists (_id doc, d). split; [exact Hdoc|].
        apply list_elem_of_In, filter_In. split.
        * now apply list_elem_of_In, elem_of_map_to_list.
        * now apply String.eqb_eq. }
  split; [apply (Hgen status) | apply (Hgen priority)].
Qed.

(** ** What a request leaves alone *)

Ltac unfold_final :=
  unfold Final.getIssue, Final.createIssue, Final.updateIssue, Final.deleteIssue,
    Final.listComments, Final.addComment.

Ltac brute :=
  unfold_final; unfold_model; run; split_cases.

Lemma listIssues_sameData (rq : Request) (db : Db) :
  sameData db (Final.listAllIssues rq db).2 /\ sameData db (Final.listMyIssues rq db).2.
Proof.
  unfold Final.listAllIssues, Final.listMyIssues. rewrite !listIssues_eq.
  split; repeat split.
Qed.

Lemma myStatistics_sameData (rq : Request) (db : Db) :
  sameData db (Final.myStatistics rq db).2.
Proof.
  unfold Final.myStatistics, tryCatch, mbind, M_bind.
  rewrite !countDocuments_eq. repeat split.
Qed.

Lemma getIssue_sameData (rq : Request) (db : Db) (id : string) :
  sameData db (Final.getIssue rq id db).2.
Proof. brute; repeat split. Qed.

Lemma listComments_sameData (rq : Request) (db : Db) (id : string) :
  sameData db (Final.listComments rq id db).2.
Proof. brute; repeat split. Qed.

Lemma addComment_failure (rq : Request) (db : Db) (id : string) (text : option string) :
  res_success (Final.addComment rq id text db).1 = false ->
  sameData db (Final.addComment rq id text db).2.
Proof. brute; intros Hf; try discriminate; repeat split. Qed.

Lemma createIssue_rejected (rq : Request) (db : Db) (body : IssueBody) :
  res_status (Final.createIssue rq body db).1 = 400
  \/ res_status (Final.createIssue rq body db).1 = 404 ->
  sameData db (Final.createIssue rq body db).2.
Proof. brute; intros [Hf|Hf]; try discriminate; repeat split. Qed.

Lemma updateIssue_rejected (rq : Request) (db : Db) (id : string) (body : IssueBody) :
  res_status (Final.updateIssue rq id body db).1 = 400
  \/ res_status (Final.updateIssue rq id body db).1 = 404 ->
  sameData db (Final.updateIssue rq id body db).2.
Proof. brute; intros [Hf|Hf]; try discriminate; repeat split. Qed.

Lemma deleteIssue_rejected (rq : Request) (db : Db) (id : string) :
  res_status (Final.deleteIssue rq id db).1 = 400
  \/ res_status (Final.deleteIssue rq id db).1 = 404 ->
  sameData db (Final.deleteIssue rq id db).2.
Proof. brute; intros [Hf|Hf]; try discriminate; repeat split. Qed.

Lemma addComment_rejected (rq : Request) (db : Db) (id : string) (text : option string) :
  res_status (Final.addComment rq id text db).1 = 400
  \/ res_status (Final.addComment rq id text db).1 = 404 ->
  sameData db (Final.addComment rq id text db).2.
Proof. brute; intros [Hf|Hf]; try discriminate; repeat split. Qed.

(** X5. The read handlers never change a collection, and a write that is
    rejected with status 400 (a malformed id, blank content, a validation
    failure) or 404 (no such issue) leaves the issues, the comments and the
    users exactly as they were: every rejection is decided before the first
    change. Nothing is said of an answer with status 500. *)
Theorem rejections_and_reads_change_no_collection
    (rq : Request) (db : Db) (id : string) (body : IssueBody) (text : option string) :
  sameData db (Final.listAllIssues rq db).2
  /\ sameData db (Final.listMyIssues rq db).2
  /\ sameData db (Final.myStatistics rq db).2
  /\ sameData db (Final.getIssue rq id db).2
  /\ sameData db (Final.listComments rq id db).2
  /\ (res_status (Final.createIssue rq body db).1 = 400
      \/ res_status (Final.createIssue rq body db).1 = 404 ->
      sameData db (Final.createIssue rq body db).2)
  /\ (res_status (Final.updateIssue rq id body db).1 = 400
      \/ res_status (Final.updateIssue rq id body db).1 = 404 ->
      sameData db (Final.updateIssue rq id body db).2)
  /\ (res_status (Final.deleteIssue rq id db).1 = 400
      \/ res_status (Final.deleteIssue rq id db).1 = 404 ->
      sameData db (Final.deleteIssue rq id db).2)
  /\ (res_status (Final.addComment rq id text db).1 = 400
      \/ res_status (Final.addComment rq id text db).1 = 404 ->
      sameData db (Final.addComment rq id text db).2).
Proof.
  split; [apply listIssues_sameData|]. split; [apply listIssues_sameData|].
  split; [apply myStatistics_sameData|]. split; [apply getIssue_sameData|].
  split; [apply listComments_sameData|]. split; [apply createIssue_rejected|].
  split; [apply updateIssue_rejected|]. split; [apply deleteIssue_rejected|].
  apply addComment_rejected.
Qed.

Lemma rejections_change_no_collection_witness :
  sameData Sample.db (Final.updateIssue Sample.request Sample.bugX Sample.shortTitlePatch
                        Sample.db).2
  /\ sameData Sample.db (Final.deleteIssue Sample.request Sample.unused Sample.db).2.
Proof.
  split.
  - apply (proj1 (proj2 (proj2 (proj2 (proj2 (proj2 (proj2
             (rejections_and_reads_change_no_collection Sample.request Sample.db Sample.bugX
                Sample.shortTitlePatch None)))))))).
    left. reflexivity.
  - apply (proj1 (proj2 (proj2 (proj2 (proj2 (proj2 (proj2 (proj2
             (rejections_and_reads_change_no_collection Sample.request Sample.db
                Sample.unused Sample.emptyBody None))))))))).
    right. reflexivity.
Defined.

(** ** Referential integrity of comments *)

Lemma noOrphans_sameData (a b : Db) : sameData a b -> noOrphans a -> noOrphans b.
Proof. intros (Hi & Hc & _) H cid c. rewrite <- Hi, <- Hc. apply H. Qed.

Lemma createIssue_comments (rq : Request) (db : Db) (body : IssueBody) :
  comments (Final.createIssue rq body db).2 = comments db.
Proof. brute; reflexivity. Qed.

Lemma updateIssue_comments (rq : Request) (db : Db) (id : string) (body : IssueBody) :
  comments (Final.updateIssue rq id body db).2 = comments db.
Proof. brute; reflexivity. Qed.

Lemma deleteIssue_cases (rq : Request) (db : Db) (id : string) :
  sameData db (Final.deleteIssue rq id db).2
  \/ exists oid d, castObjectId id = Some oid /\ issues db !! oid = Some d
                   /\ Final.deleteIssue rq id db
                      = (reply 200 (Some "Issue and associated comments deleted successfully")
                           None NoData,
                         afterDelete id oid db).
Proof.
  destruct (matchesObjectIdFormat id) eqn:Hfmt.
  - pose proof (castObjectId_matches _ Hfmt) as Hcast.
    destruct (issues db !! hexToN 0 id) as [d|] eqn:Hd.
    + right. exists (hexToN 0 id), d. split; [exact Hcast|]. split; [exact Hd|].
      apply (deleteIssue_present rq db id _ d Hcast Hd).
    + left. rewrite (deleteIssue_absent rq db id _ Hcast Hd). repeat split.
  - left. rewrite (deleteIssue_malformed rq db id Hfmt). repeat split.
Qed.

Lemma addComment_cases (rq : Request) (db : Db) (id : string) (text : option string) :
  sameData db (Final.addComment rq id text db).2
  \/ exists oid d, castObjectId id = Some oid /\ issues db !! oid = Some d
                   /\ comments db !! newId rq = None
                   /\ Final.addComment rq id text db
                      = (reply 201 (Some "Comment added successfully") None
                           (AComment (commentView true db (newId rq, newComment rq oid text))),
                         {| issues := issues db;
                            comments := <[newId rq := newComment rq oid text]> (comments db);
                            users := users db;
                            calls := calls db ++ [IssueFindById id; CommentCreate;
                                                  CommentFindByObjectId (newId rq)] |}).
Proof.
  destruct (res_success (Final.addComment rq id text db).1) eqn:Hs;
    [|left; now apply addComment_failure].
  destruct (matchesObjectIdFormat id) eqn:Hfmt;
    [|rewrite (addComment_malformed rq db id Hfmt) in Hs; discriminate].
  pose proof (castObjectId_matches _ Hfmt) as Hcast.
  destruct (blank text) eqn:Hb;
    [rewrite (addComment_blank rq db id _ text Hcast Hb) in Hs; discriminate|].
  destruct (issues db !! hexToN 0 id) as [d|] eqn:Hd;
    [|rewrite (addComment_absent rq db id _ text Hcast Hb Hd) in Hs; discriminate].
  destruct (comments db !! newId rq) as [c|] eqn:Hfresh.
  - exfalso. revert Hs. unfold Final.addComment. rewrite Hfmt. simpl.
    fold (blank text). rewrite Hb. unfold_model. run. rewrite Hcast. run. rewrite Hd. simpl.
    destruct (Js.trim <$> (Js.trim <$> text)) as [[|x r]|]; simpl; try discriminate.
    rewrite Hfresh. discriminate.
  - right. exists (hexToN 0 id), d. split; [exact Hcast|]. split; [exact Hd|].
    split; [reflexivity|].
    apply (addComment_present rq db id _ text Hcast d Hb Hd Hfresh).
Qed.

(** X6. The handlers of the newer routes keep the comments free of
    orphans: if every stored comment belongs to a stored issue before a
    request, the same holds after it. For deleteIssue this is stated of
    every answer but status 500: the handler deletes the issue before its
    comments, so between the two deletions the comments of the issue belong
    to no stored issue. *)
Theorem final_routes_keep_comments_attached
    (rq : Request) (db : Db) (id : string) (body : IssueBody) (text : option string) :
  noOrphans db ->
  noOrphans (Final.listAllIssues rq db).2
  /\ noOrphans (Final.listMyIssues rq db).2
  /\ noOrphans (Final.myStatistics rq db).2
  /\ noOrphans (Final.getIssue rq id db).2
  /\ noOrphans (Final.listComments rq id db).2
  /\ noOrphans (Final.createIssue rq body db).2
  /\ noOrphans (Final.updateIssue rq id body db).2
  /\ (res_status (Final.deleteIssue rq id db).1 <> 500 ->
      noOrphans (Final.deleteIssue rq id db).2)
  /\ noOrphans (Final.addComment rq id text db).2.
Proof.
  intros Hinv.
  split; [exact (noOrphans_sameData _ _ (proj1 (listIssues_sameData rq db)) Hinv)|].
  split; [exact (noOrphans_sameData _ _ (proj2 (listIssues_sameData rq db)) Hinv)|].
  split; [exact (noOrphans_sameData _ _ (myStatistics_sameData rq db) Hinv)|].
  split; [exact (noOrphans_sameData _ _ (getIssue_sameData rq db id) Hinv)|].
  split; [exact (noOrphans_sameData _ _ (listComments_sameData rq db id) Hinv)|].
  split; [|split; [|split]].
  - intros cid c. rewrite createIssue_comments. intros Hc.
    destruct (Hinv cid c Hc) as [d Hd].
    destruct (createIssue_issues rq db body) as [->|[_ ->]]; [eauto|].
    rewrite lookup_insert. case_decide; eauto.
  - intros cid c. rewrite updateIssue_comments. intros Hc.
    destruct (Hinv cid c Hc) as [d Hd].
    destruct (updateIssue_issues rq db id body) as [->|(_ & oid & doc & au & _ & ->)]; [eauto|].
    rewrite lookup_insert. case_decide; eauto.
  - intros _.
    destruct (deleteIssue_cases rq db id) as [Hsame|(oid & d & _ & _ & ->)];
      [exact (noOrphans_sameData _ _ Hsame Hinv)|].
    intros cid c. simpl. intros [Hc Hne]%map_lookup_filter_Some. simpl in Hne.
    rewrite lookup_delete_ne by congruence. exact (Hinv cid c Hc).
  - destruct (addComment_cases rq db id text) as [Hsame|(oid & d & _ & Hd & _ & ->)];
      [exact (noOrphans_sameData _ _ Hsame Hinv)|].
    intros cid c. simpl. rewrite lookup_insert. case_decide.
    + intros [= <-]. simpl. eauto.
    + apply Hinv.
Qed.

Lemma sample_noOrphans : noOrphans Sample.db.
Proof.
  intros cid c Hc. destruct (decide (cid = 77%N)) as [->|Hne].
  - vm_compute in Hc. injection Hc as <-. vm_compute. eauto.
  - unfold Sample.db in Hc. simpl in Hc.
    rewrite lookup_insert_ne, lookup_empty in Hc by congruence. discriminate.
Qed.

Lemma final_routes_keep_comments_attached_witness :
  noOrphans (Final.deleteIssue Sample.request Sample.bugX Sample.db).2.
Proof.
  apply (proj1 (proj2 (proj2 (proj2 (proj2 (proj2 (proj2 (proj2
           (final_routes_keep_comments_attached Sample.request Sample.db Sample.bugX
              Sample.emptyBody None sample_noOrphans))))))))).
  vm_compute. discriminate.
Defined.

(** ** The bounds of the newer schema on stored issues *)

Lemma patchOk_parts (body : IssueBody) :
  patchOk body = true ->
  ifPresent titleOk (b_title body) = true
  /\ ifPresent descriptionOk (b_description body) = true
  /\ ifPresent statusOk (b_status body) = true
  /\ ifPresent priorityOk (b_priority body) = true
  /\ ifPresent assigneeOk (b_assignee body) = true.
Proof. unfold patchOk. rewrite !andb_true_iff. tauto. Qed.

Lemma createdDoc_withinBounds (rq : Request) (body : IssueBody) :
  draftOk body = true -> withinBounds (createdDoc rq body).
Proof.
  intros Hok. destruct (draftOk_title body Hok) as (t & Ht & Htok).
  unfold draftOk in Hok. apply andb_true_iff in Hok as [_ Hok].
  destruct (patchOk_parts body Hok) as (_ & Hd & Hs & Hp & Ha).
  unfold withinBounds, createdDoc. simpl. rewrite Ht. simpl.
  unfold titleOk in Htok. apply andb_true_iff in Htok as [H3 H200].
  apply Z.leb_le in H3, H200.
  split; [lia|]. split; [apply trim_idempotent|]. split; [|split; [|split]].
  - intros x [= <-]. destruct (b_description body) as [d|]; simpl in *.
    + now apply Z.leb_le.
    + rewrite trim_empty. unfold Js.length. simpl. lia.
  - destruct (b_status body) as [s|]; simpl in *;
      [exact (inValues_nonempty statusValues s Hs) | left; reflexivity].
  - destruct (b_priority body) as [p|]; simpl in *;
      [exact (inValues_nonempty priorityValues p Hp) | left; reflexivity].
  - intros x [= <-]. destruct (b_assignee body) as [a|]; simpl in *.
    + now apply Z.leb_le.
    + rewrite trim_empty. unfold Js.length. simpl. lia.
Qed.

Lemma applyUpdate_withinBounds (rq : Request) (body : IssueBody) (au : option ObjectId)
    (doc : IssueDoc) :
  patchOk body = true -> withinBounds doc -> withinBounds (applyUpdate rq body au doc).
Proof.
  intros Hok (Ht & Htrim & Hd & Hs & Hp & Ha).
  destruct (patchOk_parts body Hok) as (Ht' & Hd' & Hs' & Hp' & Ha').
  unfold withinBounds, applyUpdate. simpl.
  split; [|split; [|split; [|split; [|split]]]].
  - destruct (b_title body) as [t|]; simpl in *; [|exact Ht].
    unfold titleOk in Ht'. apply andb_true_iff in Ht' as [H3 H200].
    apply Z.leb_le in H3, H200. lia.
  - destruct (b_title body) as [t|]; simpl; [apply trim_idempotent | exact Htrim].
  - destruct (b_description body) as [d|]; simpl in *; [|exact Hd].
    intros x [= <-]. now apply Z.leb_le.
  - destruct (b_status body) as [s|]; simpl in *;
      [exact (inValues_nonempty statusValues s Hs') | exact Hs].
  - destruct (b_priority body) as [p|]; simpl in *;
      [exact (inValues_nonempty priorityValues p Hp') | exact Hp].
  - destruct (b_assignee body) as [a|]; simpl in *; [|exact Ha].
    intros x [= <-]. now apply Z.leb_le.
Qed.

(** X7. The writes of the newer routes keep every stored issue within the
    bounds of the schema: a title of 3 to 200 characters without surrounding
    white space, a description of at most 2000 and an assignee of at most
    100 characters, an enumerated status and an enumerated priority. *)
Theorem final_writes_keep_issues_within_bounds
    (rq : Request) (db : Db) (id : string) (body : IssueBody) :
  allWithinBounds db ->
  allWithinBounds (Final.createIssue rq body db).2
  /\ allWithinBounds (Final.updateIssue rq id body db).2
  /\ allWithinBounds (Final.deleteIssue rq id db).2.
Proof.
  intros Hinv. split; [|split]; intros i d.
  - destruct (createIssue_issues rq db body) as [->|[Hok ->]]; [apply Hinv|].
    rewrite lookup_insert. case_decide; [|apply Hinv].
    intros [= <-]. now apply createdDoc_withinBounds.
  - destruct (updateIssue_issues rq db id body)
      as [->|(Hok & oid & doc & au & Hdoc & ->)]; [apply Hinv|].
    rewrite lookup_insert. case_decide; [|apply Hinv].
    intros [= <-]. apply applyUpdate_withinBounds; [exact Hok | exact (Hinv oid doc Hdoc)].
  - destruct (deleteIssue_issues rq db id) as [->|[oid ->]]; [apply Hinv|].
    intros Hd. apply lookup_delete_Some in Hd as [_ Hd]. exact (Hinv i d Hd).
Qed.

Lemma empty_allWithinBounds (db : Db) : issues db = ∅ -> allWithinBounds db.
Proof. intros He i d. rewrite He, lookup_empty. discriminate. Qed.

Lemma final_writes_keep_issues_within_bounds_witness :
  allWithinBounds
    (Final.createIssue Sample.request Sample.paddedDraft
       {| issues := ∅; comments := ∅; users := ∅; calls := [] |}).2.
Proof.
  apply (proj1 (final_writes_keep_issues_within_bounds Sample.request
                  {| issues := ∅; comments := ∅; users := ∅; calls := [] |}
                  Sample.bugX Sample.paddedDraft
                  (empty_allWithinBounds
                     {| issues := ∅; comments := ∅; users := ∅; calls := [] |} eq_refl))).
Defined.

(** ** How the handlers compose *)

Lemma listedComments_length (oid : ObjectId) (db : Db) :
  List.length (listedComments oid db) = commentCount db oid.
Proof.
  unfold listedComments, commentCount. rewrite length_fmap.
  apply Permutation_length, sortNewestFirst_perm.
Qed.

(** X8. The [commentCount] the issue list reports for an issue is the
    number of comments listComments returns for that issue on the same
    database. *)
Theorem comment_count_matches_comment_list
    (rq rq' : Request) (db : Db) (l : list IssueView) (v : IssueView) (idText : string) :
  res_data (Final.listAllIssues rq db).1 = IssueList l ->
  v ∈ l ->
  castObjectId idText = Some (v_id v) ->
  exists cs, res_data (Final.listComments rq' idText db).1 = CommentList cs
             /\ v_commentCount v = Some (List.length cs).
Proof.
  rewrite (proj1 (listAllIssues_eq rq db)). simpl. intros [= <-] Hin Hcast.
  apply elem_of_listedIssues in Hin as (d & Hd & _ & Hv).
  exists (listedComments (v_id v) db).
  rewrite (listComments_present rq' db idText (v_id v) d Hcast Hd). simpl.
  split; [reflexivity|]. rewrite Hv at 1. simpl. now rewrite listedComments_length.
Qed.

Lemma comment_count_matches_witness :
  exists cs, res_data (Final.listComments Sample.request Sample.bugX Sample.db).1
             = CommentList cs
             /\ Some 1%nat = Some (List.length cs).
Proof.
  apply (comment_count_matches_comment_list Sample.request Sample.request Sample.db
           (listedIssues Sample.request None Sample.db)
           (Final.withCommentCount Sample.request
              (issueDocument Final.schema true Sample.db (Sample.oid Sample.bugX, Sample.issueX))
              1)
           Sample.bugX).
  - vm_compute. reflexivity.
  - vm_compute. apply list_elem_of_further, list_elem_of_here.
  - reflexivity.
Defined.

Lemma filter_Permutation {A} (p : A -> bool) (l l' : list A) :
  l ≡ₚ l' -> List.filter p l ≡ₚ List.filter p l'.
Proof.
  induction 1 as [|x l l' _ IH|x y l|l l' l'' _ IH1 _ IH2]; simpl.
  - reflexivity.
  - destruct (p x); [now constructor | exact IH].
  - destruct (p x), (p y); try reflexivity. apply perm_swap.
  - now transitivity (List.filter p l').
Qed.

Lemma listedComments_unsorted (oid : ObjectId) (db : Db) :
  listedComments oid db
  ≡ₚ commentView true db <$> List.filter (ofIssue oid) (map_to_list (comments db)).
Proof. unfold listedComments. apply fmap_Permutation, sortNewestFirst_perm. Qed.

Lemma listedComments_insert (db db' : Db) (oid cid : ObjectId) (c : CommentDoc) :
  comments db !! cid = None ->
  comments db' = <[cid := c]> (comments db) ->
  users db' = users db ->
  listedComments oid db'
  ≡ₚ (if N.eqb (comment_issue c) oid then [commentView true db (cid, c)] else [])
     ++ listedComments oid db.
Proof.
  intros Hfresh Hc Hu.
  rewrite (listedComments_unsorted oid db'), (listedComments_unsorted oid db), Hc.
  assert (Hview : commentView true db' = commentView true db).
  { unfold commentView, authorFieldOf, populateAuthor. now rewrite Hu. }
  rewrite Hview.
  transitivity (commentView true db
                  <$> List.filter (ofIssue oid) ((cid, c) :: map_to_list (comments db))).
  - apply fmap_Permutation, filter_Permutation, map_to_list_insert, Hfresh.
  - simpl. unfold ofIssue at 1. simpl.
    destruct (N.eqb (comment_issue c) oid); reflexivity.
Qed.

Lemma addComment_created (rq : Request) (db : Db) (id : string) (text : option string) :
  res_status (Final.addComment rq id text db).1 = 201 ->
  exists oid d, castObjectId id = Some oid /\ issues db !! oid = Some d
                /\ comments db !! newId rq = None
                /\ Final.addComment rq id text db
                   = (reply 201 (Some "Comment added successfully") None
                        (AComment (commentView true db (newId rq, newComment rq oid text))),
                      {| issues := issues db;
                         comments := <[newId rq := newComment rq oid text]> (comments db);
                         users := users db;
                         calls := calls db ++ [IssueFindById id; CommentCreate;
                                               CommentFindByObjectId (newId rq)] |}).
Proof.
  intros Hok.
  destruct (addComment_cases rq db id text) as [Hsame|H]; [exfalso|exact H].
  destruct (matchesObjectIdFormat id) eqn:Hfmt;
    [|rewrite (addComment_malformed rq db id Hfmt) in Hok; discriminate].
  pose proof (castObjectId_matches _ Hfmt) as Hcast.
  destruct (blank text) eqn:Hb;
    [rewrite (addComment_blank rq db id _ text Hcast Hb) in Hok; discriminate|].
  destruct (issues db !! hexToN 0 id) as [d|] eqn:Hd;
    [|rewrite (addComment_absent rq db id _ text Hcast Hb Hd) in Hok; discriminate].
  destruct (comments db !! newId rq) as [c|] eqn:Hfresh.
  - revert Hok. unfold Final.addComment. rewrite Hfmt. simpl.
    fold (blank text). rewrite Hb. unfold_model. run. rewrite Hcast. run. rewrite Hd. simpl.
    destruct (Js.trim <$> (Js.trim <$> text)) as [[|x r]|]; simpl; try discriminate.
    rewrite Hfresh. unfold Final.validationOr, Final.serverError. simpl. discriminate.
  - rewrite (addComment_present rq db id _ text Hcast d Hb Hd Hfresh) in Hsame.
    destruct Hsame as (_ & Hcm & _). simpl in Hcm.
    apply (f_equal (fun m => m !! newId rq)) in Hcm.
    rewrite lookup_insert_eq, Hfresh in Hcm. discriminate.
Qed.

(** X9. After addComment has answered 201 for an issue, listComments of
    that issue returns the comments it returned before together with the
    new one, whose content is the trimmed text, and the comment list of
    every other stored issue is as before, up to the order of comments with
    equal creation times. *)
Theorem added_comment_is_listed
    (rq rq' : Request) (db : Db) (id : string) (text : option string) :
  res_status (Final.addComment rq id text db).1 = 201 ->
  (exists new before after,
      res_data (Final.addComment rq id text db).1 = AComment new
      /\ content (cv_fields new) = Js.trim (default EmptyString text)
      /\ res_data (Final.listComments rq' id db).1 = CommentList before
      /\ res_data (Final.listComments rq' id (Final.addComment rq id text db).2).1
         = CommentList after
      /\ after ≡ₚ new :: before)
  /\ (forall other oid',
        castObjectId other = Some oid' ->
        castObjectId other <> castObjectId id ->
        is_Some (issues db !! oid') ->
        exists before after,
          res_data (Final.listComments rq' other db).1 = CommentList before
          /\ res_data (Final.listComments rq' other (Final.addComment rq id text db).2).1
             = CommentList after
          /\ after ≡ₚ before).
Proof.
  intros Hok.
  destruct (addComment_created rq db id text Hok) as (oid & d & Hcast & Hd & Hfresh & Heq).
  rewrite Heq. simpl.
  set (db' := {| issues := issues db;
                 comments := <[newId rq := newComment rq oid text]> (comments db);
                 users := users db; calls := _ |}).
  pose proof (fun o => listedComments_insert db db' o (newId rq) (newComment rq oid text)
                         Hfresh eq_refl eq_refl) as Hins.
  split.
  - exists (commentView true db (newId rq, newComment rq oid text)),
           (listedComments oid db), (listedComments oid db').
    split; [reflexivity|]. split; [reflexivity|].
    rewrite (listComments_present rq' db id oid d Hcast Hd).
    rewrite (listComments_present rq' db' id oid d Hcast Hd).
    split; [reflexivity|]. split; [reflexivity|].
    rewrite (Hins oid). simpl. now rewrite N.eqb_refl.
  - intros other oid' Hcast' Hne [d' Hd'].
    exists (listedComments oid' db), (listedComments oid' db').
    rewrite (listComments_present rq' db other oid' d' Hcast' Hd').
    rewrite (listComments_present rq' db' other oid' d' Hcast' Hd').
    split; [reflexivity|]. split; [reflexivity|].
    rewrite (Hins oid'). simpl.
    assert (N.eqb oid oid' = false) as -> by (apply N.eqb_neq; congruence). reflexivity.
Qed.

Lemma added_comment_is_listed_witness :
  exists new before after,
    res_data (Final.addComment Sample.request Sample.bugX (Some " ok ") Sample.db).1
    = AComment new
    /\ content (cv_fields new) = "ok"
    /\ res_data (Final.listComments Sample.request Sample.bugX Sample.db).1
       = CommentList before
    /\ res_data (Final.listComments Sample.request Sample.bugX
                   (Final.addComment Sample.request Sample.bugX (Some " ok ") Sample.db).2).1
       = CommentList after
    /\ after ≡ₚ new :: before.
Proof.
  apply (proj1 (added_comment_is_listed Sample.request Sample.request Sample.db
                  Sample.bugX (Some " ok ") ltac:(vm_compute; reflexivity))).
Defined.

(** X10. Once deleteIssue has succeeded for an id, the issue is gone for
    every handler that takes the id: getIssue, updateIssue and a second
    deleteIssue answer "Issue not found" (404), whatever the patch, and
    addComment does so for any content that is not blank. *)
Theorem deleted_issue_is_not_found
    (rq rq' : Request) (db : Db) (id : string) (body : IssueBody) (text : option string) :
  res_status (Final.deleteIssue rq id db).1 = 200 ->
  (Final.getIssue rq' id (Final.deleteIssue rq id db).2).1 = notFound
  /\ (Final.updateIssue rq' id body (Final.deleteIssue rq id db).2).1 = notFound
  /\ (Final.deleteIssue rq' id (Final.deleteIssue rq id db).2).1 = notFound
  /\ (blank text = false ->
      (Final.addComment rq' id text (Final.deleteIssue rq id db).2).1 = notFound).
Proof.
  intros Hok. destruct (deleteIssue_success rq db id Hok) as (oid & Hcast & ->).
  assert (Hgone : issues (afterDelete id oid db) !! oid = None) by apply lookup_delete_eq.
  rewrite (getIssue_absent rq' _ id oid Hcast Hgone).
  rewrite (updateIssue_absent rq' _ id oid Hcast Hgone).
  rewrite (deleteIssue_absent rq' _ id oid Hcast Hgone).
  repeat split. intros Hb.
  now rewrite (addComment_absent rq' _ id oid text Hcast Hb Hgone).
Qed.

Lemma deleted_issue_is_not_found_witness :
  (Final.deleteIssue Sample.request Sample.bugX
     (Final.deleteIssue Sample.request Sample.bugX Sample.db).2).1 = notFound.
Proof.
  apply (proj1 (proj2 (proj2 (deleted_issue_is_not_found Sample.request Sample.request
                                Sample.db Sample.bugX Sample.emptyBody None
                                ltac:(vm_compute; reflexivity))))).
Defined.

Lemma updateIssue_author_throws (rq : Request) (db : Db) (id : string) (oid : ObjectId)
    (doc : IssueDoc) (body : IssueBody) (e : Error) :
  castObjectId id = Some oid ->
  issues db !! oid = Some doc ->
  castAuthor (b_author body) = Throw e ->
  Final.updateIssue rq id body db
  = (Final.validationOr rq "Failed to update issue" e,
     addCalls [IssueFindById id; IssueFindByIdAndUpdate id] db).
Proof.
  intros Hcast Hdoc Hau. unfold Final.updateIssue.
  rewrite (castObjectId_Some _ _ Hcast). simpl.
  unfold Issue_findById, Issue_findByIdAndUpdate. run. rewrite Hcast. run.
  rewrite Hdoc. simpl. rewrite Hau. simpl.
  unfold addCalls, addCall. simpl. rewrite <- app_assoc. reflexivity.
Qed.

Lemma updateIssue_updated (rq : Request) (db : Db) (id : string) (body : IssueBody) :
  res_status (Final.updateIssue rq id body db).1 = 200 ->
  exists oid doc au,
    castObjectId id = Some oid /\ issues db !! oid = Some doc
    /\ castAuthor (b_author body) = Ok au /\ patchOk body = true
    /\ Final.updateIssue rq id body db
       = (reply 200 (Some "Issue updated successfully") None
            (AnIssue (toObject Final.schema rq
                        (issueDocument Final.schema true db (oid, applyUpdate rq body au doc)))),
          {| issues := <[oid := applyUpdate rq body au doc]> (issues db);
             comments := comments db; users := users db;
             calls := calls db ++ [IssueFindById id; IssueFindByIdAndUpdate id] |}).
Proof.
  intros Hok.
  destruct (matchesObjectIdFormat id) eqn:Hfmt;
    [|rewrite (updateIssue_malformed rq db id Hfmt) in Hok; discriminate].
  pose proof (castObjectId_matches _ Hfmt) as Hcast.
  destruct (issues db !! hexToN 0 id) as [doc|] eqn:Hdoc;
    [|rewrite (updateIssue_absent rq db id _ Hcast Hdoc) in Hok; discriminate].
  destruct (castAuthor (b_author body)) as [au|e] eqn:Hau.
  - destruct (patchOk body) eqn:Hp.
    + exists (hexToN 0 id), doc, au. repeat (split; [assumption || reflexivity|]).
      apply (updateIssue_valid rq db id _ doc body au Hcast Hdoc Hau Hp).
    + rewrite (proj1 (updateIssue_invalid rq db id _ doc body au Hcast Hdoc Hau Hp)) in Hok.
      discriminate.
  - rewrite (updateIssue_author_throws rq db id _ doc body e Hcast Hdoc Hau) in Hok.
    destruct e; discriminate.
Qed.

(** X11. After updateIssue has answered 200, getIssue of the same id
    returns the record the update answered with: the fields the patch names
    hold the patch's values (title, description and assignee trimmed), the
    other fields, [createdAt] among them, are as they were stored,
    [updatedAt] is the time of the update, and every other issue and every
    comment is untouched. *)
Theorem updated_issue_is_returned
    (rq rq' : Request) (db : Db) (id : string) (body : IssueBody) :
  res_status (Final.updateIssue rq id body db).1 = 200 ->
  exists oid before v,
    castObjectId id = Some oid
    /\ issues db !! oid = Some before
    /\ (Final.getIssue rq' id (Final.updateIssue rq id body db).2).1
       = reply 200 None None (AnIssue v)
    /\ (exists u, res_data (Final.updateIssue rq id body db).1 = AnIssue u
                  /\ v_fields u = v_fields v /\ v_author u = v_author v)
    /\ title (v_fields v) = default (title before) (Js.trim <$> b_title body)
    /\ description (v_fields v)
       = orDefault (orDefault (Js.trim <$> b_description body) (description before))
           (Some EmptyString)
    /\ status (v_fields v) = default (status before) (b_status body)
    /\ priority (v_fields v) = default (priority before) (b_priority body)
    /\ assignee (v_fields v)
       = orDefault (orDefault (Js.trim <$> b_assignee body) (assignee before))
           (Some EmptyString)
    /\ createdAt (v_fields v) = createdAt before
    /\ updatedAt (v_fields v) = now rq
    /\ (forall j, j <> oid ->
          issues (Final.updateIssue rq id body db).2 !! j = issues db !! j)
    /\ comments (Final.updateIssue rq id body db).2 = comments db.
Proof.
  intros Hok.
  destruct (updateIssue_updated rq db id body Hok) as (oid & doc & au & Hcast & Hdoc & _ & _ & ->).
  exists oid, doc. eexists. split; [exact Hcast|]. split; [exact Hdoc|]. simpl. split.
  - rewrite (getIssue_present rq' _ id oid (applyUpdate rq body au doc) Hcast);
      [reflexivity | apply lookup_insert_eq].
  - simpl. split; [eexists; repeat split|].
    repeat (split; [reflexivity|]). split; [|reflexivity].
    intros j Hj. now rewrite lookup_insert_ne by congruence.
Qed.

Lemma updated_issue_is_returned_witness :
  exists oid before v,
    castObjectId Sample.bugX = Some oid
    /\ issues Sample.db !! oid = Some before
    /\ (Final.getIssue Sample.request Sample.bugX
          (Final.updateIssue Sample.request Sample.bugX Sample.statusPatch Sample.db).2).1
       = reply 200 None None (AnIssue v)
    /\ status (v_fields v) = "Resolved"
    /\ title (v_fields v) = "Bug X".
Proof.
  destruct (updated_issue_is_returned Sample.request Sample.request Sample.db Sample.bugX
              Sample.statusPatch ltac:(vm_compute; reflexivity))
    as (oid & before & v & Hc & Hb & Hg & _ & Ht & _ & Hs & _).
  exists oid, before, v. split; [exact Hc|]. split; [exact Hb|]. split; [exact Hg|].
  vm_compute in Hc. injection Hc as <-. vm_compute in Hb. injection Hb as <-.
  split; [exact Hs | exact Ht].
Defined.

(** X12. A patch whose [author] is not castable to an ObjectId makes the
    newer updateIssue answer 500 "Failed to update issue" rather than a
    validation failure, because the cast error is not a ValidationError;
    nothing is stored. The older route answers 400 with the message of the
    cast error. *)
Theorem uncastable_author_is_a_server_error
    (rq : Request) (db : Db) (id : string) (oid : ObjectId) (doc : IssueDoc)
    (body : IssueBody) (a : string) :
  castObjectId id = Some oid ->
  issues db !! oid = Some doc ->
  b_author body = Some a ->
  castObjectId a = None ->
  res_status (Final.updateIssue rq id body db).1 = 500
  /\ res_message (Final.updateIssue rq id body db).1 = Some (Literal "Failed to update issue")
  /\ res_errors (Final.updateIssue rq id body db).1 = None
  /\ sameData db (Final.updateIssue rq id body db).2
  /\ (Legacy.updateIssue rq id body db).1 = Legacy.badRequest (CastError "author" a)
  /\ sameData db (Legacy.updateIssue rq id body db).2.
Proof.
  intros Hcast Hdoc Ha Hbad.
  assert (Hau : castAuthor (b_author body) = Throw (CastError "author" a)).
  { unfold castAuthor. now rewrite Ha, Hbad. }
  rewrite (updateIssue_author_throws rq db id oid doc body _ Hcast Hdoc Hau). simpl.
  repeat (split; [reflexivity|]). split; [repeat split|].
  unfold Legacy.updateIssue, Issue_findByIdAndUpdate. run. rewrite Hcast, Hau. simpl.
  repeat split.
Qed.

Lemma uncastable_author_witness :
  res_status (Final.updateIssue Sample.request Sample.bugX
                {| b_title := None; b_description := None; b_status := None;
                   b_priority := None; b_assignee := None; b_author := Some "me" |}
                Sample.db).1 = 500.
Proof.
  apply (uncastable_author_is_a_server_error Sample.request Sample.db Sample.bugX
           (Sample.oid Sample.bugX) Sample.issueX _ "me").
  - reflexivity.
  - vm_compute. reflexivity.
  - reflexivity.
  - reflexivity.
Defined.

(** ** The shape of the answers *)

Ltac shape :=
  unfold wellShaped, reply, failure, Final.validationOr, Final.serverError; simpl;
  repeat match goal with
    | |- context [match ?e with _ => _ end] => destruct e eqn:?; simpl
    end;
  ((left; repeat split; auto; fail) || (right; repeat split; auto; congruence)).

(** X13. Every answer of the newer routes is a success with status 200 or
    201 or a failure with status 400, 404 or 500 and no data; the detail of
    an internal error is part of the answer only for status 500 and only in
    development mode. *)
Theorem final_answers_are_well_shaped
    (rq : Request) (db : Db) (id : string) (body : IssueBody) (text : option string) :
  wellShaped rq (Final.listAllIssues rq db).1
  /\ wellShaped rq (Final.listMyIssues rq db).1
  /\ wellShaped rq (Final.myStatistics rq db).1
  /\ wellShaped rq (Final.getIssue rq id db).1
  /\ wellShaped rq (Final.createIssue rq body db).1
  /\ wellShaped rq (Final.updateIssue rq id body db).1
  /\ wellShaped rq (Final.deleteIssue rq id db).1
  /\ wellShaped rq (Final.listComments rq id db).1
  /\ wellShaped rq (Final.addComment rq id text db).1.
Proof.
  split; [rewrite (proj1 (listAllIssues_eq rq db)); shape|].
  split; [rewrite (proj1 (listMyIssues_eq rq db)); shape|].
  split; [rewrite (myStatistics_eq rq db); shape|].
  split; [brute; shape|]. split; [brute; shape|]. split; [brute; shape|].
  split; [brute; shape|]. split; [brute; shape|]. brute; shape.
Qed.

(** ** The queries of the issue list *)

Lemma selected_all (db : Db) : selected None db = map_to_list (issues db).
Proof. unfold selected. apply filter_true. Qed.

(** X14. The list of all issues costs one query for the issues and one
    count query per stored issue, in the order of the list: for [n] stored
    issues it makes [n + 1] model calls. *)
Theorem listing_makes_one_count_query_per_issue (rq : Request) (db : Db) :
  exists l,
    res_data (Final.listAllIssues rq db).1 = IssueList l
    /\ res_count (Final.listAllIssues rq db).1 = Some (size (issues db))
    /\ List.length l = size (issues db)
    /\ calls (Final.listAllIssues rq db).2
       = calls db ++ IssueFind None :: ((fun v => CommentCountDocuments (v_id v)) <$> l).
Proof.
  exists (listedIssues rq None db). unfold Final.listAllIssues. rewrite listIssues_eq. simpl.
  assert (Hlen : List.length (listedIssues rq None db) = size (issues db)).
  { unfold listedIssues. rewrite length_fmap, <- length_map_to_list, <- selected_all.
    apply Permutation_length, sortNewestFirst_perm. }
  split; [reflexivity|]. split; [now rewrite Hlen|]. split; [exact Hlen|].
  unfold listedIssues. now rewrite <- list_fmap_compose.
Qed.

(** ** The range of [completionRate] *)

(** X15. For a user with between 1 and 2^40 issues, [completionRate] is the
    one-decimal rendering of a number of tenths between 0 and 1000: it is
    "0.0" when no issue is resolved or closed and "100.0" when all are. *)
Theorem completionRate_is_a_percentage (resolved closed total : nat) :
  (0 < total)%nat -> (resolved + closed <= total)%nat -> Z.of_nat total <= 2 ^ 40 ->
  exists n,
    Final.completionRateOf resolved closed total = JsString (Number.oneDecimal n)
    /\ 0 <= n <= 1000
    /\ ((resolved + closed = 0)%nat ->
        Final.completionRateOf resolved closed total = JsString "0.0")
    /\ ((resolved + closed = total)%nat ->
        Final.completionRateOf resolved closed total = JsString "100.0").
Proof.
  intros Hpos Hle Hbound. unfold Final.completionRateOf.
  assert ((0 <? total)%nat = true) as -> by now apply Nat.ltb_lt.
  eexists. split; [reflexivity|].
  set (s := Z.of_nat (resolved + closed)). set (t := Z.of_nat total).
  assert (Hn : s = 0 \/ 1 <= s) by lia.
  assert (Hst : s <= t) by lia. assert (Ht : 1 <= t) by lia.
  split; [|split].
  - destruct Hn as [->|Hs]; [rewrite completion_tenths_zero; lia|].
    pose proof (completion_tenths s t ltac:(lia) Hbound) as Hb. nia.
  - intros Hz. unfold s. rewrite Hz. reflexivity.
  - intros Hall. unfold Number.toFixed1. do 2 f_equal.
    assert (Heq : s = t) by lia. rewrite Heq.
    pose proof (completion_tenths t t ltac:(lia) Hbound) as Hb.
    assert (Number.tenths (Number.mul (Number.div t t) 100) = 1000) as -> by nia.
    reflexivity.
Qed.

Lemma completionRate_is_a_percentage_witness :
  exists n, Final.completionRateOf 1 1 3 = JsString (Number.oneDecimal n) /\ 0 <= n <= 1000.
Proof.
  destruct (completionRate_is_a_percentage 1 1 3 ltac:(lia) ltac:(lia)
              ltac:(vm_compute; discriminate)) as (n & Hn & Hr & _).
  exists n. auto.
Defined.

(** ** Ids do not depend on the case of their digits *)

Lemma lowerAscii_hex (c : ascii) :
  isHexDigit (Router.lowerAscii c) = isHexDigit c
  /\ (isHexDigit c = true -> hexValue (Router.lowerAscii c) = hexValue c).
Proof.
  destruct c as [[] [] [] [] [] [] [] []]; split; try reflexivity;
    intros H; (discriminate H || reflexivity).
Qed.

Lemma lowerCase_length (s : string) :
  String.length (Router.lowerCase s) = String.length s.
Proof. induction s as [|c r IH]; simpl; [reflexivity|]. now rewrite IH. Qed.

Lemma lowerCase_allHex (s : string) :
  allChars isHexDigit (Router.lowerCase s) = allChars isHexDigit s.
Proof.
  induction s as [|c r IH]; simpl; [reflexivity|].
  now rewrite (proj1 (lowerAscii_hex c)), IH.
Qed.

Lemma lowerCase_hexToN (s : string) (acc : N) :
  allChars isHexDigit s = true -> hexToN acc (Router.lowerCase s) = hexToN acc s.
Proof.
  revert acc. induction s as [|c r IH]; intros acc; simpl; [reflexivity|].
  intros [Hc Hr]%andb_prop. rewrite (proj2 (lowerAscii_hex c) Hc). now apply IH.
Qed.

Lemma lowerCase_cast (s : string) : castObjectId (Router.lowerCase s) = castObjectId s.
Proof.
  unfold castObjectId, matchesObjectIdFormat.
  rewrite lowerCase_length, lowerCase_allHex.
  destruct (String.length s =? 24)%nat; simpl; [|reflexivity].
  destruct (allChars isHexDigit s) eqn:H; [|reflexivity].
  now rewrite lowerCase_hexToN.
Qed.

Lemma lowerCase_format (s : string) :
  matchesObjectIdFormat (Router.lowerCase s) = matchesObjectIdFormat s.
Proof.
  unfold matchesObjectIdFormat. now rewrite lowerCase_length, lowerCase_allHex.
Qed.

Ltac same_id id :=
  let Hfmt := fresh "Hfmt" in
  unfold_final; rewrite (lowerCase_format id);
  destruct (matchesObjectIdFormat id) eqn:Hfmt; simpl; [|split; [reflexivity | repeat split]];
  unfold_model; rewrite (lowerCase_cast id), (castObjectId_matches id Hfmt); run;
  unfold issueDocument, commentView, authorFieldOf, populateAuthor; simpl; split_cases;
  (split; [reflexivity | repeat split]).

(** X16. An id written with uppercase hexadecimal digits denotes the same
    issue as its lowercase spelling: every id-taking handler of the newer
    routes gives the same answer and leaves the same collections for the
    two spellings. *)
Theorem id_case_does_not_matter
    (rq : Request) (db : Db) (id : string) (body : IssueBody) (text : option string) :
  ((Final.getIssue rq (Router.lowerCase id) db).1 = (Final.getIssue rq id db).1
   /\ sameData (Final.getIssue rq (Router.lowerCase id) db).2 (Final.getIssue rq id db).2)
  /\ ((Final.updateIssue rq (Router.lowerCase id) body db).1
      = (Final.updateIssue rq id body db).1
   /\ sameData (Final.updateIssue rq (Router.lowerCase id) body db).2
        (Final.updateIssue rq id body db).2)
  /\ ((Final.deleteIssue rq (Router.lowerCase id) db).1 = (Final.deleteIssue rq id db).1
   /\ sameData (Final.deleteIssue rq (Router.lowerCase id) db).2
        (Final.deleteIssue rq id db).2)
  /\ ((Final.listComments rq (Router.lowerCase id) db).1 = (Final.listComments rq id db).1
   /\ sameData (Final.listComments rq (Router.lowerCase id) db).2
        (Final.listComments rq id db).2)
  /\ ((Final.addComment rq (Router.lowerCase id) text db).1
      = (Final.addComment rq id text db).1
   /\ sameData (Final.addComment rq (Router.lowerCase id) text db).2
        (Final.addComment rq id text db).2).
Proof.
  split; [same_id id|]. split; [same_id id|]. split; [same_id id|].
  split; [same_id id|]. same_id id.
Qed.

(** ** The older routes *)

Ltac unfold_legacy :=
  unfold Legacy.getIssue, Legacy.createIssue, Legacy.updateIssue, Legacy.deleteIssue,
    Legacy.listComments, Legacy.addComment.

(** X17. The older routes hand a malformed id to the model, whose cast
    throws: getIssue, deleteIssue and listComments answer 500 "Server
    error", updateIssue and addComment answer 400 with the message of the
    cast error, none of them answers 404, and nothing is stored. *)
Theorem legacy_malformed_id
    (rq : Request) (db : Db) (id : string) (body : IssueBody) (text : option string) :
  castObjectId id = None ->
  Legacy.getIssue rq id db = (failure 500 "Server error", addCall (IssueFindById id) db)
  /\ Legacy.deleteIssue rq id db = (failure 500 "Server error", addCall (IssueFindById id) db)
  /\ Legacy.listComments rq id db = (failure 500 "Server error", addCall (CommentFind id) db)
  /\ Legacy.updateIssue rq id body db
     = (Legacy.badRequest (CastError "_id" id), addCall (IssueFindByIdAndUpdate id) db)
  /\ Legacy.addComment rq id text db
     = (Legacy.badRequest (CastError "_id" id), addCall (IssueFindById id) db).
Proof.
  intros Hbad. unfold_legacy. unfold_model. run. rewrite Hbad. repeat split.
Qed.

Lemma legacy_malformed_id_witness :
  Legacy.listComments Sample.request "abc" Sample.db
  = (failure 500 "Server error", addCall (CommentFind "abc") Sample.db).
Proof.
  apply (proj1 (proj2 (proj2 (legacy_malformed_id Sample.request Sample.db "abc"
                                Sample.emptyBody None eq_refl)))).
Defined.

Lemma legacy_listComments_eq (rq : Request) (db : Db) (id : string) (oid : ObjectId) :
  castObjectId id = Some oid ->
  Legacy.listComments rq id db
  = (reply 200 None None (CommentList (listedComments oid db)), addCall (CommentFind id) db).
Proof.
  intros Hcast. unfold Legacy.listComments, Comment_find. run. rewrite Hcast. reflexivity.
Qed.

Lemma legacy_deleteIssue_present (rq : Request) (db : Db) (id : string) (oid : ObjectId)
    (d : IssueDoc) :
  castObjectId id = Some oid ->
  issues db !! oid = Some d ->
  Legacy.deleteIssue rq id db
  = (reply 200 (Some "Issue deleted") None NoData,
     {| issues := delete oid (issues db); comments := comments db; users := users db;
        calls := calls db ++ [IssueFindById id; IssueFindByIdAndDelete id] |}).
Proof.
  intros Hcast Hd. unfold Legacy.deleteIssue. unfold_model. run. rewrite Hcast. run.
  rewrite Hd. simpl. unfold addCall, setIssues. simpl. rewrite <- app_assoc. reflexivity.
Qed.

(** X18. The older deleteIssue removes the issue and never a comment, and
    the older listComments does not look the issue up: after a successful
    delete, listComments of the deleted id still answers 200 with the very
    comments it returned before, which now belong to no stored issue. *)
Theorem legacy_delete_leaves_comments_listed
    (rq rq' : Request) (db : Db) (id : string) (oid : ObjectId) (d : IssueDoc) :
  castObjectId id = Some oid ->
  issues db !! oid = Some d ->
  res_status (Legacy.deleteIssue rq id db).1 = 200
  /\ issues (Legacy.deleteIssue rq id db).2 = delete oid (issues db)
  /\ comments (Legacy.deleteIssue rq id db).2 = comments db
  /\ (Legacy.listComments rq' id (Legacy.deleteIssue rq id db).2).1
     = (Legacy.listComments rq' id db).1
  /\ res_status (Legacy.listComments rq' id db).1 = 200
  /\ (forall cid c, comments db !! cid = Some c -> comment_issue c = oid ->
        ~ noOrphans (Legacy.deleteIssue rq id db).2).
Proof.
  intros Hcast Hd. rewrite (legacy_deleteIssue_present rq db id oid d Hcast Hd).
  rewrite !(legacy_listComments_eq rq' _ id oid Hcast). simpl.
  repeat (split; [reflexivity|]).
  intros cid c Hc Hoid Hinv. destruct (Hinv cid c Hc) as [x Hx]. simpl in Hx.
  rewrite Hoid, lookup_delete_eq in Hx. discriminate.
Qed.

Lemma legacy_delete_leaves_comments_witness :
  comments (Legacy.deleteIssue Sample.request Sample.bugX Sample.db).2 = comments Sample.db.
Proof.
  apply (proj1 (proj2 (proj2 (legacy_delete_leaves_comments_listed Sample.request
           Sample.request Sample.db Sample.bugX (Sample.oid Sample.bugX) Sample.issueX
           eq_refl ltac:(vm_compute; reflexivity))))).
Defined.

(** X19. The older updateIssue validates the patch before it looks the
    issue up, the newer one looks the issue up first. For a well-formed id
    of no stored issue the newer route answers 404 whatever the patch,
    while the older route answers 404 only when the author of the patch can
    be cast and the patch passes the update validators, and 400 otherwise;
    neither stores anything. *)
Theorem legacy_update_validates_before_lookup
    (rq : Request) (db : Db) (id : string) (oid : ObjectId) (body : IssueBody) :
  castObjectId id = Some oid ->
  issues db !! oid = None ->
  (Final.updateIssue rq id body db).1 = notFound
  /\ ((Legacy.updateIssue rq id body db).1 = notFound
      <-> (exists au, castAuthor (b_author body) = Ok au)
          /\ updateErrors Legacy.schema body = [])
  /\ ((Legacy.updateIssue rq id body db).1 = notFound
      \/ res_status (Legacy.updateIssue rq id body db).1 = 400)
  /\ sameData db (Final.updateIssue rq id body db).2
  /\ sameData db (Legacy.updateIssue rq id body db).2.
Proof.
  intros Hcast Habs.
  rewrite (updateIssue_absent rq db id oid Hcast Habs body).
  unfold Legacy.updateIssue, Issue_findByIdAndUpdate. run. rewrite Hcast.
  destruct (castAuthor (b_author body)) as [au|e] eqn:Hau; simpl.
  - destruct (updateErrors Legacy.schema body) as [|e errs] eqn:E; simpl.
    + rewrite Habs. simpl. repeat split; eauto.
    + repeat split; try (now right); try differ.
      intros [_ H]. discriminate.
  - repeat split; try (now right); try differ.
    intros [[au H] _]. discriminate.
Qed.

Lemma legacy_update_validates_witness :
  (Final.updateIssue Sample.request Sample.unused Sample.statusPatch Sample.db).1 = notFound.
Proof.
  apply (proj1 (legacy_update_validates_before_lookup Sample.request Sample.db Sample.unused
                  (Sample.oid Sample.unused) Sample.statusPatch eq_refl
                  ltac:(vm_compute; reflexivity))).
Defined.

(** ** The route table *)

Lemma literal_is_no_id (l s : string) :
  String.length l <> 24%nat ->
  matchesObjectIdFormat s = true ->
  Router.sameLiteral l s = false.
Proof.
  intros Hlen Hfmt. unfold Router.sameLiteral.
  destruct (String.eqb_spec (Router.lowerCase l) (Router.lowerCase s)) as [E|_]; [|reflexivity].
  apply (f_equal String.length) in E. rewrite !lowerCase_length in E.
  unfold matchesObjectIdFormat in Hfmt. apply andb_true_iff in Hfmt as [Hfmt _].
  apply Nat.eqb_eq in Hfmt. congruence.
Qed.

(** X20. The routes are tried in the order they are registered, and the two
    literal routes come before the [/:id] route: GET of a segment that
    spells my-issues or my-stats, in any letter case, reaches the list and
    the statistics of the user, GET of any other segment reaches getIssue
    with that segment as id, and no well-formed id is taken by a literal
    route. PUT and DELETE of one segment reach updateIssue and deleteIssue
    whatever it spells, a second segment must spell comments, and PATCH
    reaches no handler. *)
Theorem literal_routes_shadow_no_id
    (rq : Request) (s c : string) (path : list string) (body : IssueBody)
    (text : option string) :
  (Router.sameLiteral "my-issues" s = true ->
     Router.handle rq Router.GET [s] body text = Some (Final.listMyIssues rq))
  /\ (Router.sameLiteral "my-issues" s = false -> Router.sameLiteral "my-stats" s = true ->
      Router.handle rq Router.GET [s] body text = Some (Final.myStatistics rq))
  /\ (Router.sameLiteral "my-issues" s = false -> Router.sameLiteral "my-stats" s = false ->
      Router.handle rq Router.GET [s] body text = Some (Final.getIssue rq s))
  /\ (matchesObjectIdFormat s = true ->
      Router.handle rq Router.GET [s] body text = Some (Final.getIssue rq s))
  /\ Router.handle rq Router.PUT [s] body text = Some (Final.updateIssue rq s body)
  /\ Router.handle rq Router.DELETE [s] body text = Some (Final.deleteIssue rq s)
  /\ Router.handle rq Router.GET [s; c] body text
     = (if Router.sameLiteral "comments" c then Some (Final.listComments rq s) else None)
  /\ Router.handle rq Router.POST [s; c] body text
     = (if Router.sameLiteral "comments" c then Some (Final.addComment rq s text) else None)
  /\ Router.handle rq Router.PATCH path body text = None.
Proof.
  assert (Hget : Router.sameLiteral "my-issues" s = false ->
                 Router.sameLiteral "my-stats" s = false ->
                 Router.handle rq Router.GET [s] body text = Some (Final.getIssue rq s)).
  { intros H1 H2. unfold Router.handle, Router.dispatch. simpl. now rewrite H1, H2. }
  split; [|split; [|split; [|split; [|split; [|split; [|split; [|split]]]]]]].
  - intros H. unfold Router.handle, Router.dispatch. simpl. now rewrite H.
  - intros H1 H2. unfold Router.handle, Router.dispatch. simpl. now rewrite H1, H2.
  - exact Hget.
  - intros Hfmt. apply Hget; apply literal_is_no_id; (discriminate || assumption).
  - reflexivity.
  - reflexivity.
  - unfold Router.handle, Router.dispatch. simpl.
    destruct (Router.sameLiteral "my-issues" s), (Router.sameLiteral "my-stats" s),
      (Router.sameLiteral "comments" c); reflexivity.
  - unfold Router.handle, Router.dispatch. simpl.
    destruct (Router.sameLiteral "comments" c); reflexivity.
  - unfold Router.handle, Router.dispatch. simpl. reflexivity.
Qed.

Lemma literal_routes_witness :
  Router.handle Sample.request Router.GET ["My-Stats"] Sample.emptyBody None
  = Some (Final.myStatistics Sample.request).
Proof.
  apply (proj1 (proj2 (literal_routes_shadow_no_id Sample.request "My-Stats" "" []
                         Sample.emptyBody None)));
    reflexivity.
Defined.
